(** * Maxprod extension: policy compilation and enforcement

    A shallow embedding of the background service worker
    ([src/unnamed/part_000], first document) with its message listener,
    of the Reddit content script
    ([src/extension/reddit_content_script.js]) and of the YouTube content
    script with its scroll lock
    ([src/extension/youtube_content_script.js]), followed by the
    properties of the specification that concern them and by further
    properties of the same code.

    Conventions of the embedding.
    - A JavaScript string is a [string]; each [ascii] stands for one code
      unit in the range 0..255 (Latin-1).  [String.prototype.trim] and
      [toLowerCase] are modelled on that range.
    - A [Set] is a [gset string] (only membership, emptiness and
      existential iteration are used by the code); a [Map] whose
      iteration order matters is an association list in insertion order.
    - Asynchronous functions run to completion one after the other; their
      effects on the caches and on the network are threaded through an
      explicit world.
    - Platform services that the code calls but does not define (the URL
      parser) are section variables. *)

From Stdlib Require Import Ascii String ZArith Bool List Lia DecimalString.
From stdpp Require Import base list gmap strings sorting.
Import ListNotations.


(** ** JavaScript primitives used by the scripts *)

Module Js.

(** Code unit of a character. *)
Definition code (c : ascii) : N := N_of_ascii c.

(** White space of [trim] among the code units below 256: TAB, LF, VT, FF,
    CR, SP and NBSP. *)
Definition isWhiteSpace (c : ascii) : bool :=
  let n := code c in
  (((9 <=? n) && (n <=? 13)) || (n =? 32) || (n =? 160))%N.

(** [toLowerCase] on one code unit: A-Z, and the Latin-1 capitals
    U+00C0..U+00DE except the multiplication sign U+00D7. *)
Definition lowerChar (c : ascii) : ascii :=
  let n := code c in
  if (((65 <=? n) && (n <=? 90))
      || ((192 <=? n) && (n <=? 222) && negb (n =? 215)))%N
  then ascii_of_N (n + 32) else c.

(** Case folding of a regular expression with the [i] flag and no [u]
    flag, restricted to what can match an ASCII pattern letter: only A-Z
    and a-z are identified. *)
Definition foldChar (c : ascii) : ascii :=
  let n := code c in
  if ((65 <=? n) && (n <=? 90))%N then ascii_of_N (n + 32) else c.

Fixpoint toLowerCase (s : string) : string :=
  match s with
  | EmptyString => EmptyString
  | String c r => String (lowerChar c) (toLowerCase r)
  end.

Fixpoint dropWhile (p : ascii -> bool) (s : string) : string :=
  match s with
  | EmptyString => EmptyString
  | String c r => if p c then dropWhile p r else s
  end.

(** Removes the longest suffix whose characters all satisfy [p]. *)
Fixpoint dropWhileEnd (p : ascii -> bool) (s : string) : string :=
  match s with
  | EmptyString => EmptyString
  | String c r =>
      match dropWhileEnd p r with
      | EmptyString => if p c then EmptyString else String c EmptyString
      | r' => String c r'
      end
  end.

Definition trim (s : string) : string :=
  dropWhileEnd isWhiteSpace (dropWhile isWhiteSpace s).

(** [s.endsWith(t)]. *)
Fixpoint endsWith (s t : string) : bool :=
  String.eqb s t ||
  match s with
  | EmptyString => false
  | String _ r => endsWith r t
  end.

(** Removes the literal prefix [p] when present: [s.replace(/^p/, '')]. *)
Fixpoint stripPrefix (p s : string) : option string :=
  match p, s with
  | EmptyString, _ => Some s
  | String a p', String b s' =>
      if Ascii.eqb a b then stripPrefix p' s' else None
  | String _ _, EmptyString => None
  end.

(** [s.startsWith(t)]. *)
Definition startsWith (s t : string) : bool :=
  match stripPrefix t s with
  | Some _ => true
  | None => false
  end.

(** [s.includes(t)]. *)
Fixpoint includes (s t : string) : bool :=
  startsWith s t ||
  match s with
  | EmptyString => false
  | String _ r => includes r t
  end.

(** The same for a pattern of ASCII letters and punctuation under the
    [i] flag. *)
Fixpoint stripPrefixCI (p s : string) : option string :=
  match p, s with
  | EmptyString, _ => Some s
  | String a p', String b s' =>
      if Ascii.eqb (foldChar a) (foldChar b) then stripPrefixCI p' s' else None
  | String _ _, EmptyString => None
  end.

(** [s.split(sep)] for a one-character separator. *)
Fixpoint split (sep : ascii) (s : string) : list string :=
  match s with
  | EmptyString => [EmptyString]
  | String c r =>
      if Ascii.eqb c sep then EmptyString :: split sep r
      else match split sep r with
           | [] => [String c EmptyString]
           | w :: ws => String c w :: ws
           end
  end.

(** Truthiness of a string: [Boolean(s)]. *)
Definition truthy (s : string) : bool := negb (String.eqb s "").

(** [s.slice(1)]. *)
Definition slice1 (s : string) : string :=
  match s with
  | EmptyString => EmptyString
  | String _ r => r
  end.

(** [s.slice(1, -1)]. *)
Definition slice1m1 (s : string) : string :=
  String.substring 1 (String.length s - 2) s.

(** [s.indexOf(c)] for a character, as an index when found. *)
Fixpoint indexOfChar (c : ascii) (s : string) : option nat :=
  match s with
  | EmptyString => None
  | String d r => if Ascii.eqb d c then Some O
                  else option_map S (indexOfChar c r)
  end.

(** [arr.indexOf(x)], as an index when found. *)
Fixpoint indexOf (arr : list string) (x : string) : option nat :=
  match arr with
  | [] => None
  | y :: r => if String.eqb y x then Some O
              else option_map S (indexOf r x)
  end.

(** [arr.filter((x, index, arr) => f x index arr)]. *)
Fixpoint filterIdxFrom (f : string -> nat -> bool) (i : nat) (l : list string)
  : list string :=
  match l with
  | [] => []
  | x :: r => if f x i then x :: filterIdxFrom f (S i) r
              else filterIdxFrom f (S i) r
  end.

Definition filterIdx (f : string -> nat -> list string -> bool)
  (arr : list string) : list string :=
  filterIdxFrom (fun x i => f x i arr) O arr.

(** [arr.map((x, index) => f x index)], used for [forEach] loops that
    push one element per iteration. *)
Fixpoint mapIdxFrom {B} (f : string -> nat -> B) (i : nat) (l : list string)
  : list B :=
  match l with
  | [] => []
  | x :: r => f x i :: mapIdxFrom f (S i) r
  end.

(** A value as it may come back from the synchronised storage. *)
Inductive Value :=
| Undefined
| Null
| Bool (b : bool)
| Number (z : Z)
| Str (s : string)
| Object.

(** [Boolean(v)]. *)
Definition toBoolean (v : Value) : bool :=
  match v with
  | Undefined | Null => false
  | Bool b => b
  | Number z => negb (z =? 0)%Z
  | Str s => truthy s
  | Object => true
  end.

(** What the scripts read from a parsed [URL] object. *)
Record Url := mkUrl {
  href : string;
  hostname : string;
  pathname : string;
  search : string
}.

(** [String(b)] and [String(n)] for a boolean and a natural number. *)
Definition stringOfBool (b : bool) : string :=
  if b then "true" else "false".

Definition stringOfNat (n : nat) : string :=
  NilEmpty.string_of_uint (Nat.to_uint n).

(** [arr.join(sep)]. *)
Fixpoint join (sep : string) (arr : list string) : string :=
  match arr with
  | [] => EmptyString
  | [x] => x
  | x :: r => x +:+ sep +:+ join sep r
  end.

(** The longest prefix without the character [c]. *)
Fixpoint takeUntil (c : ascii) (s : string) : string :=
  match s with
  | EmptyString => EmptyString
  | String d r => if Ascii.eqb d c then EmptyString
                  else String d (takeUntil c r)
  end.

End Js.

(** ** The scroll and input lock

    [ensureScrollLockState], [lockScroll] and [unlockScroll] of
    [src/extension/youtube_content_script.js]; the Reddit content script
    and the functions that the background worker injects into open tabs
    carry the same three functions, with the same key on [window]. *)

Module ScrollLock.

(** The inline style properties that the lock reads and writes. *)
Record Style := mkStyle {
  overflow : string;
  overscrollBehavior : string;
  touchAction : string
}.

(** The object stored under [window.__maxprodScrollLockState]; its
    [handlers] are the closures registered below and carry no data. *)
Record LockState := mkLockState {
  count : Z;
  prevDocOverflow : string;
  prevDocOverscroll : string;
  prevBodyOverflow : string;
  prevBodyTouchAction : string
}.

(** A registered listener of the lock: event type and capture flag. *)
Definition Listener : Type := string * bool.

(** The part of a document and its window that the lock touches, with
    the overlay nodes present in the document, by element id. *)
Record Window := mkWindow {
  lockState : option LockState;
  documentElement : option Style;
  body : option Style;
  listeners : gset Listener;
  overlays : gmap string string;
  siteOverlayFlag : bool
}.

Definition lockListeners : gset Listener :=
  {[ ("wheel", false); ("touchmove", false);
     ("keydown", true); ("keypress", true); ("keyup", true) ]}.

Definition setLockState (o : option LockState) (w : Window) : Window :=
  mkWindow o (documentElement w) (body w) (listeners w) (overlays w)
    (siteOverlayFlag w).

Definition setDocumentElement (o : option Style) (w : Window) : Window :=
  mkWindow (lockState w) o (body w) (listeners w) (overlays w)
    (siteOverlayFlag w).

Definition setBody (o : option Style) (w : Window) : Window :=
  mkWindow (lockState w) (documentElement w) o (listeners w) (overlays w)
    (siteOverlayFlag w).

Definition setListeners (l : gset Listener) (w : Window) : Window :=
  mkWindow (lockState w) (documentElement w) (body w) l (overlays w)
    (siteOverlayFlag w).

Definition setOverlays (o : gmap string string) (w : Window) : Window :=
  mkWindow (lockState w) (documentElement w) (body w) (listeners w) o
    (siteOverlayFlag w).

Definition setSiteOverlayFlag (b : bool) (w : Window) : Window :=
  mkWindow (lockState w) (documentElement w) (body w) (listeners w)
    (overlays w) b.

(** [ensureScrollLockState]: the existing state object, or a fresh one
    with a zero count that is stored on the window. *)
Definition ensureScrollLockState (w : Window) : LockState * Window :=
  match lockState w with
  | Some existing => (existing, w)
  | None =>
      let stateObj := mkLockState 0 "" "" "" "" in
      (stateObj, setLockState (Some stateObj) w)
  end.

Definition lockScroll (w : Window) : Window :=
  match documentElement w with
  | None => w
  | Some docEl =>
      let '(stateObj, w) := ensureScrollLockState w in
      let '(stateObj, w) :=
        if (count stateObj =? 0)%Z then
          let stateObj :=
            mkLockState (count stateObj)
              (overflow docEl) (overscrollBehavior docEl)
              (prevBodyOverflow stateObj) (prevBodyTouchAction stateObj) in
          let w :=
            setDocumentElement
              (Some (mkStyle "hidden" "none" (touchAction docEl))) w in
          let '(stateObj, w) :=
            match body w with
            | Some b =>
                (mkLockState (count stateObj)
                   (prevDocOverflow stateObj) (prevDocOverscroll stateObj)
                   (overflow b) (touchAction b),
                 setBody (Some (mkStyle "hidden" (overscrollBehavior b) "none")) w)
            | None => (stateObj, w)
            end in
          (stateObj, setListeners (listeners w ∪ lockListeners) w)
        else (stateObj, w) in
      setLockState
        (Some (mkLockState (count stateObj + 1)
                 (prevDocOverflow stateObj) (prevDocOverscroll stateObj)
                 (prevBodyOverflow stateObj) (prevBodyTouchAction stateObj))) w
  end.

Definition unlockScroll (w : Window) : Window :=
  match lockState w with
  | None => w
  | Some stateObj =>
      let c := Z.max 0 (count stateObj - 1) in
      let stateObj :=
        mkLockState c (prevDocOverflow stateObj) (prevDocOverscroll stateObj)
          (prevBodyOverflow stateObj) (prevBodyTouchAction stateObj) in
      let w := setLockState (Some stateObj) w in
      if (c >? 0)%Z then w
      else
        let w :=
          match documentElement w with
          | Some docEl =>
              setDocumentElement
                (Some (mkStyle (prevDocOverflow stateObj)
                         (prevDocOverscroll stateObj) (touchAction docEl))) w
          | None => w
          end in
        let w :=
          match body w with
          | Some b =>
              setBody
                (Some (mkStyle (prevBodyOverflow stateObj)
                         (overscrollBehavior b) (prevBodyTouchAction stateObj))) w
          | None => w
          end in
        let w := setListeners (listeners w ∖ lockListeners) w in
        setLockState None w
  end.

End ScrollLock.

(** ** The background service worker ([src/unnamed/part_000]) *)

Module Background.
Import Js.

(** The configuration kept in [chrome.storage.sync].  The two switches
    are stored loosely typed and go through [normalizeBoolean]; the lists
    hold strings ([ensureArray] is the identity on them). *)
Record State := mkState {
  blockedHosts : list string;
  allowedSubreddits : list string;
  blockReddit : Value;
  extensionEnabled : Value;
  blockedYouTubeChannels : list string
}.

Definition DEFAULT_STATE : State :=
  mkState [] [] (Bool false) (Bool true) [].

Module RULE_OFFSETS.
Definition BLOCKED_HOSTS : Z := 10000.
Definition REDDIT_BLOCK : Z := 20000.
Definition ALLOWED_SUBREDDITS : Z := 30000.
End RULE_OFFSETS.

Module RULE_PRIORITIES.
Definition BLOCK : Z := 1.
Definition ALLOW : Z := 100.
End RULE_PRIORITIES.

Definition SITE_OVERLAY_ID : string := "maxprod-site-block-overlay".
Definition YOUTUBE_CACHE_TTL_MS : Z := 5 * 60 * 1000.
Definition YOUTUBE_CHANNEL_CACHE_TTL_MS : Z := 10 * 60 * 1000.
Definition ENV_YOUTUBE_KEY : string := "YOUTUBE_API_KEY".

(** A rule of the declarative net request facility. *)
Inductive ActionType := block | allow.

Record Condition := mkCondition {
  urlFilter : string;
  resourceTypes : list string
}.

Record Rule := mkRule {
  id : Z;
  priority : Z;
  action : ActionType;
  condition : Condition
}.

Definition normalizeBoolean (v : Value) : bool :=
  match v with
  | Bool b => b
  | Str s =>
      let normalized := toLowerCase (trim s) in
      if String.eqb normalized "true" then true
      else if String.eqb normalized "false" then false
      else toBoolean v
  | Number z => negb (z =? 0)%Z
  | _ => toBoolean v
  end.

Definition normalizeSubreddit (input : string) : string :=
  let s := trim input in
  let s :=
    match stripPrefixCI "/r/" s with
    | Some r => r
    | None => match stripPrefixCI "r/" s with
              | Some r => r
              | None => s
              end
    end in
  let s := dropWhileEnd (Ascii.eqb "/"%char) s in
  toLowerCase s.

Definition normalizeHostForMatching (host : string) : string :=
  if negb (truthy host) then ""
  else
    let s := toLowerCase (trim host) in
    match stripPrefix "www." s with
    | Some r => r
    | None => s
    end.

(** The callback [(x, index, arr) => x && arr.indexOf(x) === index]. *)
Definition firstOccurrence (x : string) (index : nat) (arr : list string)
  : bool :=
  truthy x &&
  match indexOf arr x with
  | Some j => Nat.eqb j index
  | None => false
  end.

Definition appendBlockedHostRules (rules : list Rule) (hosts : list string)
  : list Rule :=
  rules ++
  mapIdxFrom
    (fun host index =>
       mkRule (RULE_OFFSETS.BLOCKED_HOSTS + Z.of_nat index)
         RULE_PRIORITIES.BLOCK block
         (mkCondition ("||" +:+ host) ["main_frame"]))
    O
    (filterIdx firstOccurrence
       (List.map (fun host => toLowerCase (trim host))
          (List.filter truthy hosts))).

Definition createRedditBlockRule : Rule :=
  mkRule RULE_OFFSETS.REDDIT_BLOCK RULE_PRIORITIES.BLOCK block
    (mkCondition "||reddit.com^" ["main_frame"]).

Definition appendAllowedSubredditRules (rules : list Rule)
  (subreddits : list string) : list Rule :=
  rules ++
  mapIdxFrom
    (fun subreddit index =>
       mkRule (RULE_OFFSETS.ALLOWED_SUBREDDITS + Z.of_nat index)
         RULE_PRIORITIES.ALLOW allow
         (mkCondition ("||reddit.com/r/" +:+ subreddit) ["main_frame"]))
    O
    (filterIdx firstOccurrence
       (List.map normalizeSubreddit (List.filter truthy subreddits))).

(** *** Already open tabs *)

Record Tab := mkTab {
  tabId : option Z;
  tabUrl : option string;
  (** The document of the tab; [None] for a document that refuses
      scripting, in which no overlay can have been injected either. *)
  tabWindow : option ScrollLock.Window
}.

(** [isHostBlocked]; the loop over the set returns at the first match. *)
Definition isHostBlocked (hostname : string) (blockedHostSet : gset string)
  : bool :=
  if negb (truthy hostname) || Nat.eqb (size blockedHostSet) 0 then false
  else
    let normalized := normalizeHostForMatching hostname in
    if negb (truthy normalized) then false
    else
      existsb
        (fun blocked =>
           String.eqb normalized blocked
           || endsWith normalized ("." +:+ blocked))
        (elements blockedHostSet).

(** The function that [applySiteOverlay] runs inside the document. *)
Definition applySiteOverlayInPage (host : string) (w : ScrollLock.Window)
  : ScrollLock.Window :=
  let existing := ScrollLock.overlays w !! SITE_OVERLAY_ID in
  match ScrollLock.body w, ScrollLock.documentElement w with
  | None, None => w
  | _, _ =>
      let wasActive := bool_decide (is_Some existing) in
      let w :=
        ScrollLock.setOverlays
          (<[SITE_OVERLAY_ID := host +:+ " is blocked by Maxprod."]>
             (ScrollLock.overlays w)) w in
      let w := if wasActive then w else ScrollLock.lockScroll w in
      ScrollLock.setSiteOverlayFlag true w
  end.

(** The function that [removeSiteOverlay] runs inside the document. *)
Definition removeSiteOverlayInPage (w : ScrollLock.Window)
  : ScrollLock.Window :=
  let overlay := ScrollLock.overlays w !! SITE_OVERLAY_ID in
  let wasActive := bool_decide (is_Some overlay) in
  let w :=
    if wasActive
    then ScrollLock.setOverlays (delete SITE_OVERLAY_ID (ScrollLock.overlays w)) w
    else w in
  let w := if wasActive then ScrollLock.unlockScroll w else w in
  ScrollLock.setSiteOverlayFlag false w.

(** [chrome.scripting.executeScript] wrapped in the [try]/[catch] of the
    two callers: a document that refuses the script is left as it is. *)
Definition executeScript (func : ScrollLock.Window -> ScrollLock.Window)
  (tab : Tab) : Tab :=
  match tabWindow tab with
  | Some w => mkTab (tabId tab) (tabUrl tab) (Some (func w))
  | None => tab
  end.

Definition applySiteOverlay (hostname : string) (tab : Tab) : Tab :=
  executeScript (applySiteOverlayInPage hostname) tab.

Definition removeSiteOverlay (tab : Tab) : Tab :=
  executeScript removeSiteOverlayInPage tab.

(** [/^https?:/i.test(url)]. *)
Definition isHttpUrl (url : string) : bool :=
  bool_decide (is_Some (stripPrefixCI "http:" url))
  || bool_decide (is_Some (stripPrefixCI "https:" url)).

(** [/^https?:\/\//i.test(raw)]. *)
Definition isHttpLink (raw : string) : bool :=
  bool_decide (is_Some (stripPrefixCI "http://" raw))
  || bool_decide (is_Some (stripPrefixCI "https://" raw)).

Section WithUrlParser.

(** [new URL(s)]: the parsed address, or [None] when the constructor
    throws. *)
Variable parseUrl : string -> option Url.

Definition getHostnameFromUrl (url : string) : option string :=
  match parseUrl url with
  | Some u => Some (toLowerCase (hostname u))
  | None => None
  end.

(** The set that [enforceOpenTabs] builds from the configured hosts. *)
Definition blockedHostSetOf (blockedHosts : list string) : gset string :=
  list_to_set
    (List.filter truthy
       (List.map normalizeHostForMatching (List.filter truthy blockedHosts))).

(** The body of the per-tab task of [enforceOpenTabs]. *)
Definition enforceTab (extensionEnabled : bool) (blockedHostSet : gset string)
  (tab : Tab) : Tab :=
  match tabId tab, tabUrl tab with
  | Some i, Some url =>
      if (i =? 0)%Z || negb (truthy url) || negb (isHttpUrl url) then tab
      else
        match getHostnameFromUrl url with
        | None => tab
        | Some hostname =>
            if negb (truthy hostname) then tab
            else if negb extensionEnabled then removeSiteOverlay tab
            else if endsWith hostname "reddit.com" then removeSiteOverlay tab
            else if isHostBlocked hostname blockedHostSet
                 then applySiteOverlay hostname tab
                 else removeSiteOverlay tab
        end
  | _, _ => tab
  end.

(** [enforceOpenTabs]: the tasks are independent, one per tab. *)
Definition enforceOpenTabs (extensionEnabled : bool)
  (blockedHosts : list string) (tabs : list Tab) : list Tab :=
  let blockedHostSet := blockedHostSetOf blockedHosts in
  List.map (enforceTab extensionEnabled blockedHostSet) tabs.

(** *** Rule compilation *)

(** What the worker sees of the browser: the dynamic rules installed in
    the declarative net request facility and the open tabs. *)
Record Browser := mkBrowser {
  dynamicRules : list Rule;
  tabs : list Tab
}.

(** [chrome.declarativeNetRequest.updateDynamicRules]: the rules whose id
    is listed are removed, then the new ones are added.  The checks that
    the browser makes on a request (distinct identifiers, quota) are not
    part of the model. *)
Definition updateDynamicRules (removeRuleIds : list Z) (addRules : list Rule)
  (existing : list Rule) : list Rule :=
  List.filter (fun r => negb (existsb (Z.eqb (id r)) removeRuleIds)) existing
  ++ addRules.

(** The array [rules] that [updateAllRules] fills when the extension is
    enabled. *)
Definition compiledRules (state : State) : list Rule :=
  let blockReddit := normalizeBoolean (blockReddit state) in
  let rules := [] in
  let rules := appendBlockedHostRules rules (blockedHosts state) in
  if blockReddit then
    let rules := rules ++ [createRedditBlockRule] in
    appendAllowedSubredditRules rules (allowedSubreddits state)
  else rules.

Definition updateAllRules (state : State) (b : Browser) : Browser :=
  let extensionEnabled := normalizeBoolean (extensionEnabled state) in
  let existingRules := dynamicRules b in
  let removeRuleIds := List.map id existingRules in
  if negb extensionEnabled then
    let rules' :=
      if (0 <? length removeRuleIds)%nat
      then updateDynamicRules removeRuleIds [] existingRules
      else existingRules in
    mkBrowser rules'
      (enforceOpenTabs extensionEnabled (blockedHosts state) (tabs b))
  else
    let rules := compiledRules state in
    mkBrowser (updateDynamicRules removeRuleIds rules existingRules)
      (enforceOpenTabs extensionEnabled (blockedHosts state) (tabs b)).

(** *** The channel block list *)

Inductive EntryType := TypeId | TypeHandle | TypeName.

Record Entry := mkEntry {
  type : EntryType;
  value : string
}.

Definition entryTypeEqb (a b : EntryType) : bool :=
  match a, b with
  | TypeId, TypeId | TypeHandle, TypeHandle | TypeName, TypeName => true
  | _, _ => false
  end.

(** The class [[A-Za-z0-9_-]]; the [i] flag adds nothing to it. *)
Definition isIdChar (c : ascii) : bool :=
  let n := code c in
  (((65 <=? n) && (n <=? 90)) || ((97 <=? n) && (n <=? 122))
   || ((48 <=? n) && (n <=? 57)) || (n =? 95) || (n =? 45))%N.

(** Exactly [n] characters of the class, then the end of the input. *)
Fixpoint idChars (n : nat) (s : string) : bool :=
  match n, s with
  | O, EmptyString => true
  | S n', String c r => isIdChar c && idChars n' r
  | _, _ => false
  end.

(** [/^uc[A-Za-z0-9_-]{22}$/i.test(raw)]. *)
Definition matchesChannelId (raw : string) : bool :=
  match stripPrefixCI "uc" raw with
  | Some r => idChars 22 r
  | None => false
  end.

(** [url.pathname.split('/').filter(Boolean)]. *)
Definition pathSegments (path : string) : list string :=
  List.filter truthy (split "/"%char path).

(** The value of [raw] after the branch on links of
    [normalizeYouTubeChannelEntry]; [raw] is trimmed and not empty.  An
    exception inside the [try] block leaves [raw] as it is. *)
Definition channelToken (raw : string) : string :=
  if isHttpLink raw then
    match parseUrl raw with
    | Some url =>
        if startsWith (pathname url) "/channel/" then
          match pathSegments (pathname url) !! 1%nat with
          | Some seg => seg
          | None => raw
          end
        else if startsWith (pathname url) "/@" then
          match pathSegments (pathname url) !! 0%nat with
          | Some seg =>
              "@" +:+ match stripPrefix "@" seg with
                      | Some r => r
                      | None => seg
                      end
          | None => raw
          end
        else if startsWith (pathname url) "/c/" then
          match pathSegments (pathname url) !! 1%nat with
          | Some seg => seg
          | None => raw
          end
        else raw
    | None => raw
    end
  else raw.

(** The three [return] statements that end
    [normalizeYouTubeChannelEntry]. *)
Definition classifyToken (raw : string) : Entry :=
  if matchesChannelId raw then mkEntry TypeId (toLowerCase raw)
  else if startsWith raw "@"
       then mkEntry TypeHandle (toLowerCase (slice1 raw))
       else mkEntry TypeName (toLowerCase raw).

Definition normalizeYouTubeChannelEntry (v : string) : option Entry :=
  if negb (truthy v) then None
  else
    let raw := trim v in
    if negb (truthy raw) then None
    else Some (classifyToken (channelToken raw)).

(** The owner of a video as [fetchYouTubeVideoInfo] returns it. *)
Record VideoInfo := mkVideoInfo {
  channelId : string;
  channelTitle : string
}.

Record ChannelInfo := mkChannelInfo {
  handle : string
}.

(** The loop of [isChannelBlocked] over the remaining entries; a [None]
    entry is a [null] element of the array. *)
Fixpoint isChannelBlockedLoop (channelId channelTitle normalizedHandle : string)
  (entries : list (option Entry)) : bool :=
  match entries with
  | [] => false
  | None :: rest =>
      isChannelBlockedLoop channelId channelTitle normalizedHandle rest
  | Some entry :: rest =>
      if negb (truthy (value entry)) then
        isChannelBlockedLoop channelId channelTitle normalizedHandle rest
      else if entryTypeEqb (type entry) TypeId
              && String.eqb (value entry) channelId then true
      else if entryTypeEqb (type entry) TypeName
              && String.eqb (value entry) channelTitle then true
      else if entryTypeEqb (type entry) TypeHandle
              && truthy normalizedHandle
              && String.eqb (value entry) normalizedHandle then true
      else isChannelBlockedLoop channelId channelTitle normalizedHandle rest
  end.

Definition isChannelBlocked (info : option VideoInfo)
  (entries : list (option Entry)) (channelHandle : string) : bool :=
  match info with
  | None => false
  | Some info =>
      let channelId := toLowerCase (channelId info) in
      let channelTitle := toLowerCase (channelTitle info) in
      let normalizedHandle :=
        toLowerCase match stripPrefix "@" channelHandle with
                    | Some r => r
                    | None => channelHandle
                    end in
      isChannelBlockedLoop channelId channelTitle normalizedHandle entries
  end.

(** *** The lookup caches *)

(** A [Map] with string keys, in insertion order. *)
Definition JsMap (A : Type) : Type := list (string * A).

Fixpoint mapGet {A} (k : string) (m : JsMap A) : option A :=
  match m with
  | [] => None
  | (k', v) :: r => if String.eqb k' k then Some v else mapGet k r
  end.

(** [m.set(k, v)]: an existing key keeps its place, a new one goes last. *)
Fixpoint mapSet {A} (k : string) (v : A) (m : JsMap A) : JsMap A :=
  match m with
  | [] => [(k, v)]
  | (k', v') :: r =>
      if String.eqb k' k then (k', v) :: r else (k', v') :: mapSet k v r
  end.

Fixpoint mapDelete {A} (k : string) (m : JsMap A) : JsMap A :=
  match m with
  | [] => []
  | (k', v') :: r =>
      if String.eqb k' k then r else (k', v') :: mapDelete k r
  end.

Record Cached (A : Type) := mkCached {
  timestamp : Z;
  data : A
}.
Global Arguments mkCached {A}.
Global Arguments timestamp {A}.
Global Arguments data {A}.

(** [entries.sort((a, b) => a[1].timestamp - b[1].timestamp)]: the sort
    of an array is stable. *)
Fixpoint insertByTimestamp {A} (x : string * Cached A)
  (l : list (string * Cached A)) : list (string * Cached A) :=
  match l with
  | [] => [x]
  | y :: r =>
      if (timestamp (snd x) <=? timestamp (snd y))%Z then x :: l
      else y :: insertByTimestamp x r
  end.

Fixpoint sortByTimestamp {A} (l : list (string * Cached A))
  : list (string * Cached A) :=
  match l with
  | [] => []
  | x :: r => insertByTimestamp x (sortByTimestamp r)
  end.

(** The [while] loop of the two pruning functions. *)
Fixpoint pruneLoop {A} (maxEntries : nat) (entries : list (string * Cached A))
  (cache : JsMap (Cached A)) : JsMap (Cached A) :=
  match entries with
  | [] => cache
  | (k, _) :: rest =>
      if (maxEntries <? length cache)%nat
      then pruneLoop maxEntries rest (mapDelete k cache)
      else cache
  end.

Definition pruneCache {A} (maxEntries : nat) (cache : JsMap (Cached A))
  : JsMap (Cached A) :=
  if (length cache <=? maxEntries)%nat then cache
  else pruneLoop maxEntries (sortByTimestamp cache) cache.

(** The constants [MAX_CACHE_ENTRIES] of the two pruning functions. *)
Definition VIDEO_MAX_CACHE_ENTRIES : nat := 100.
Definition CHANNEL_MAX_CACHE_ENTRIES : nat := 200.

Definition pruneYouTubeVideoCache
  (cache : JsMap (Cached (option VideoInfo)))
  : JsMap (Cached (option VideoInfo)) :=
  pruneCache VIDEO_MAX_CACHE_ENTRIES cache.

Definition pruneYouTubeChannelCache (cache : JsMap (Cached ChannelInfo))
  : JsMap (Cached ChannelInfo) :=
  pruneCache CHANNEL_MAX_CACHE_ENTRIES cache.

(** *** The world of the worker *)

(** Outcome of a [fetch] followed by the reading of its body. *)
Inductive HttpResponse (A : Type) :=
| Rejected
| NotOk (status : Z) (text : string)
| OkJson (json : A).
Global Arguments Rejected {A}.
Global Arguments NotOk {A}.
Global Arguments OkJson {A}.

(** [data.items[0].snippet] of the videos endpoint; a missing field
    reads as the empty string, as [x || ''] makes it. *)
Record Snippet := mkSnippet {
  snippetChannelId : string;
  snippetChannelTitle : string
}.

(** A request that left the worker. *)
Inductive Request :=
| VideosRequest (videoId apiKey : string)
| ChannelsRequest (channelId apiKey : string)
| EnvFileRequest.

Inductive Error :=
| YouTubeApiError (status : Z) (body : string)
| YouTubeRequestFailed (status : Z)
| YouTubeChannelApiError (status : Z) (body : string)
| YouTubeChannelRequestFailed (status : Z)
| FetchFailed.

(** The module-level variables of the worker, the clock, the storage and
    the network.  The two endpoints answer a request made at a given
    time with a delay and a response; [envFile] is the text of the
    credential file when it can be read. *)
Record World := mkWorld {
  youtubeVideoCache : JsMap (Cached (option VideoInfo));
  youtubeChannelCache : JsMap (Cached ChannelInfo);
  envValuesPromise : option (JsMap string);
  now : Z;
  storage : State;
  videosEndpoint : Z -> string -> string -> N * HttpResponse (option Snippet);
  channelsEndpoint : Z -> string -> string -> N * HttpResponse string;
  envFile : option string;
  requests : list Request
}.

Definition setVideoCache (c : JsMap (Cached (option VideoInfo))) (w : World)
  : World :=
  mkWorld c (youtubeChannelCache w) (envValuesPromise w) (now w) (storage w)
    (videosEndpoint w) (channelsEndpoint w) (envFile w) (requests w).

Definition setChannelCache (c : JsMap (Cached ChannelInfo)) (w : World)
  : World :=
  mkWorld (youtubeVideoCache w) c (envValuesPromise w) (now w) (storage w)
    (videosEndpoint w) (channelsEndpoint w) (envFile w) (requests w).

Definition setEnvValuesPromise (p : option (JsMap string)) (w : World)
  : World :=
  mkWorld (youtubeVideoCache w) (youtubeChannelCache w) p (now w) (storage w)
    (videosEndpoint w) (channelsEndpoint w) (envFile w) (requests w).

Definition setNow (t : Z) (w : World) : World :=
  mkWorld (youtubeVideoCache w) (youtubeChannelCache w) (envValuesPromise w)
    t (storage w) (videosEndpoint w) (channelsEndpoint w) (envFile w)
    (requests w).

Definition logRequest (r : Request) (w : World) : World :=
  mkWorld (youtubeVideoCache w) (youtubeChannelCache w) (envValuesPromise w)
    (now w) (storage w) (videosEndpoint w) (channelsEndpoint w) (envFile w)
    (requests w ++ [r]).

(** An asynchronous function: a world transformer that returns a value
    or throws. *)
Inductive Result (A : Type) :=
| Ok (a : A)
| Throw (e : Error).
Global Arguments Ok {A}.
Global Arguments Throw {A}.

Definition Async (A : Type) : Type := World -> Result A * World.

Definition ret {A} (a : A) : Async A := fun w => (Ok a, w).

Definition throw {A} (e : Error) : Async A := fun w => (Throw e, w).

Definition bind {A B} (m : Async A) (k : A -> Async B) : Async B :=
  fun w =>
    match m w with
    | (Ok a, w') => k a w'
    | (Throw e, w') => (Throw e, w')
    end.

Definition gets {A} (f : World -> A) : Async A := fun w => (Ok (f w), w).

Definition modify (f : World -> World) : Async unit := fun w => (Ok tt, f w).

Notation "'do' x <- m ; k" := (bind m (fun x => k))
  (at level 10, x name, m at level 100, k at level 200).
Notation "'run' m ; k" := (bind m (fun _ => k))
  (at level 10, m at level 100, k at level 200).

(** [await fetch(...)] on the videos endpoint, with the body read. *)
Definition fetchVideos (videoId apiKey : string)
  : Async (HttpResponse (option Snippet)) :=
  fun w =>
    let '(delay, response) := videosEndpoint w (now w) videoId apiKey in
    (Ok response,
     setNow (now w + Z.of_N delay)
       (logRequest (VideosRequest videoId apiKey) w)).

Definition fetchChannels (channelId apiKey : string)
  : Async (HttpResponse string) :=
  fun w =>
    let '(delay, response) := channelsEndpoint w (now w) channelId apiKey in
    (Ok response,
     setNow (now w + Z.of_N delay)
       (logRequest (ChannelsRequest channelId apiKey) w)).

Definition fetchYouTubeVideoInfo (videoId apiKey : string)
  : Async (option VideoInfo) :=
  do now <- gets now;
  do cached <- gets (fun w => mapGet videoId (youtubeVideoCache w));
  let lookup : Async (option VideoInfo) :=
    do response <- fetchVideos videoId apiKey;
    match response with
    | Rejected => throw FetchFailed
    | NotOk status text =>
        if (status =? 400)%Z || (status =? 403)%Z
        then throw (YouTubeApiError status text)
        else throw (YouTubeRequestFailed status)
    | OkJson item =>
        let result :=
          match item with
          | Some snippet =>
              Some (mkVideoInfo (trim (snippetChannelId snippet))
                      (trim (snippetChannelTitle snippet)))
          | None => None
          end in
        run modify (fun w =>
          setVideoCache
            (mapSet videoId (mkCached now result) (youtubeVideoCache w)) w);
        run modify (fun w =>
          setVideoCache (pruneYouTubeVideoCache (youtubeVideoCache w)) w);
        ret result
    end in
  match cached with
  | Some c =>
      if (now - timestamp c <? YOUTUBE_CACHE_TTL_MS)%Z then ret (data c)
      else lookup
  | None => lookup
  end.

Definition fetchYouTubeChannelInfo (channelId apiKey : string)
  : Async (option ChannelInfo) :=
  let normalizedId := trim channelId in
  if negb (truthy normalizedId) then ret None
  else
    do now <- gets now;
    do cached <- gets (fun w => mapGet normalizedId (youtubeChannelCache w));
    let lookup : Async (option ChannelInfo) :=
      do response <- fetchChannels normalizedId apiKey;
      match response with
      | Rejected => throw FetchFailed
      | NotOk status text =>
          if (status =? 400)%Z || (status =? 403)%Z
          then throw (YouTubeChannelApiError status text)
          else throw (YouTubeChannelRequestFailed status)
      | OkJson customUrl =>
          let handle :=
            if truthy customUrl then toLowerCase (trim customUrl) else "" in
          let result := mkChannelInfo handle in
          run modify (fun w =>
            setChannelCache
              (mapSet normalizedId (mkCached now result)
                 (youtubeChannelCache w)) w);
          run modify (fun w =>
            setChannelCache
              (pruneYouTubeChannelCache (youtubeChannelCache w)) w);
          ret (Some result)
      end in
    match cached with
    | Some c =>
        if (now - timestamp c <? YOUTUBE_CHANNEL_CACHE_TTL_MS)%Z
        then ret (Some (data c))
        else lookup
    | None => lookup
    end.

(** *** The credential file *)

Definition quote : string := String (ascii_of_nat 34) EmptyString.
Definition apostrophe : string := String (ascii_of_nat 39) EmptyString.

(** One step of the [reduce] of [parseEnvFile].  The accumulator is a
    plain object: the assignment of a string to its [__proto__] stores
    nothing. *)
Definition parseEnvLine (acc : JsMap string) (line : string) : JsMap string :=
  match indexOfChar "="%char line with
  | None => acc
  | Some eqIndex =>
      let key := trim (String.substring 0 eqIndex line) in
      let v :=
        trim (String.substring (S eqIndex)
                (String.length line - S eqIndex) line) in
      let v :=
        if (startsWith v quote && endsWith v quote)
           || (startsWith v apostrophe && endsWith v apostrophe)
        then slice1m1 v else v in
      if truthy key then
        if String.eqb key "__proto__" then acc else mapSet key v acc
      else acc
  end.

(** [parseEnvFile]; the lines are trimmed after the split, so that a
    carriage return before a line feed goes with the white space. *)
Definition parseEnvFile (content : string) : JsMap string :=
  if negb (truthy content) then []
  else
    fold_left parseEnvLine
      (List.filter (fun line => truthy line && negb (startsWith line "#"))
         (List.map trim (split (ascii_of_nat 10) content)))
      [].

Definition loadEnvValues : Async (JsMap string) :=
  do promise <- gets envValuesPromise;
  match promise with
  | Some values => ret values
  | None =>
      run modify (logRequest EnvFileRequest);
      do file <- gets envFile;
      let values :=
        match file with
        | Some text => parseEnvFile text
        | None => []
        end in
      run modify (setEnvValuesPromise (Some values));
      ret values
  end.

Definition getYoutubeApiKeyFromEnv : Async string :=
  do values <- loadEnvValues;
  match mapGet ENV_YOUTUBE_KEY values with
  | Some key =>
      if negb (truthy key) then
        run modify (setEnvValuesPromise None);
        ret ""
      else ret (trim key)
  | None =>
      run modify (setEnvValuesPromise None);
      ret ""
  end.

(** *** The video check *)

Inductive Reason :=
| invalid_video_id
| extension_disabled
| no_blocked_channels
| missing_api_key
| video_not_found
| channel_blocked
| channel_allowed.

(** The response sent back to the content script. *)
Record Verdict := mkVerdict {
  allowed : bool;
  reason : Reason;
  verdictChannelId : option string;
  verdictChannelTitle : option string
}.

(** [handleYouTubeVideoCheck]; the argument is [message.videoId], [None]
    when the message has none. *)
Definition handleYouTubeVideoCheck (messageVideoId : option string)
  : Async Verdict :=
  let videoId := trim (default "" messageVideoId) in
  if negb (truthy videoId) then
    ret (mkVerdict true invalid_video_id None None)
  else
    do stored <- gets storage;
    let extensionEnabled := normalizeBoolean (extensionEnabled stored) in
    if negb extensionEnabled then
      ret (mkVerdict true extension_disabled None None)
    else
      let normalizedEntries :=
        omap normalizeYouTubeChannelEntry (blockedYouTubeChannels stored) in
      if Nat.eqb (length normalizedEntries) 0 then
        ret (mkVerdict true no_blocked_channels None None)
      else
        do apiKey <- getYoutubeApiKeyFromEnv;
        if negb (truthy apiKey) then
          ret (mkVerdict true missing_api_key None None)
        else
          do videoInfo <- fetchYouTubeVideoInfo videoId apiKey;
          match videoInfo with
          | None => ret (mkVerdict true video_not_found None None)
          | Some info =>
              do channelHandle <-
                (if existsb (fun entry => entryTypeEqb (type entry) TypeHandle)
                      normalizedEntries
                 then
                   do channelInfo <-
                     fetchYouTubeChannelInfo (channelId info) apiKey;
                   ret match channelInfo with
                       | Some c => handle c
                       | None => ""
                       end
                 else ret "");
              let blocked :=
                isChannelBlocked (Some info)
                  (List.map Some normalizedEntries) channelHandle in
              ret (mkVerdict (negb blocked)
                     (if blocked then channel_blocked else channel_allowed)
                     (Some (channelId info)) (Some (channelTitle info)))
          end.

End WithUrlParser.

End Background.

(** ** The Reddit content script
    ([src/extension/reddit_content_script.js]) *)

Module RedditContent.
Import Js.

(** The script's copy of the configuration, with the two switches
    already passed through [normalizeBoolean]. *)
Record State := mkState {
  allowedSubreddits : list string;
  blockReddit : bool;
  extensionEnabled : bool
}.

Definition DEFAULT_STATE : State := mkState [] false true.

Inductive ReasonType := subreddit | homepage | global.

Record Reason := mkReason {
  type : ReasonType;
  key : string;
  value : option string
}.

Definition typeName (t : ReasonType) : string :=
  match t with
  | subreddit => "subreddit"
  | homepage => "homepage"
  | global => "global"
  end.

(** The module-level variables of the script and its overlay node: the
    title and the message of the overlay while it is attached. *)
Record Script := mkScript {
  state : State;
  allowedSet : gset string;
  listsVersion : nat;
  lastDecisionKey : string;
  currentOverlayReason : string;
  overlay : option (string * string)
}.

Definition normalizeSubreddit (v : string) : option string :=
  if negb (truthy v) then None
  else
    let s := trim v in
    let s :=
      match stripPrefixCI "/r/" s with
      | Some r => r
      | None => match stripPrefixCI "r/" s with
                | Some r => r
                | None => s
                end
      end in
    let s := dropWhileEnd (Ascii.eqb "/"%char) s in
    Some (toLowerCase s).

(** Truthiness of a string that may be [null]. *)
Definition truthyOpt (o : option string) : bool :=
  match o with
  | Some s => truthy s
  | None => false
  end.

Definition rebuildSets (sc : Script) : Script :=
  mkScript (state sc)
    (list_to_set
       (omap (fun raw =>
                match normalizeSubreddit raw with
                | Some s => if truthy s then Some s else None
                | None => None
                end)
          (allowedSubreddits (state sc))))
    (S (listsVersion sc)) (lastDecisionKey sc) (currentOverlayReason sc)
    (overlay sc).

(** [pathname.match(/^\/r\/([^/]+)(?:\/|$)/i)] and what follows it. *)
Definition extractSubreddit (pathname : string) : option string :=
  match stripPrefixCI "/r/" pathname with
  | None => None
  | Some rest =>
      let m1 := takeUntil "/"%char rest in
      if negb (truthy m1) then None else normalizeSubreddit m1
  end.

Definition isHomepage (pathname search : string) : bool :=
  if String.eqb pathname "/" || String.eqb pathname "" then true
  else if String.eqb pathname "/hot" || String.eqb pathname "/best"
          || String.eqb pathname "/new" || String.eqb pathname "/top"
          || String.eqb pathname "/r/all" || String.eqb pathname "/r/popular"
       then true
  else if String.eqb pathname "/" && truthy search
          && negb (includes search "r=")
       then true
  else false.

Definition determineBlockReason (sc : Script) (pathname search : string)
  : option Reason :=
  if negb (blockReddit (state sc)) then None
  else
    let lowerPath := toLowerCase pathname in
    let sub := extractSubreddit lowerPath in
    if truthyOpt sub && bool_decide (default "" sub ∈ allowedSet sc) then None
    else if truthyOpt sub
         then Some (mkReason subreddit (default "" sub) (Some (default "" sub)))
    else if isHomepage lowerPath search
         then Some (mkReason homepage "home" None)
    else Some (mkReason global "other" None).

Definition setOverlayState (key reasonKey : string)
  (node : option (string * string)) (sc : Script) : Script :=
  mkScript (state sc) (allowedSet sc) (listsVersion sc) key reasonKey node.

(** [applyOverlay]: the reason key is recorded and the node shows the
    texts of the reason.  The document is taken to have a root element,
    so that [ensureOverlay] gives a node; the scroll lock that goes with
    the node is the one of [ScrollLock]. *)
Definition applyOverlay (r : Reason) (sc : Script) : Script :=
  let reasonKey := typeName (type r) +:+ ":" +:+ key r in
  let texts :=
    match type r with
    | homepage =>
        ("Reddit homepage is blocked",
         "Stay focused! Visit an allowed subreddit or tweak your settings in Maxprod.")
    | subreddit =>
        ("r/" +:+ default "" (value r) +:+ " is blocked",
         "This subreddit is not on your allow list. Add it in Maxprod if you need access.")
    | global =>
        ("Reddit is blocked",
         "Only whitelisted subreddits are accessible. Update your allow list in Maxprod to continue.")
    end in
  setOverlayState (lastDecisionKey sc) reasonKey (Some texts) sc.

Definition clearOverlay (sc : Script) : Script :=
  setOverlayState (lastDecisionKey sc) (currentOverlayReason sc) None sc.

Definition checkLocation (force : bool) (location : Url) (sc : Script)
  : Script :=
  let hostname := toLowerCase (hostname location) in
  if negb (endsWith hostname "reddit.com") then
    clearOverlay (setOverlayState "" "" (overlay sc) sc)
  else
    let key :=
      join "|" [href location;
                stringOfBool (extensionEnabled (state sc));
                stringOfBool (blockReddit (state sc));
                stringOfNat (listsVersion sc)] in
    if negb force && String.eqb key (lastDecisionKey sc) then sc
    else
      let sc := setOverlayState key (currentOverlayReason sc) (overlay sc) sc in
      if negb (extensionEnabled (state sc)) then
        let sc := clearOverlay sc in
        setOverlayState (lastDecisionKey sc) "" (overlay sc) sc
      else
        let pathname :=
          if truthy (pathname location) then pathname location else "/" in
        let search := search location in
        match determineBlockReason sc pathname search with
        | Some r => applyOverlay r sc
        | None =>
            let sc := clearOverlay sc in
            setOverlayState (lastDecisionKey sc) "" (overlay sc) sc
        end.

End RedditContent.

(** ** The message listener of the background worker
    ([src/unnamed/part_000], [chrome.runtime.onMessage]) *)

Module Listeners.
Import Js Background.

(** A message of a content script, when it is an object: its [type] and
    its [videoId]. *)
Record Message := mkMessage {
  messageType : string;
  messageVideoId : option string
}.

(** The object passed to [sendResponse]: the verdict of the check, or
    the answer of the [catch] handler, which allows the video and carries
    the error. *)
Record Response := mkResponse {
  responseAllowed : bool;
  responseReason : option Reason;
  responseChannelId : option string;
  responseChannelTitle : option string;
  responseError : option Error
}.

Definition responseOfVerdict (v : Verdict) : Response :=
  mkResponse (allowed v) (Some (reason v)) (verdictChannelId v)
    (verdictChannelTitle v) None.

Section WithUrlParser.

Variable parseUrl : string -> option Url.

(** The listener; [None] as a message is a value that is not an object,
    [None] as a result means that nothing is sent back. *)
Definition onMessage (message : option Message) : Async (option Response) :=
  match message with
  | None => ret None
  | Some message =>
      if String.eqb (messageType message) "youtube-check-video" then
        fun w =>
          match handleYouTubeVideoCheck parseUrl (messageVideoId message) w with
          | (Ok response, w') => (Ok (Some (responseOfVerdict response)), w')
          | (Throw error, w') =>
              (Ok (Some (mkResponse true None None None (Some error))), w')
          end
      else ret None
  end.

End WithUrlParser.

End Listeners.

(** ** The YouTube content script
    ([src/extension/youtube_content_script.js]) *)

Module YouTubeContent.
Import Js.

Definition OVERLAY_ID : string := "maxprod-youtube-overlay".

(** The script's copy of the configuration. *)
Record State := mkState {
  extensionEnabled : bool;
  blockedYouTubeChannels : list string
}.

Definition DEFAULT_STATE : State := mkState true [].

(** What [pauseAllVideos] touches of a video element. *)
Record Video := mkVideo {
  paused : bool;
  currentTime : Z
}.

(** The module-level variables of the script, the document it runs in
    with its video elements, and the video identifiers of the messages
    sent to the worker so far. *)
Record Script := mkScript {
  state : State;
  lastSignature : string;
  checkToken : nat;
  overlayReason : string;
  page : ScrollLock.Window;
  videos : list Video;
  outbox : list string
}.

Definition setState (s : State) (sc : Script) : Script :=
  mkScript s (lastSignature sc) (checkToken sc) (overlayReason sc) (page sc)
    (videos sc) (outbox sc).

Definition setLastSignature (s : string) (sc : Script) : Script :=
  mkScript (state sc) s (checkToken sc) (overlayReason sc) (page sc)
    (videos sc) (outbox sc).

Definition setCheckToken (n : nat) (sc : Script) : Script :=
  mkScript (state sc) (lastSignature sc) n (overlayReason sc) (page sc)
    (videos sc) (outbox sc).

Definition setOverlayReason (r : string) (sc : Script) : Script :=
  mkScript (state sc) (lastSignature sc) (checkToken sc) r (page sc)
    (videos sc) (outbox sc).

Definition setPage (w : ScrollLock.Window) (sc : Script) : Script :=
  mkScript (state sc) (lastSignature sc) (checkToken sc) (overlayReason sc) w
    (videos sc) (outbox sc).

Definition setVideos (v : list Video) (sc : Script) : Script :=
  mkScript (state sc) (lastSignature sc) (checkToken sc) (overlayReason sc)
    (page sc) v (outbox sc).

Definition sendMessage (videoId : string) (sc : Script) : Script :=
  mkScript (state sc) (lastSignature sc) (checkToken sc) (overlayReason sc)
    (page sc) (videos sc) (outbox sc ++ [videoId]).

Definition normalizeBoolean (v : Value) : bool :=
  match v with
  | Bool b => b
  | Str s =>
      let normalized := toLowerCase (trim s) in
      if String.eqb normalized "true" then true
      else if String.eqb normalized "false" then false
      else toBoolean v
  | Number z => negb (z =? 0)%Z
  | _ => toBoolean v
  end.

(** [pauseAllVideos]. *)
Definition pauseAllVideos (vs : list Video) : list Video :=
  List.map (fun _ => mkVideo true 0) vs.

(** [ensureOverlay]: whether a node is returned, and the document.  The
    node is found by its identifier, so it is attached when it is found;
    a new node has an empty message. *)
Definition ensureOverlay (w : ScrollLock.Window) : bool * ScrollLock.Window :=
  let overlay := ScrollLock.overlays w !! OVERLAY_ID in
  match ScrollLock.body w, ScrollLock.documentElement w with
  | None, None => (bool_decide (is_Some overlay), w)
  | _, _ =>
      let wasActive := bool_decide (is_Some overlay) in
      let w :=
        if wasActive then w
        else ScrollLock.setOverlays
               (<[OVERLAY_ID := ""]> (ScrollLock.overlays w)) w in
      let w := if wasActive then w else ScrollLock.lockScroll w in
      (true, w)
  end.

(** [applyOverlay]: the title of the node is the fixed text Video
    blocked, its message names the channel. *)
Definition applyOverlay (channelTitle : string) (sc : Script) : Script :=
  let '(overlay, w) := ensureOverlay (page sc) in
  if negb overlay then setPage w sc
  else
    let w :=
      ScrollLock.setOverlays
        (<[OVERLAY_ID := channelTitle +:+ " is on your YouTube block list."]>
           (ScrollLock.overlays w)) w in
    setVideos (pauseAllVideos (videos sc)) (setPage w sc).

Definition clearOverlay (sc : Script) : Script :=
  let overlay := ScrollLock.overlays (page sc) !! OVERLAY_ID in
  let wasActive := bool_decide (is_Some overlay) in
  if wasActive then
    let w :=
      ScrollLock.setOverlays
        (delete OVERLAY_ID (ScrollLock.overlays (page sc))) (page sc) in
    setPage (ScrollLock.unlockScroll w) sc
  else sc.

(** [buildSignature], with the address of the page. *)
Definition buildSignature (href : string) (sc : Script) : string :=
  join "|" [href;
            stringOfBool (extensionEnabled (state sc));
            stringOfNat (length (blockedYouTubeChannels (state sc)))].

Section WithUrlParser.

(** [new URL(s)] and [url.searchParams.get(name)]. *)
Variable parseUrl : string -> option Url.
Variable searchParamsGet : Url -> string -> option string.

Definition getActiveVideoId (href : string) : option string :=
  match parseUrl href with
  | None => None
  | Some parsed =>
      if negb (endsWith (hostname parsed) "youtube.com") then None
      else if String.eqb (pathname parsed) "/watch" then
        match searchParamsGet parsed "v" with
        | Some videoId => if truthy videoId then Some (trim videoId) else None
        | None => None
        end
      else if startsWith (pathname parsed) "/shorts/" then
        match Background.pathSegments (pathname parsed) !! 1%nat with
        | Some seg => if truthy seg then Some (trim seg) else None
        | None => None
        end
      else if startsWith (pathname parsed) "/embed/" then
        match Background.pathSegments (pathname parsed) !! 1%nat with
        | Some seg => if truthy seg then Some (trim seg) else None
        | None => None
        end
      else None
  end.

(** [checkCurrentVideo] up to its [await]: the token of the suspended
    call when a message was sent, and the script. *)
Definition checkCurrentVideo (href : string) (sc : Script)
  : option nat * Script :=
  let videoId := getActiveVideoId href in
  match videoId with
  | Some videoId =>
      if negb (truthy videoId) || negb (extensionEnabled (state sc)) then
        (None, clearOverlay (setOverlayReason "" sc))
      else
        let currentToken := S (checkToken sc) in
        (Some currentToken,
         sendMessage videoId (setCheckToken currentToken sc))
  | None => (None, clearOverlay (setOverlayReason "" sc))
  end.

(** [checkCurrentVideo] from its [await] on, when the worker has
    answered; [None] is an answer that is not an object. *)
Definition checkCurrentVideoResumed (currentToken : nat)
  (response : option Listeners.Response) (sc : Script) : Script :=
  if negb (Nat.eqb currentToken (checkToken sc)) then sc
  else
    let clear :=
      if truthy (overlayReason sc)
      then clearOverlay (setOverlayReason "" sc)
      else sc in
    match response with
    | None => clear
    | Some response =>
        if Listeners.responseAllowed response
           || negb match Listeners.responseReason response with
                   | Some Background.channel_blocked => true
                   | _ => false
                   end
        then clear
        else
          let channelTitle :=
            match Listeners.responseChannelTitle response with
            | Some t => if truthy t then t else "Blocked channel"
            | None => "Blocked channel"
            end in
          applyOverlay channelTitle
            (setOverlayReason ("blocked:" +:+ channelTitle) sc)
    end.

Definition queueCheck (force : bool) (href : string) (sc : Script)
  : option nat * Script :=
  let signature := buildSignature href sc in
  if negb force && String.eqb signature (lastSignature sc) then (None, sc)
  else checkCurrentVideo href (setLastSignature signature sc).

(** The [changes] of a storage event: for each of the two keys, its new
    value when the key has changed; for the list, the new value when it
    is an array. *)
Record Changes := mkChanges {
  changedExtensionEnabled : option Value;
  changedBlockedYouTubeChannels : option (option (list string))
}.

Definition handleStorageChange (changes : Changes) (areaName href : string)
  (sc : Script) : option nat * Script :=
  if negb (String.eqb areaName "sync") then (None, sc)
  else
    let shouldRecheck := false in
    let '(sc, shouldRecheck) :=
      match changedExtensionEnabled changes with
      | Some newValue =>
          (setState
             (mkState (normalizeBoolean newValue)
                (blockedYouTubeChannels (state sc))) sc, true)
      | None => (sc, shouldRecheck)
      end in
    let '(sc, shouldRecheck) :=
      match changedBlockedYouTubeChannels changes with
      | Some newValue =>
          (setState
             (mkState (extensionEnabled (state sc))
                (match newValue with
                 | Some channels => channels
                 | None => []
                 end)) sc, true)
      | None => (sc, shouldRecheck)
      end in
    if shouldRecheck then queueCheck true href sc else (None, sc).

(** The listener of [yt-navigate-start]. *)
Definition onNavigateStart (sc : Script) : Script :=
  clearOverlay (setOverlayReason "" sc).

End WithUrlParser.

End YouTubeContent.

(** ** The first start of the background worker
    ([src/unnamed/part_000], [initializeState]) *)

Module Install.
Import Js.

(** A value kept in the synchronised storage.  Numbers are taken to be
    integers and arrays to hold strings. *)
Inductive Json :=
| JNull
| JBool (b : bool)
| JNumber (z : Z)
| JString (s : string)
| JArray (items : list string)
| JObject.

(** The value as the functions on loosely typed values see it. *)
Definition toValue (j : Json) : Value :=
  match j with
  | JNull => Null
  | JBool b => Bool b
  | JNumber z => Number z
  | JString s => Str s
  | JArray _ | JObject => Object
  end.

Definition isArray (j : Json) : bool :=
  match j with
  | JArray _ => true
  | _ => false
  end.

Definition isBoolean (j : Json) : bool :=
  match j with
  | JBool _ => true
  | _ => false
  end.

(** [ensureArray] on a property that may be missing. *)
Definition ensureArray (j : option Json) : list string :=
  match j with
  | Some (JArray items) => items
  | _ => []
  end.

(** Truthiness of a property that may be missing. *)
Definition truthyProperty (j : option Json) : bool :=
  match j with
  | Some v => toBoolean (toValue v)
  | None => false
  end.

Definition Storage : Type := gmap string Json.

Definition DEFAULT_STATE : list (string * Json) :=
  [("blockedHosts", JArray []);
   ("allowedSubreddits", JArray []);
   ("blockReddit", JBool false);
   ("extensionEnabled", JBool true);
   ("blockedYouTubeChannels", JArray [])].

(** [chrome.storage.sync.get(defaults)]: an object with the keys of
    [defaults], each with its stored value or else its default. *)
Definition storageGet (defaults : list (string * Json)) (s : Storage)
  : gmap string Json :=
  list_to_map ((fun kd => (fst kd, default (snd kd) (s !! fst kd))) <$> defaults).

(** [chrome.storage.sync.set(items)] and [remove(keys)]; both are taken
    to succeed. *)
Definition storageSet (items : gmap string Json) (s : Storage) : Storage :=
  items ∪ s.

Definition storageRemove (keys : list string) (s : Storage) : Storage :=
  foldr delete s keys.

Definition initializeState (s : Storage) : Storage :=
  let stored := storageGet DEFAULT_STATE s in
  let updates : gmap string Json :=
    fold_left
      (fun updates kd =>
         match stored !! fst kd with
         | None => <[fst kd := snd kd]> updates
         | Some _ => updates
         end)
      DEFAULT_STATE ∅ in
  let updates :=
    match stored !! "blockedYouTubeChannels" with
    | Some v =>
        if negb (isArray v)
        then <["blockedYouTubeChannels" := JArray (ensureArray (Some v))]> updates
        else updates
    | None => updates
    end in
  let s := if (0 <? size updates)%nat then storageSet updates s else s in
  let s :=
    match stored !! "blockReddit" with
    | Some v =>
        if negb (isBoolean v)
        then storageSet
               {["blockReddit" :=
                   JBool (Background.normalizeBoolean (toValue v))]} s
        else s
    | None => s
    end in
  let s :=
    match stored !! "extensionEnabled" with
    | Some v =>
        if negb (isBoolean v)
        then storageSet
               {["extensionEnabled" :=
                   JBool (Background.normalizeBoolean (toValue v))]} s
        else s
    | None => s
    end in
  let s :=
    if bool_decide (is_Some (stored !! "blockedChannels")) then
      let legacyChannels := ensureArray (stored !! "blockedChannels") in
      let s :=
        if negb (truthyProperty (stored !! "blockedYouTubeChannels"))
           && (0 <? length legacyChannels)%nat
        then storageSet {["blockedYouTubeChannels" := JArray legacyChannels]} s
        else s in
      storageRemove ["blockedChannels"] s
    else s in
  let s :=
    if bool_decide (is_Some (stored !! "youtubeApiKey"))
    then storageRemove ["youtubeApiKey"] s
    else s in
  let legacyKeys := ["blockedSubreddits"; "blockRedditHomepage"] in
  let keysToRemove :=
    List.filter (fun key => bool_decide (is_Some (stored !! key))) legacyKeys in
  if (0 <? length keysToRemove)%nat then storageRemove keysToRemove s else s.

End Install.

(** ** Start and storage events of the Reddit content script
    ([src/extension/reddit_content_script.js]) *)

Module RedditEvents.
Import Js RedditContent.

Definition normalizeBoolean (v : Value) : bool :=
  match v with
  | Bool b => b
  | Str s =>
      let normalized := toLowerCase (trim s) in
      if String.eqb normalized "true" then true
      else if String.eqb normalized "false" then false
      else toBoolean v
  | Number z => negb (z =? 0)%Z
  | _ => toBoolean v
  end.

(** [ensureArray] on a value that is an array of strings or is not an
    array. *)
Definition ensureArray (v : option (list string)) : list string :=
  match v with
  | Some arr => arr
  | None => []
  end.

Definition setState (s : State) (sc : Script) : Script :=
  mkScript s (allowedSet sc) (listsVersion sc) (lastDecisionKey sc)
    (currentOverlayReason sc) (overlay sc).

(** What [chrome.storage.sync.get(DEFAULT_STATE)] gives for the three
    keys of the script. *)
Record Stored := mkStored {
  storedAllowedSubreddits : option (list string);
  storedBlockReddit : Value;
  storedExtensionEnabled : Value
}.

(** [hydrateState]; [None] when the storage cannot be read.  The list
    is passed through [ensureArray] here, as [rebuildSets], its only
    reader, does. *)
Definition hydrateState (stored : option Stored) (sc : Script) : Script :=
  let sc :=
    match stored with
    | Some stored =>
        setState
          (mkState (ensureArray (storedAllowedSubreddits stored))
             (normalizeBoolean (storedBlockReddit stored))
             (normalizeBoolean (storedExtensionEnabled stored))) sc
    | None => setState DEFAULT_STATE sc
    end in
  rebuildSets sc.

(** The [changes] of a storage event: for each of the three keys, its
    new value when the key has changed. *)
Record Changes := mkChanges {
  changedAllowedSubreddits : option (option (list string));
  changedBlockReddit : option Value;
  changedExtensionEnabled : option Value
}.

Definition onStorageChanged (changes : Changes) (areaName : string)
  (location : Url) (sc : Script) : Script :=
  if negb (String.eqb areaName "sync") then sc
  else
    let sc :=
      match changedAllowedSubreddits changes with
      | Some newValue =>
          rebuildSets
            (setState
               (mkState (ensureArray newValue) (blockReddit (state sc))
                  (extensionEnabled (state sc))) sc)
      | None => sc
      end in
    let sc :=
      match changedBlockReddit changes with
      | Some newValue =>
          setState
            (mkState (allowedSubreddits (state sc))
               (normalizeBoolean newValue) (extensionEnabled (state sc))) sc
      | None => sc
      end in
    let sc :=
      match changedExtensionEnabled changes with
      | Some newValue =>
          setState
            (mkState (allowedSubreddits (state sc)) (blockReddit (state sc))
               (normalizeBoolean newValue)) sc
      | None => sc
      end in
    checkLocation true location sc.

(** The script as its module is evaluated, and [init] up to the start
    of the timer. *)
Definition initialScript : Script :=
  mkScript DEFAULT_STATE ∅ 0 "" "" None.

Definition init (stored : option Stored) (location : Url) : Script :=
  checkLocation true location (hydrateState stored initialScript).

End RedditEvents.

(** * Vocabulary of the statements *)

Section RuleVocabulary.
Import Js Background.

(** The block rule of the host at position [i], the allow rule of the
    subreddit at position [i], and the block rule of the whole Reddit
    domain, with the numbers that the specification gives. *)
Definition hostRule (i : nat) (host : string) : Rule :=
  mkRule (10000 + Z.of_nat i) 1 block
    (mkCondition ("||" +:+ host) ["main_frame"]).

Definition allowRule (i : nat) (name : string) : Rule :=
  mkRule (30000 + Z.of_nat i) 100 allow
    (mkCondition ("||reddit.com/r/" +:+ name) ["main_frame"]).

Definition redditRule : Rule :=
  mkRule 20000 1 block (mkCondition "||reddit.com^" ["main_frame"]).

(** The distinct normal forms of the configured hosts and of the allowed
    subreddits, in the order of their first occurrence. *)
Definition distinctHosts (state : State) : list string :=
  filterIdx firstOccurrence
    (List.map (fun host => toLowerCase (trim host))
       (List.filter truthy (blockedHosts state))).

Definition distinctSubreddits (state : State) : list string :=
  filterIdx firstOccurrence
    (List.map normalizeSubreddit
       (List.filter truthy (allowedSubreddits state))).

End RuleVocabulary.

Section SwitchVocabulary.
Import Js Background.
Variable parseUrl : string -> option Url.

(** The site overlay is attached to the document of the tab. *)
Definition hasSiteOverlay (tab : Tab) : bool :=
  match tabWindow tab with
  | Some w => bool_decide (is_Some (ScrollLock.overlays w !! SITE_OVERLAY_ID))
  | None => false
  end.

(** An open tab with an identifier and an http or https address that the
    URL parser accepts. *)
Definition openHttpDocument (tab : Tab) : Prop :=
  exists (i : Z) (url : string) (u : Url),
    tabId tab = Some i /\ i <> 0%Z /\ tabUrl tab = Some url
    /\ isHttpUrl url = true /\ parseUrl url = Some u /\ hostname u <> "".

End SwitchVocabulary.

Section LockVocabulary.
Import ScrollLock.

(** A lock state with another count, and the styles of the root element
    and of the body while the lock is held. *)
Definition withCount (c : Z) (st : LockState) : LockState :=
  mkLockState c (prevDocOverflow st) (prevDocOverscroll st)
    (prevBodyOverflow st) (prevBodyTouchAction st).

Definition lockedDoc (d : Style) : Style :=
  mkStyle "hidden" "none" (touchAction d).

Definition lockedBody (b : Style) : Style :=
  mkStyle "hidden" (overscrollBehavior b) "none".

End LockVocabulary.

Section DecisionVocabulary.
Import Js Background.

(** Equality of two strings up to case. *)
Definition equalIgnoringCase (a b : string) : Prop :=
  toLowerCase a = toLowerCase b.

(** A handle without its leading [@]. *)
Definition stripAt (h : string) : string :=
  match stripPrefix "@" h with
  | Some r => r
  | None => h
  end.

(** A match of an entry as the specification words it: the value against
    the field of the owner that the type of the entry selects. *)
Definition matchesAsStated (info : VideoInfo) (channelHandle : string)
  (e : Entry) : Prop :=
  match type e with
  | TypeId => equalIgnoringCase (value e) (channelId info)
  | TypeName => equalIgnoringCase (value e) (channelTitle info)
  | TypeHandle => equalIgnoringCase (value e) (stripAt channelHandle)
  end.

(** A match as the code decides it: the value of the entry is not empty,
    and a handle entry needs a resolved handle that is not empty. *)
Definition matchesEntry (info : VideoInfo) (channelHandle : string)
  (e : Entry) : Prop :=
  value e <> "" /\
  match type e with
  | TypeId => equalIgnoringCase (value e) (channelId info)
  | TypeName => equalIgnoringCase (value e) (channelTitle info)
  | TypeHandle =>
      stripAt channelHandle <> ""
      /\ equalIgnoringCase (value e) (stripAt channelHandle)
  end.

(** Entries that the loop does not skip, and entries that are not of
    type handle. *)
Definition liveEntry (o : option Entry) : bool :=
  match o with
  | Some e => truthy (value e)
  | None => false
  end.

Definition notHandleEntry (o : option Entry) : bool :=
  match o with
  | Some e => negb (entryTypeEqb (type e) TypeHandle)
  | None => true
  end.

End DecisionVocabulary.

Section EntryVocabulary.
Import Js Background.

(** The shape that makes an entry an id: the letters u and c in either
    case, then exactly 22 characters, each a letter of A-Z or a-z, a
    digit, an underscore or a hyphen. *)
Definition isChannelIdToken (t : string) : Prop :=
  exists (a b : ascii) (rest : string),
    t = String a (String b rest)
    /\ (a = "u"%char \/ a = "U"%char)
    /\ (b = "c"%char \/ b = "C"%char)
    /\ String.length rest = 22%nat
    /\ Forall
         (fun c =>
            c ∈ list_ascii_of_string
                  "ABCDEFGHIJKLMNOPQRSTUVWXYZabcdefghijklmnopqrstuvwxyz0123456789_-")
         (list_ascii_of_string rest).

(** A path segment: no slash inside. *)
Definition noSlash (seg : string) : Prop :=
  indexOfChar "/"%char seg = None.

(** What may follow a path segment: nothing, or a slash and more. *)
Definition segmentEnd (rest : string) : Prop :=
  rest = "" \/ exists r, rest = String "/"%char r.

End EntryVocabulary.

Section RedditVocabulary.
Import Js RedditContent.

(** What the page shows after a check: nothing, or the overlay for the
    reason whose key is recorded. *)
Inductive Decision :=
| clear
| showing (reasonKey : string).

Definition decisionOf (sc : Script) : Decision :=
  match overlay sc with
  | None => clear
  | Some _ => showing (currentOverlayReason sc)
  end.

(** The path that [checkLocation] passes on, lower-cased as
    [determineBlockReason] does. *)
Definition currentPath (location : Url) : string :=
  toLowerCase (if truthy (pathname location) then pathname location else "/").

(** The fixed paths of the aggregate feeds. *)
Definition feedPaths : list string :=
  ["/"; "/hot"; "/best"; "/new"; "/top"; "/r/all"; "/r/popular"].

(** The test of the host name that opens [checkLocation]. *)
Definition onReddit (location : Url) : Prop :=
  endsWith (toLowerCase (hostname location)) "reddit.com" = true.

(** A page of the site, and a script hydrated with an allow list and the
    two switches, for the examples. *)
Definition redditPage (path : string) : Url :=
  mkUrl ("https://www.reddit.com" +:+ path) "www.reddit.com" path "".

Definition scriptWith (allowed : list string) (block enabled : bool)
  : Script :=
  rebuildSets (mkScript (mkState allowed block enabled) ∅ 0 "" "" None).

End RedditVocabulary.

Section CheckVocabulary.
Import Js Background.
Variable parseUrl : string -> option Url.

(** The requests to the external lookup service. *)
Definition isLookup (r : Request) : bool :=
  match r with
  | VideosRequest _ _ | ChannelsRequest _ _ => true
  | EnvFileRequest => false
  end.

Definition isChannelLookup (r : Request) : bool :=
  match r with
  | ChannelsRequest _ _ => true
  | _ => false
  end.

Definition lookups (w : World) : list Request :=
  List.filter isLookup (requests w).

Definition channelLookups (w : World) : list Request :=
  List.filter isChannelLookup (requests w).

(** The entries that the handler works with. *)
Definition normalizedEntries (w : World) : list Entry :=
  omap (normalizeYouTubeChannelEntry parseUrl)
    (blockedYouTubeChannels (storage w)).

Definition isHandleEntry (e : Entry) : bool :=
  entryTypeEqb (type e) TypeHandle.

End CheckVocabulary.

Section CacheVocabulary.
Import Js Background.
Context {A : Type}.

(** The keys of a map, in insertion order. *)
Definition keys (m : JsMap (Cached A)) : list string := fst <$> m.

(** [x] is not younger than [y]. *)
Definition olderEq (x y : string * Cached A) : Prop :=
  (timestamp (snd x) <= timestamp (snd y))%Z.

End CacheVocabulary.

Section LookupVocabulary.
Import Js Background.

(** The owner that [fetchYouTubeVideoInfo] makes of the first item of a
    response. *)
Definition videoInfoOf (item : option Snippet) : option VideoInfo :=
  match item with
  | Some snippet =>
      Some (mkVideoInfo (trim (snippetChannelId snippet))
              (trim (snippetChannelTitle snippet)))
  | None => None
  end.

Definition channelInfoOf (customUrl : string) : ChannelInfo :=
  mkChannelInfo (if truthy customUrl then toLowerCase (trim customUrl) else "").

(** What a lookup returns or throws for a response. *)
Definition videoOutcome (r : HttpResponse (option Snippet))
  : Result (option VideoInfo) :=
  match r with
  | Rejected => Throw FetchFailed
  | NotOk status text =>
      if (status =? 400)%Z || (status =? 403)%Z
      then Throw (YouTubeApiError status text)
      else Throw (YouTubeRequestFailed status)
  | OkJson item => Ok (videoInfoOf item)
  end.

Definition channelOutcome (r : HttpResponse string)
  : Result (option ChannelInfo) :=
  match r with
  | Rejected => Throw FetchFailed
  | NotOk status text =>
      if (status =? 400)%Z || (status =? 403)%Z
      then Throw (YouTubeChannelApiError status text)
      else Throw (YouTubeChannelRequestFailed status)
  | OkJson customUrl => Ok (Some (channelInfoOf customUrl))
  end.

(** No entry of the cache can answer for the key at the time [t]: there
    is none, or its age has reached the time to live. *)
Definition noFresh {A} (ttl t : Z) (k : string) (c : JsMap (Cached A))
  : Prop :=
  match mapGet k c with
  | Some e => (ttl <= t - timestamp e)%Z
  | None => True
  end.

(** The invariant of the video cache under a clock that does not go
    back: at most the maximum of entries, none stamped in the future. *)
Definition videoCacheInv (w : World) : Prop :=
  (length (youtubeVideoCache w) <= VIDEO_MAX_CACHE_ENTRIES)%nat
  /\ Forall (fun x => (timestamp (snd x) <= now w)%Z) (youtubeVideoCache w).

End LookupVocabulary.

Section Examples.
Import Js Background.

(** A parser for addresses of the form https://host/path, for the
    instances of the theorems. *)
Definition exampleParseUrl (s : string) : option Url :=
  match stripPrefixCI "https://" s with
  | Some rest =>
      let host := takeUntil "/"%char rest in
      if truthy host then
        Some (mkUrl s host
                (String.substring (String.length host) (String.length rest)
                   rest) "")
      else None
  | None => None
  end.

Definition exampleWindow : ScrollLock.Window :=
  ScrollLock.mkWindow None
    (Some (ScrollLock.mkStyle "scroll" "" ""))
    (Some (ScrollLock.mkStyle "auto" "" "pan-y")) ∅ ∅ false.

Definition exampleTab : Tab :=
  mkTab (Some 7%Z) (Some "https://example.com/page")
    (Some (applySiteOverlayInPage "example.com" exampleWindow)).


Definition exampleSnippet : Snippet :=
  mkSnippet "UCabcdefghijklmnopqrstuv" "Example".

Definition exampleWorld : World :=
  mkWorld [] [] None 1000
    (mkState [] [] (Bool false) (Bool true) ["@creator"])
    (fun _ _ _ => (5%N, OkJson (Some exampleSnippet)))
    (fun _ _ _ => (5%N, OkJson "@Creator"))
    None [].

(** The same world with a credential file and a block list that names
    the channel of the example by its id. *)
Definition exampleWorldWithKey : World :=
  mkWorld [] [] None 1000
    (mkState [] [] (Bool false) (Bool true) ["UCabcdefghijklmnopqrstuv"])
    (fun _ _ _ => (5%N, OkJson (Some exampleSnippet)))
    (fun _ _ _ => (5%N, OkJson "@Creator"))
    (Some "# local credential
YOUTUBE_API_KEY='abc'
") [].

End Examples.

Section PageVocabulary.
Import ScrollLock.

(** A document with a root element that carries none of the two
    overlays and on which the lock is free. *)
Definition cleanPage (w : Window) : Prop :=
  lockState w = None
  /\ is_Some (documentElement w)
  /\ listeners w ## lockListeners
  /\ overlays w !! Background.SITE_OVERLAY_ID = None
  /\ overlays w !! YouTubeContent.OVERLAY_ID = None
  /\ siteOverlayFlag w = false.

Definition withOverlay (k : string) (o : option string)
  (m : gmap string string) : gmap string string :=
  match o with
  | Some text => <[k := text]> m
  | None => m
  end.

(** The number of overlays among the two. *)
Definition holders (video site : option string) : nat :=
  (match video with Some _ => 1 | None => 0 end
   + match site with Some _ => 1 | None => 0 end)%nat.

(** The document [w0] when the overlay of the YouTube script and the
    site overlay show the given messages ([None]: not shown): as it was
    when neither is shown; otherwise locked, the lock counting the
    overlays shown and keeping the styles of [w0]. *)
Definition pageWith (video site : option string) (w0 : Window) : Window :=
  match video, site with
  | None, None => w0
  | _, _ =>
      mkWindow
        (Some (mkLockState (Z.of_nat (holders video site))
                 (from_option overflow "" (documentElement w0))
                 (from_option overscrollBehavior "" (documentElement w0))
                 (from_option overflow "" (body w0))
                 (from_option touchAction "" (body w0))))
        (lockedDoc <$> documentElement w0)
        (lockedBody <$> body w0)
        (listeners w0 ∪ lockListeners)
        (withOverlay YouTubeContent.OVERLAY_ID video
           (withOverlay Background.SITE_OVERLAY_ID site (overlays w0)))
        (bool_decide (is_Some site))
  end.

(** The messages of the two overlays. *)
Definition videoMessage (channelTitle : string) : string :=
  channelTitle +:+ " is on your YouTube block list.".

Definition siteMessage (host : string) : string :=
  host +:+ " is blocked by Maxprod.".

End PageVocabulary.

Section YouTubeVocabulary.
Import Js YouTubeContent.

Variable parseUrl : string -> option Url.
Variable searchParamsGet : Url -> string -> option string.

(** What can happen to the script once it is initialised: a tick of its
    timer, the two navigation events of the site, a change of the
    storage, the answer of the worker to the check that holds a token or
    the loss of that answer, and the two functions that the worker
    injects into the document. *)
Inductive Event :=
| Tick (href : string)
| NavigateFinish (href : string)
| NavigateStart
| StorageChanged (changes : Changes) (areaName href : string)
| Answered (token : nat) (response : option Listeners.Response)
| AnswerLost (token : nat)
| SiteOverlayApplied (host : string)
| SiteOverlayRemoved.

Definition handle (sc : Script) (e : Event) : Script :=
  match e with
  | Tick href => snd (queueCheck parseUrl searchParamsGet false href sc)
  | NavigateFinish href => snd (queueCheck parseUrl searchParamsGet true href sc)
  | NavigateStart => onNavigateStart sc
  | StorageChanged changes areaName href =>
      snd (handleStorageChange parseUrl searchParamsGet changes areaName href sc)
  | Answered token response => checkCurrentVideoResumed token response sc
  | AnswerLost _ => sc
  | SiteOverlayApplied host =>
      setPage (Background.applySiteOverlayInPage host (page sc)) sc
  | SiteOverlayRemoved =>
      setPage (Background.removeSiteOverlayInPage (page sc)) sc
  end.

(** The script when its initialisation starts, on a document with some
    video elements. *)
Definition initialScript (st : State) (w : ScrollLock.Window)
  (vs : list Video) : Script :=
  mkScript st "" 0 "" w vs [].

(** The channel title that the overlay shows for an answer. *)
Definition shownTitle (response : Listeners.Response) : string :=
  match Listeners.responseChannelTitle response with
  | Some t => if truthy t then t else "Blocked channel"
  | None => "Blocked channel"
  end.

(** An answer that refuses the video. *)
Definition refuses (response : option Listeners.Response) : bool :=
  match response with
  | Some r =>
      negb (Listeners.responseAllowed r)
      && match Listeners.responseReason r with
         | Some Background.channel_blocked => true
         | _ => false
         end
  | None => false
  end.

End YouTubeVocabulary.

Section YouTubeInvariant.
Import Js YouTubeContent.

(** The script and its document agree: the overlay of the script shows
    the channel named by [overlayReason], or is absent when that reason
    is empty; the document is [w0] with the overlays that are shown;
    every message sent took a fresh token and carries a video identifier
    that is trimmed and not empty. *)
Definition inSync (w0 : ScrollLock.Window) (sc : Script) : Prop :=
  exists video site : option string,
    page sc = pageWith (videoMessage <$> video) site w0
    /\ overlayReason sc = match video with
                          | Some channelTitle => "blocked:" +:+ channelTitle
                          | None => ""
                          end
    /\ checkToken sc = length (outbox sc)
    /\ Forall (fun videoId => videoId <> "" /\ trim videoId = videoId)
         (outbox sc).

End YouTubeInvariant.

Section EnvVocabulary.
Import Js Background.

Definition lineFeed : ascii := ascii_of_nat 10.

Definition newline : string := String lineFeed EmptyString.

(** A text without line feed. *)
Definition singleLine (s : string) : Prop := indexOfChar lineFeed s = None.

(** A value without the pair of quotes or of apostrophes around it. *)
Definition unquote (v : string) : string :=
  if (startsWith v quote && endsWith v quote)
     || (startsWith v apostrophe && endsWith v apostrophe)
  then slice1m1 v else v.

(** The key that a line of the credential file assigns: none for a
    blank line, for a comment, for a line without an equals sign and
    for an empty key. *)
Definition assignedKey (line : string) : option string :=
  let line := trim line in
  if truthy line && negb (startsWith line "#") then
    match indexOfChar "="%char line with
    | Some eqIndex =>
        let key := trim (String.substring 0 eqIndex line) in
        if truthy key then Some key else None
    | None => None
    end
  else None.

End EnvVocabulary.

Section RedditEventVocabulary.
Import Js RedditContent RedditEvents.

(** The settings of the script after a change of the storage. *)
Definition stateAfter (changes : Changes) (st : State) : State :=
  mkState
    (match changedAllowedSubreddits changes with
     | Some newValue => ensureArray newValue
     | None => allowedSubreddits st
     end)
    (match changedBlockReddit changes with
     | Some newValue => normalizeBoolean newValue
     | None => blockReddit st
     end)
    (match changedExtensionEnabled changes with
     | Some newValue => normalizeBoolean newValue
     | None => extensionEnabled st
     end).

(** The allow set is the one that [rebuildSets] makes of the list. *)
Definition setMatchesList (sc : Script) : Prop :=
  allowedSet sc = allowedSet (rebuildSets sc).

End RedditEventVocabulary.

Section RedditTraceVocabulary.
Import Js RedditContent RedditEvents.

(** [window.location] of the page at an address. *)
Variable locationOf : string -> Url.

(** What happens to the script after its start: a tick of its timer or
    an event of the storage, at the address that the page has then. *)
Inductive RedditEvent :=
| TimerTick (href : string)
| StorageEvent (changes : Changes) (areaName href : string).

Definition handleReddit (sc : Script) (e : RedditEvent) : Script :=
  match e with
  | TimerTick href => checkLocation false (locationOf href) sc
  | StorageEvent changes areaName href =>
      onStorageChanged changes areaName (locationOf href) sc
  end.

(** The key under which [checkLocation] records a decision. *)
Definition decisionKey (location : Url) (sc : Script) : string :=
  join "|" [href location;
            stringOfBool (extensionEnabled (state sc));
            stringOfBool (blockReddit (state sc));
            stringOfNat (listsVersion sc)].

(** The recorded decision is the one to take wherever its key is the
    current one. *)
Definition upToDate (sc : Script) : Prop :=
  forall h,
    lastDecisionKey sc = decisionKey (locationOf h) sc ->
    decisionOf sc = decisionOf (checkLocation true (locationOf h) sc).

End RedditTraceVocabulary.

Section MoreExamples.
Import Js.

(** A parameter v for every address, and the location of a page at an
    address of the form https://host/path, for the instances of the
    theorems. *)
Definition exampleSearchParamsGet (u : Url) (name : string) : option string :=
  if String.eqb name "v" then Some " dQw4w9WgXcQ" else None.

Definition exampleLocationOf (h : string) : Url :=
  match exampleParseUrl h with
  | Some u => u
  | None => mkUrl h "" "" ""
  end.

(** An answer of the worker that refuses a video, and a day of a page
    of the video site. *)
Definition exampleRefusal : Listeners.Response :=
  Listeners.mkResponse false (Some Background.channel_blocked)
    (Some "UCabcdefghijklmnopqrstuv") (Some "Example") None.

(** A world whose videos endpoint refuses every request. *)
Definition exampleFailingWorld : Background.World :=
  Background.mkWorld [] [] None 1000
    (Background.mkState [] [] (Bool false) (Bool true) ["@creator"])
    (fun _ _ _ => (5%N, Background.NotOk 403 "quotaExceeded"))
    (fun _ _ _ => (5%N, Background.Rejected))
    None [].

Definition exampleEvents : list Event :=
  [NavigateFinish "https://www.youtube.com/watch";
   Answered 1 (Some exampleRefusal);
   SiteOverlayApplied "youtube.com";
   Tick "https://www.youtube.com/watch";
   NavigateStart].

End MoreExamples.

(** * Properties *)

(** ** Facts about the primitives *)

Section JsFacts.
Import Js.

Lemma truthy_true (s : string) : truthy s = true <-> s <> "".
Proof.
  unfold truthy. rewrite negb_true_iff. apply String.eqb_neq.
Qed.

Lemma truthy_false (s : string) : truthy s = false <-> s = "".
Proof.
  unfold truthy. rewrite negb_false_iff. apply String.eqb_eq.
Qed.

Lemma lowerChar_idem (c : ascii) : lowerChar (lowerChar c) = lowerChar c.
Proof. destruct c as [[] [] [] [] [] [] [] []]; reflexivity. Qed.

Lemma toLowerCase_idem (s : string) :
  toLowerCase (toLowerCase s) = toLowerCase s.
Proof.
  induction s as [|c s IH]; simpl; [reflexivity|].
  now rewrite lowerChar_idem, IH.
Qed.

Lemma toLowerCase_empty (s : string) : toLowerCase s = "" <-> s = "".
Proof. destruct s; simpl; split; congruence. Qed.

Lemma append_nil_l (t : string) : "" +:+ t = t.
Proof. reflexivity. Qed.

Lemma append_cons (c : ascii) (s t : string) :
  String c s +:+ t = String c (s +:+ t).
Proof. reflexivity. Qed.

Lemma append_empty_r (s : string) : s +:+ "" = s.
Proof.
  induction s as [|c s IH]; [reflexivity|]. now rewrite append_cons, IH.
Qed.

Lemma append_assoc (s t u : string) : (s +:+ t) +:+ u = s +:+ t +:+ u.
Proof.
  induction s as [|c s IH]; [reflexivity|].
  now rewrite !append_cons, IH.
Qed.

Lemma toLowerCase_app (s t : string) :
  toLowerCase (s +:+ t) = toLowerCase s +:+ toLowerCase t.
Proof.
  induction s as [|c s IH]; [reflexivity|].
  rewrite append_cons. simpl. now rewrite IH, append_cons.
Qed.

(** [endsWith] is the suffix test. *)
Lemma endsWith_iff (s t : string) :
  endsWith s t = true <-> exists p, s = p +:+ t.
Proof.
  induction s as [|c s IH]; cbn [endsWith].
  - rewrite orb_false_r, String.eqb_eq. split.
    + intros <-. now exists "".
    + intros [[|d p] H]; [now rewrite append_nil_l in H|].
      rewrite append_cons in H. discriminate.
  - rewrite orb_true_iff, String.eqb_eq, IH. split.
    + intros [<- | [p ->]]; [now exists "" | now exists (String c p)].
    + intros [[|d p] H]; [now left | right].
      rewrite append_cons in H. injection H as _ ->. now exists p.
Qed.

Lemma stripPrefix_Some (p s r : string) :
  stripPrefix p s = Some r <-> s = p +:+ r.
Proof.
  revert s. induction p as [|a p IH]; intros s; simpl.
  - rewrite append_nil_l. split; [now intros [= ->] | now intros ->].
  - rewrite append_cons. destruct s as [|b s]; [split; discriminate|].
    destruct (Ascii.eqb_spec a b) as [<- | Hne].
    + rewrite IH. split; [now intros -> | now intros [= ->]].
    + split; [discriminate | intros [= ? ?]; congruence].
Qed.

Lemma indexOf_app_fresh (pre r : list string) (x : string) :
  x ∉ pre -> indexOf (pre ++ x :: r) x = Some (length pre).
Proof.
  induction pre as [|y pre IH]; simpl; intros Hx.
  - now rewrite String.eqb_refl.
  - apply not_elem_of_cons in Hx as [Hne Hx].
    destruct (String.eqb_spec y x) as [-> | _]; [contradiction|].
    now rewrite (IH Hx).
Qed.

Lemma indexOf_app_seen (pre r : list string) (x : string) (j : nat) :
  x ∈ pre -> indexOf (pre ++ r) x = Some j -> (j < length pre)%nat.
Proof.
  revert j. induction pre as [|y pre IH]; simpl; intros j Hx.
  - now apply elem_of_nil in Hx.
  - destruct (String.eqb_spec y x) as [-> | Hne].
    + intros [= <-]. lia.
    + apply elem_of_cons in Hx as [-> | Hx]; [contradiction|].
      destruct (indexOf (pre ++ r) x) as [i|] eqn:E; simpl; [|discriminate].
      intros [= <-]. specialize (IH i Hx eq_refl). lia.
Qed.

(** The callback of the de-duplicating [filter] keeps an element exactly
    at its first occurrence, when it is not empty. *)
Lemma firstOccurrence_iff (pre r : list string) (x : string) :
  Background.firstOccurrence x (length pre) (pre ++ x :: r) = true
  <-> x <> "" /\ x ∉ pre.
Proof.
  unfold Background.firstOccurrence.
  rewrite andb_true_iff, truthy_true.
  destruct (decide (x ∈ pre)) as [Hin | Hout].
  - split; [|tauto]. intros [_ H].
    destruct (indexOf (pre ++ x :: r) x) as [j|] eqn:E; [|discriminate].
    apply Nat.eqb_eq in H. subst j.
    apply (indexOf_app_seen _ _ _ _ Hin) in E. lia.
  - rewrite (indexOf_app_fresh _ _ _ Hout), Nat.eqb_refl. tauto.
Qed.

Lemma filterIdxFrom_first_elem (pre suf : list string) (x : string) :
  x ∈ filterIdxFrom
        (fun y i => Background.firstOccurrence y i (pre ++ suf))
        (length pre) suf
  <-> x <> "" /\ x ∈ suf /\ x ∉ pre.
Proof.
  revert pre. induction suf as [|y suf IH]; intros pre; simpl.
  - rewrite !elem_of_nil. tauto.
  - specialize (IH (pre ++ [y])).
    rewrite length_app, <- app_assoc in IH. simpl in IH.
    replace (length pre + 1)%nat with (S (length pre)) in IH by lia.
    destruct (Background.firstOccurrence y (length pre) (pre ++ y :: suf))
      eqn:E.
    + apply firstOccurrence_iff in E as [Hy Hpre].
      rewrite !elem_of_cons, IH, not_elem_of_app, list_elem_of_singleton.
      split.
      * intros [-> | (? & ? & ? & ?)]; tauto.
      * intros (? & [-> | ?] & ?); [now left|].
        destruct (decide (x = y)) as [-> | ?]; [now left | right; tauto].
    + rewrite IH, elem_of_cons, not_elem_of_app, list_elem_of_singleton.
      split; [tauto|]. intros (Hx & [-> | Hin] & Hpre).
      * assert (Background.firstOccurrence y (length pre) (pre ++ y :: suf)
                = true) by (apply firstOccurrence_iff; tauto).
        congruence.
      * destruct (decide (x = y)) as [-> | ?]; [|tauto].
        assert (Background.firstOccurrence y (length pre) (pre ++ y :: suf)
                = true) by (apply firstOccurrence_iff; tauto).
        congruence.
Qed.

Lemma filterIdxFrom_first_NoDup (pre suf : list string) :
  NoDup (filterIdxFrom
           (fun y i => Background.firstOccurrence y i (pre ++ suf))
           (length pre) suf).
Proof.
  revert pre. induction suf as [|y suf IH]; intros pre; simpl.
  - constructor.
  - pose proof (IH (pre ++ [y])) as IH'.
    pose proof (filterIdxFrom_first_elem (pre ++ [y]) suf y) as Hy.
    rewrite length_app, <- app_assoc in IH', Hy. simpl in IH', Hy.
    replace (length pre + 1)%nat with (S (length pre)) in IH', Hy by lia.
    destruct (Background.firstOccurrence y (length pre) (pre ++ y :: suf));
      [|exact IH'].
    constructor; [|exact IH'].
    rewrite Hy, not_elem_of_app, list_elem_of_singleton. tauto.
Qed.

(** The de-duplicating [filter] of the two rule builders. *)
Lemma filterIdx_first_elem (arr : list string) (x : string) :
  x ∈ filterIdx Background.firstOccurrence arr <-> x <> "" /\ x ∈ arr.
Proof.
  unfold filterIdx.
  rewrite (filterIdxFrom_first_elem [] arr x), elem_of_nil. tauto.
Qed.

Lemma filterIdx_first_NoDup (arr : list string) :
  NoDup (filterIdx Background.firstOccurrence arr).
Proof. apply (filterIdxFrom_first_NoDup [] arr). Qed.

Lemma mapIdxFrom_imap {B} (f : string -> nat -> B) (k : nat)
  (l : list string) :
  mapIdxFrom f k l = imap (fun i x => f x (k + i)%nat) l.
Proof.
  revert k. induction l as [|x l IH]; intros k; simpl; [reflexivity|].
  rewrite Nat.add_0_r, IH. f_equal.
  apply imap_ext. intros i y _. simpl. f_equal. lia.
Qed.

End JsFacts.

(** ** Host blocking in open tabs *)

Section HostBlocking.
Import Js Background.

Lemma elem_of_List_filter {A} (f : A -> bool) (l : list A) (x : A) :
  x ∈ List.filter f l <-> x ∈ l /\ f x = true.
Proof. rewrite !list_elem_of_In. apply filter_In. Qed.

Lemma elem_of_List_map {A B} (f : A -> B) (l : list A) (y : B) :
  y ∈ List.map f l <-> exists x, f x = y /\ x ∈ l.
Proof.
  rewrite list_elem_of_In, in_map_iff.
  split; intros (x & H1 & H2); exists x; split; auto;
    now apply list_elem_of_In.
Qed.

Lemma normalizeHostForMatching_unfold (h : string) :
  normalizeHostForMatching h =
  match stripPrefix "www." (toLowerCase (trim h)) with
  | Some r => r
  | None => toLowerCase (trim h)
  end.
Proof.
  unfold normalizeHostForMatching.
  destruct (truthy h) eqn:E; [reflexivity|].
  apply truthy_false in E. subst h. reflexivity.
Qed.

(** The set built by [enforceOpenTabs] holds the normal forms of the
    configured hosts, the empty ones left out. *)
Lemma elem_of_blockedHostSetOf (hosts : list string) (entry : string) :
  entry ∈ blockedHostSetOf hosts
  <-> entry <> "" /\
      exists raw, raw ∈ hosts /\ entry = normalizeHostForMatching raw.
Proof.
  unfold blockedHostSetOf.
  rewrite elem_of_list_to_set, elem_of_List_filter, elem_of_List_map,
    truthy_true.
  split.
  - intros [(raw & <- & Hraw) Hne]. split; [exact Hne|].
    apply elem_of_List_filter in Hraw as [Hraw _]. now exists raw.
  - intros (Hne & raw & Hraw & ->). split; [|exact Hne].
    exists raw. split; [reflexivity|].
    apply elem_of_List_filter. split; [exact Hraw|].
    apply truthy_true. intros ->. now apply Hne.
Qed.

Lemma isHostBlocked_empty (x : string) : isHostBlocked x ∅ = false.
Proof.
  unfold isHostBlocked. rewrite size_empty. simpl.
  now rewrite orb_true_r.
Qed.

Lemma isHostBlocked_iff (x : string) (S : gset string) :
  "" ∉ S ->
  isHostBlocked x S = true
  <-> exists entry, entry ∈ S /\
        (normalizeHostForMatching x = entry \/
         exists p, normalizeHostForMatching x = p +:+ "." +:+ entry).
Proof.
  intros Hne. unfold isHostBlocked.
  assert (Hmatch :
    existsb (fun blocked =>
               String.eqb (normalizeHostForMatching x) blocked
               || endsWith (normalizeHostForMatching x) ("." +:+ blocked))
      (elements S) = true
    <-> exists entry, entry ∈ S /\
          (normalizeHostForMatching x = entry \/
           exists p, normalizeHostForMatching x = p +:+ "." +:+ entry)).
  { rewrite existsb_exists. split.
    - intros (e & Hin & H). exists e.
      apply list_elem_of_In, elem_of_elements in Hin. split; [exact Hin|].
      apply orb_true_iff in H as [H | H].
      + left. now apply String.eqb_eq.
      + right. now apply endsWith_iff.
    - intros (e & Hin & H). exists e. split.
      + now apply list_elem_of_In, elem_of_elements.
      + apply orb_true_iff. destruct H as [H | H].
        * left. now apply String.eqb_eq.
        * right. now apply endsWith_iff. }
  assert (Hempty : normalizeHostForMatching x = "" ->
    ~ exists entry, entry ∈ S /\
        (normalizeHostForMatching x = entry \/
         exists p, normalizeHostForMatching x = p +:+ "." +:+ entry)).
  { intros E (e & Hin & [H | [p H]]); rewrite E in H.
    - subst e. contradiction.
    - destruct p; [rewrite append_nil_l in H | rewrite append_cons in H];
        discriminate. }
  destruct (truthy x) eqn:Hx; simpl.
  - destruct (Nat.eqb_spec (size S) 0) as [Hs | Hs].
    + apply size_empty_inv in Hs. split; [discriminate|].
      intros (e & Hin & _). now apply Hs in Hin.
    + destruct (truthy (normalizeHostForMatching x)) eqn:Hn; simpl.
      * exact Hmatch.
      * apply truthy_false in Hn. split; [discriminate|].
        intros H. now apply Hempty in H.
  - apply truthy_false in Hx. subst x. split; [discriminate|].
    intros H. now apply (Hempty eq_refl) in H.
Qed.

(** C3. For every list of configured hosts and every tested hostname,
    [isHostBlocked] answers true exactly when the hostname, trimmed,
    lower-cased and without a leading "www.", equals an entry of the
    blocked-host set or ends with a dot followed by that entry, the
    entries being the configured hosts normalised in the same way; so
    sub.a.com is blocked for the entry a.com and notaa.com is not, and
    nothing is blocked when the set is empty. *)
Theorem isHostBlocked_suffix_match (hosts : list string) (x : string) :
  (isHostBlocked x (blockedHostSetOf hosts) = true
   <-> exists entry, entry ∈ blockedHostSetOf hosts /\
         (normalizeHostForMatching x = entry \/
          exists p, normalizeHostForMatching x = p +:+ "." +:+ entry))
  /\ (forall entry, entry ∈ blockedHostSetOf hosts
        <-> entry <> "" /\
            exists raw, raw ∈ hosts /\ entry = normalizeHostForMatching raw)
  /\ (forall h, normalizeHostForMatching h =
                match stripPrefix "www." (toLowerCase (trim h)) with
                | Some r => r
                | None => toLowerCase (trim h)
                end)
  /\ isHostBlocked "sub.a.com" (blockedHostSetOf ["a.com"]) = true
  /\ isHostBlocked "notaa.com" (blockedHostSetOf ["a.com"]) = false
  /\ isHostBlocked x ∅ = false.
Proof.
  split; [|split; [|split; [|split; [|split]]]].
  - apply isHostBlocked_iff.
    rewrite elem_of_blockedHostSetOf. now intros [H _].
  - apply elem_of_blockedHostSetOf.
  - apply normalizeHostForMatching_unfold.
  - vm_compute. reflexivity.
  - vm_compute. reflexivity.
  - apply isHostBlocked_empty.
Qed.

End HostBlocking.

(** ** Rule compilation *)

Section RuleCompilation.
Import Js Background.

Variable parseUrl : string -> option Url.

Lemma remove_all_rules (ids : list Z) (l : list Rule) :
  (forall r, r ∈ l -> id r ∈ ids) ->
  List.filter (fun r => negb (existsb (Z.eqb (id r)) ids)) l = [].
Proof.
  induction l as [|r l IH]; intros H; simpl; [reflexivity|].
  assert (E : existsb (Z.eqb (id r)) ids = true).
  { apply existsb_exists. exists (id r). split; [|apply Z.eqb_refl].
    apply list_elem_of_In, H. now left. }
  rewrite E. simpl. apply IH. intros r' Hr'. apply H. now right.
Qed.

(** Every installed rule is removed by a recompilation. *)
Lemma updateDynamicRules_replaces (rules existing : list Rule) :
  updateDynamicRules (List.map id existing) rules existing = rules.
Proof.
  unfold updateDynamicRules. rewrite remove_all_rules; [reflexivity|].
  intros r Hr. apply elem_of_List_map. now exists r.
Qed.

Lemma distinctHosts_elem (state : State) (h : string) :
  h ∈ distinctHosts state
  <-> h <> "" /\
      exists raw, raw ∈ blockedHosts state /\ h = toLowerCase (trim raw).
Proof.
  unfold distinctHosts.
  rewrite filterIdx_first_elem, elem_of_List_map. split.
  - intros (Hne & raw & <- & Hraw). split; [exact Hne|].
    apply elem_of_List_filter in Hraw as [Hraw _]. now exists raw.
  - intros (Hne & raw & Hraw & ->). split; [exact Hne|].
    exists raw. split; [reflexivity|].
    apply elem_of_List_filter. split; [exact Hraw|].
    apply truthy_true. intros ->. now apply Hne.
Qed.

Lemma distinctSubreddits_elem (state : State) (s : string) :
  s ∈ distinctSubreddits state
  <-> s <> "" /\
      exists raw, raw ∈ allowedSubreddits state /\ s = normalizeSubreddit raw.
Proof.
  unfold distinctSubreddits.
  rewrite filterIdx_first_elem, elem_of_List_map. split.
  - intros (Hne & raw & <- & Hraw). split; [exact Hne|].
    apply elem_of_List_filter in Hraw as [Hraw _]. now exists raw.
  - intros (Hne & raw & Hraw & ->). split; [exact Hne|].
    exists raw. split; [reflexivity|].
    apply elem_of_List_filter. split; [exact Hraw|].
    apply truthy_true. intros ->. now apply Hne.
Qed.

Lemma compiledRules_shape (state : State) :
  compiledRules state =
  if normalizeBoolean (blockReddit state)
  then imap hostRule (distinctHosts state)
       ++ redditRule :: imap allowRule (distinctSubreddits state)
  else imap hostRule (distinctHosts state).
Proof.
  unfold compiledRules, appendBlockedHostRules, appendAllowedSubredditRules.
  rewrite !mapIdxFrom_imap. simpl.
  destruct (normalizeBoolean (blockReddit state)); [|reflexivity].
  now rewrite <- app_assoc.
Qed.

Lemma foldChar_r (a : ascii) :
  Ascii.eqb (foldChar "r"%char) (foldChar a) = true
  <-> a = "r"%char \/ a = "R"%char.
Proof.
  split.
  - destruct a as [[] [] [] [] [] [] [] []]; intros H;
      try discriminate H; auto.
  - intros [-> | ->]; reflexivity.
Qed.

Lemma foldChar_slash (a : ascii) :
  Ascii.eqb (foldChar "/"%char) (foldChar a) = true <-> a = "/"%char.
Proof.
  split.
  - destruct a as [[] [] [] [] [] [] [] []]; intros H;
      try discriminate H; auto.
  - intros ->; reflexivity.
Qed.

(** The two prefixes that [normalizeSubreddit] removes, in either case
    of the letter. *)
Lemma stripPrefixCI_slash_r (s rest : string) :
  stripPrefixCI "/r/" s = Some rest
  <-> s = "/r/" +:+ rest \/ s = "/R/" +:+ rest.
Proof.
  destruct s as [|a s];
    [split; [discriminate | intros [H | H]; discriminate H]|].
  cbn [stripPrefixCI].
  destruct (Ascii.eqb (foldChar "/") (foldChar a)) eqn:Ea.
  2:{ split; [discriminate|].
      intros [[= -> _] | [= -> _]]; discriminate Ea. }
  apply foldChar_slash in Ea. subst a.
  destruct s as [|b s];
    [split; [discriminate | intros [H | H]; discriminate H]|].
  destruct (Ascii.eqb (foldChar "r") (foldChar b)) eqn:Eb.
  2:{ split; [discriminate|].
      intros [[= -> _] | [= -> _]]; discriminate Eb. }
  apply foldChar_r in Eb.
  destruct s as [|c s];
    [split; [discriminate | intros [H | H]; discriminate H]|].
  destruct (Ascii.eqb (foldChar "/") (foldChar c)) eqn:Ec.
  2:{ split; [discriminate|].
      intros [[= _ -> _] | [= _ -> _]]; discriminate Ec. }
  apply foldChar_slash in Ec. subst c. split.
  - intros [= ->]. destruct Eb as [-> | ->]; [now left | now right].
  - intros [[= _ ->] | [= _ ->]]; reflexivity.
Qed.

Lemma stripPrefixCI_r (s rest : string) :
  stripPrefixCI "r/" s = Some rest
  <-> s = "r/" +:+ rest \/ s = "R/" +:+ rest.
Proof.
  destruct s as [|a s];
    [split; [discriminate | intros [H | H]; discriminate H]|].
  cbn [stripPrefixCI].
  destruct (Ascii.eqb (foldChar "r") (foldChar a)) eqn:Ea.
  2:{ split; [discriminate|].
      intros [[= -> _] | [= -> _]]; discriminate Ea. }
  apply foldChar_r in Ea.
  destruct s as [|b s];
    [split; [discriminate | intros [H | H]; discriminate H]|].
  destruct (Ascii.eqb (foldChar "/") (foldChar b)) eqn:Eb.
  2:{ split; [discriminate|].
      intros [[= _ -> _] | [= _ -> _]]; discriminate Eb. }
  apply foldChar_slash in Eb. subst b. split.
  - intros [= ->]. destruct Ea as [-> | ->]; [now left | now right].
  - intros [[= _ ->] | [= _ ->]]; reflexivity.
Qed.

(** Trailing characters: what [dropWhileEnd] removes and what it
    leaves. *)
Lemma dropWhileEnd_all (p : ascii -> bool) (s : string) :
  Forall (fun c => p c = true) (list_ascii_of_string s) ->
  dropWhileEnd p s = "".
Proof.
  induction s as [|c s IH]; [reflexivity|]. cbn.
  intros H. apply Forall_cons in H as [Hc Hs].
  now rewrite (IH Hs), Hc.
Qed.

Lemma dropWhileEnd_app_all (p : ascii -> bool) (core tail : string) :
  Forall (fun c => p c = true) (list_ascii_of_string tail) ->
  dropWhileEnd p (core +:+ tail) = dropWhileEnd p core.
Proof.
  intros Ht. induction core as [|c core IH].
  - rewrite append_nil_l. now apply dropWhileEnd_all.
  - rewrite append_cons. cbn. now rewrite IH.
Qed.

Lemma dropWhileEnd_fixed (p : ascii -> bool) (core : string) :
  (forall t c, p c = true -> core <> t +:+ String c "") ->
  dropWhileEnd p core = core.
Proof.
  induction core as [|c core IH]; [reflexivity|]. intros H. cbn.
  rewrite IH.
  - destruct core as [|d core]; [|reflexivity].
    destruct (p c) eqn:Hc; [|reflexivity].
    exfalso. now apply (H "" c).
  - intros t d Hd ->. apply (H (String c t) d Hd). now rewrite append_cons.
Qed.

Lemma dropWhileEnd_split (p : ascii -> bool) (s : string) :
  exists tail,
    s = dropWhileEnd p s +:+ tail
    /\ Forall (fun c => p c = true) (list_ascii_of_string tail)
    /\ forall t c, p c = true -> dropWhileEnd p s <> t +:+ String c "".
Proof.
  induction s as [|c s (tail & Hs & Ht & Hend)].
  - exists "". split; [reflexivity|]. split; [constructor|].
    intros [|? ?] c _; discriminate.
  - cbn. destruct (dropWhileEnd p s) as [|d r] eqn:E.
    + rewrite append_nil_l in Hs. subst tail.
      destruct (p c) eqn:Hc.
      * exists (String c s). split; [reflexivity|].
        split; [now apply Forall_cons|].
        intros [|? ?] ? _; discriminate.
      * exists s. split; [reflexivity|]. split; [exact Ht|].
        intros t e He Q. destruct t as [|x t].
        -- rewrite append_nil_l in Q. injection Q as ->. congruence.
        -- rewrite append_cons in Q. injection Q as _ Q.
           destruct t; [rewrite append_nil_l in Q | rewrite append_cons in Q];
             discriminate Q.
    + exists tail. split; [now rewrite append_cons, <- Hs|].
      split; [exact Ht|].
      intros [|e t] x Hx; rewrite ?append_nil_l, ?append_cons.
      * discriminate.
      * intros [= <- Hr]. now apply (Hend t x Hx).
Qed.

(** [normalizeSubreddit] spelled out: trim, take off one leading /r/ or
    r/ in either case, take off the trailing slashes, lower-case. *)
Lemma normalizeSubreddit_spelled (raw s : string) :
  s = normalizeSubreddit raw
  <-> exists rest core slashes : string,
        ((exists p, p ∈ ["/r/"; "/R/"; "r/"; "R/"] /\ trim raw = p +:+ rest)
         \/ (rest = trim raw
             /\ forall p t, p ∈ ["/r/"; "/R/"; "r/"; "R/"] ->
                  trim raw <> p +:+ t))
        /\ rest = core +:+ slashes
        /\ Forall (fun c => c = "/"%char) (list_ascii_of_string slashes)
        /\ (forall t, core <> t +:+ "/")
        /\ s = toLowerCase core.
Proof.
  assert (Hslash : forall c, Ascii.eqb "/" c = true <-> c = "/"%char).
  { intros c. rewrite Ascii.eqb_eq. split; congruence. }
  assert (Hrest : forall rest,
            (match stripPrefixCI "/r/" (trim raw) with
             | Some r => r
             | None => match stripPrefixCI "r/" (trim raw) with
                       | Some r => r
                       | None => trim raw
                       end
             end = rest)
            <-> ((exists p, p ∈ ["/r/"; "/R/"; "r/"; "R/"]
                            /\ trim raw = p +:+ rest)
                 \/ (rest = trim raw
                     /\ forall p t, p ∈ ["/r/"; "/R/"; "r/"; "R/"] ->
                          trim raw <> p +:+ t))).
  { intros rest.
    destruct (stripPrefixCI "/r/" (trim raw)) as [r3|] eqn:E3.
    - apply stripPrefixCI_slash_r in E3. split.
      + intros <-. left. destruct E3 as [E | E].
        * exists "/r/". split; [|exact E]. repeat constructor.
        * exists "/R/". split; [|exact E]. repeat constructor.
      + intros [(p & Hp & Hq) | (_ & Hn)].
        * rewrite Hq in E3.
          repeat (apply elem_of_cons in Hp as [-> | Hp]);
            [| | | |now apply elem_of_nil in Hp];
            destruct E3 as [E | E]; try discriminate E;
            now injection E.
        * exfalso. destruct E3 as [E | E].
          -- apply (Hn "/r/" r3); [repeat constructor | exact E].
          -- apply (Hn "/R/" r3); [repeat constructor | exact E].
    - assert (N3 : forall t, trim raw <> "/r/" +:+ t /\ trim raw <> "/R/" +:+ t).
      { intros t. split; intros E;
          assert (X : stripPrefixCI "/r/" (trim raw) = Some t)
            by (apply stripPrefixCI_slash_r; auto); congruence. }
      destruct (stripPrefixCI "r/" (trim raw)) as [r2|] eqn:E2.
      + apply stripPrefixCI_r in E2. split.
        * intros <-. left. destruct E2 as [E | E].
          -- exists "r/". split; [|exact E]. repeat constructor.
          -- exists "R/". split; [|exact E]. repeat constructor.
        * intros [(p & Hp & Hq) | (_ & Hn)].
          -- rewrite Hq in E2.
             repeat (apply elem_of_cons in Hp as [-> | Hp]);
               [| | | |now apply elem_of_nil in Hp];
               destruct E2 as [E | E]; try discriminate E;
               now injection E.
          -- exfalso. destruct E2 as [E | E].
             ++ apply (Hn "r/" r2); [repeat constructor | exact E].
             ++ apply (Hn "R/" r2); [repeat constructor | exact E].
      + assert (N2 : forall t, trim raw <> "r/" +:+ t /\ trim raw <> "R/" +:+ t).
        { intros t. split; intros E;
            assert (X : stripPrefixCI "r/" (trim raw) = Some t)
              by (apply stripPrefixCI_r; auto); congruence. }
        split.
        * intros <-. right. split; [reflexivity|].
          intros p t Hp.
          repeat (apply elem_of_cons in Hp as [-> | Hp]);
            [| | | |now apply elem_of_nil in Hp].
          -- apply N3. -- apply N3. -- apply N2. -- apply N2.
        * intros [(p & Hp & Hq) | (-> & _)]; [|reflexivity].
          exfalso.
          repeat (apply elem_of_cons in Hp as [-> | Hp]);
            [| | | |now apply elem_of_nil in Hp].
          -- now apply (proj1 (N3 rest)).
          -- now apply (proj2 (N3 rest)).
          -- now apply (proj1 (N2 rest)).
          -- now apply (proj2 (N2 rest)). }
  unfold normalizeSubreddit. cbv zeta. split.
  - intros ->.
    set (rest := match stripPrefixCI "/r/" (trim raw) with
                 | Some r => r
                 | None => match stripPrefixCI "r/" (trim raw) with
                           | Some r => r
                           | None => trim raw
                           end
                 end).
    destruct (dropWhileEnd_split (Ascii.eqb "/"%char) rest)
      as (tail & Hs & Ht & Hend).
    exists rest, (dropWhileEnd (Ascii.eqb "/"%char) rest), tail.
    split; [now apply Hrest|]. split; [exact Hs|].
    split; [eapply Forall_impl; [exact Ht|]; intros c; apply Hslash|].
    split; [|reflexivity].
    intros t. apply (Hend t "/"%char). reflexivity.
  - intros (rest & core & slashes & Hp & -> & Hs & Hc & ->).
    apply Hrest in Hp. rewrite Hp.
    rewrite dropWhileEnd_app_all.
    2:{ eapply Forall_impl; [exact Hs|]. intros c. apply Hslash. }
    rewrite dropWhileEnd_fixed; [reflexivity|].
    intros t c Hcs. apply Hslash in Hcs. subst c. apply Hc.
Qed.

(** C1. With the master switch on, the rules installed by a compilation
    are: one block rule of priority 1 for each distinct non-empty
    trimmed and lower-cased blocked host; and, when the Reddit switch is
    on, the domain-wide Reddit block rule of priority 1 followed by one
    allow rule of priority 100 on /r/<name> for each distinct non-empty
    normalised allowed subreddit; nothing more.  The normal form of a
    subreddit is its trimmed text without one leading /r/ or r/ (in
    either case of the letter), without its trailing slashes, and
    lower-cased.  The allow priority is greater than the block
    priority.  Two copies of x.com give one block rule, and the allow
    list [foo] gives one allow rule for /r/foo, as do r/Foo/ and
    /R/foo. *)
Theorem updateAllRules_enabled (state : State) (b : Browser) :
  normalizeBoolean (extensionEnabled state) = true ->
  exists hosts names : list string,
    NoDup hosts
    /\ (forall h, h ∈ hosts
          <-> h <> "" /\
              exists raw, raw ∈ blockedHosts state
                          /\ h = toLowerCase (trim raw))
    /\ NoDup names
    /\ (forall s, s ∈ names
          <-> s <> "" /\
              exists raw rest core slashes : string,
                raw ∈ allowedSubreddits state
                /\ ((exists p, p ∈ ["/r/"; "/R/"; "r/"; "R/"]
                                /\ trim raw = p +:+ rest)
                    \/ (rest = trim raw
                        /\ forall p t, p ∈ ["/r/"; "/R/"; "r/"; "R/"] ->
                             trim raw <> p +:+ t))
                /\ rest = core +:+ slashes
                /\ Forall (fun c => c = "/"%char)
                     (list_ascii_of_string slashes)
                /\ (forall t, core <> t +:+ "/")
                /\ s = toLowerCase core)
    /\ dynamicRules (updateAllRules parseUrl state b) =
       (if normalizeBoolean (blockReddit state)
        then imap hostRule hosts ++ redditRule :: imap allowRule names
        else imap hostRule hosts)
    /\ redditRule = createRedditBlockRule
    /\ (RULE_PRIORITIES.BLOCK = 1 /\ RULE_PRIORITIES.ALLOW = 100
        /\ RULE_PRIORITIES.BLOCK < RULE_PRIORITIES.ALLOW)%Z
    /\ compiledRules (mkState ["x.com"; "x.com"] [] (Bool false) (Bool true) [])
       = [hostRule 0 "x.com"]
    /\ compiledRules (mkState [] ["foo"] (Bool true) (Bool true) [])
       = [redditRule; allowRule 0 "foo"]
    /\ compiledRules (mkState ["x.com"; "x.com"] [] (Bool false) (Bool true) [])
       = [mkRule 10000 1 block (mkCondition "||x.com" ["main_frame"])]
    /\ compiledRules (mkState [] ["foo"] (Bool true) (Bool true) [])
       = [mkRule 20000 1 block (mkCondition "||reddit.com^" ["main_frame"]);
          mkRule 30000 100 allow
            (mkCondition "||reddit.com/r/foo" ["main_frame"])]
    /\ compiledRules
         (mkState [" X.com "; "x.com"; ""; "Y.org"]
            ["r/Foo/"; "/R/foo"; "foo"; " "; "bar//"; "r/r/Baz"]
            (Bool true) (Bool true) [])
       = [mkRule 10000 1 block (mkCondition "||x.com" ["main_frame"]);
          mkRule 10001 1 block (mkCondition "||y.org" ["main_frame"]);
          mkRule 20000 1 block (mkCondition "||reddit.com^" ["main_frame"]);
          mkRule 30000 100 allow
            (mkCondition "||reddit.com/r/foo" ["main_frame"]);
          mkRule 30001 100 allow
            (mkCondition "||reddit.com/r/bar" ["main_frame"]);
          mkRule 30002 100 allow
            (mkCondition "||reddit.com/r/r/baz" ["main_frame"])].
Proof.
  intros Hon.
  exists (distinctHosts state), (distinctSubreddits state).
  split; [apply filterIdx_first_NoDup|].
  split; [apply distinctHosts_elem|].
  split; [apply filterIdx_first_NoDup|].
  split.
  { intros s. rewrite distinctSubreddits_elem. split.
    - intros (Hne & raw & Hraw & Hs).
      apply normalizeSubreddit_spelled in Hs
        as (rest & core & slashes & H1 & H2 & H3 & H4 & H5).
      split; [exact Hne|]. exists raw, rest, core, slashes.
      split; [exact Hraw|]. split; [exact H1|]. split; [exact H2|].
      split; [exact H3|]. split; [exact H4 | exact H5].
    - intros (Hne & raw & rest & core & slashes & Hraw & H1 & H2 & H3 & H4
              & H5).
      split; [exact Hne|]. exists raw. split; [exact Hraw|].
      apply normalizeSubreddit_spelled. exists rest, core, slashes.
      split; [exact H1|]. split; [exact H2|].
      split; [exact H3|]. split; [exact H4 | exact H5]. }
  split.
  { unfold updateAllRules. rewrite Hon. simpl.
    rewrite updateDynamicRules_replaces. apply compiledRules_shape. }
  split; [reflexivity|].
  split; [repeat split; reflexivity|].
  repeat split; vm_compute; reflexivity.
Qed.

End RuleCompilation.

(** ** The master switch *)

Section MasterSwitch.
Import Js Background.

Variable parseUrl : string -> option Url.

Lemma isHttpUrl_truthy (url : string) : isHttpUrl url = true -> truthy url = true.
Proof. destruct url; [discriminate | reflexivity]. Qed.

Lemma overlays_unlockScroll (w : ScrollLock.Window) :
  ScrollLock.overlays (ScrollLock.unlockScroll w) = ScrollLock.overlays w.
Proof.
  destruct w as [[st|] de bd li ov fl]; [|reflexivity].
  unfold ScrollLock.unlockScroll. cbn.
  destruct (Z.max 0 (ScrollLock.count st - 1) >? 0)%Z; [reflexivity|].
  destruct de, bd; reflexivity.
Qed.

Lemma removeSiteOverlayInPage_clears (w : ScrollLock.Window) :
  ScrollLock.overlays (removeSiteOverlayInPage w) !! SITE_OVERLAY_ID = None
  /\ ScrollLock.siteOverlayFlag (removeSiteOverlayInPage w) = false.
Proof.
  unfold removeSiteOverlayInPage. split; [|reflexivity].
  destruct (ScrollLock.overlays w !! SITE_OVERLAY_ID) as [o|] eqn:E; simpl.
  - rewrite overlays_unlockScroll. simpl. apply lookup_delete_eq.
  - exact E.
Qed.

Lemma removeSiteOverlay_clears (tab : Tab) :
  hasSiteOverlay (removeSiteOverlay tab) = false.
Proof.
  unfold hasSiteOverlay, removeSiteOverlay, executeScript.
  destruct (tabWindow tab) as [w|] eqn:E; [|now rewrite E].
  cbn [tabWindow].
  destruct (removeSiteOverlayInPage_clears w) as [H _]. rewrite H.
  apply bool_decide_eq_false_2. intros [? ?]; discriminate.
Qed.

Lemma enforceTab_disabled (S : gset string) (tab : Tab) :
  openHttpDocument parseUrl tab ->
  enforceTab parseUrl false S tab = removeSiteOverlay tab.
Proof.
  intros (i & url & u & Hid & Hi & Hurl & Hhttp & Hparse & Hhost).
  unfold enforceTab, getHostnameFromUrl.
  rewrite Hid, Hurl, Hparse, Hhttp, (isHttpUrl_truthy _ Hhttp).
  destruct (Z.eqb_spec i 0) as [? | _]; [contradiction|]. simpl.
  assert (E : truthy (toLowerCase (hostname u)) = true).
  { apply truthy_true. now rewrite toLowerCase_empty. }
  now rewrite E.
Qed.

(** C2. With the master switch off, a compilation leaves no dynamic
    rule installed (the installed ones are removed, none is added), and
    the sweep of the open tabs removes the site overlay from every open
    http or https document. *)
Theorem updateAllRules_disabled (state : State) (b : Browser) :
  normalizeBoolean (extensionEnabled state) = false ->
  dynamicRules (updateAllRules parseUrl state b) = []
  /\ length (tabs (updateAllRules parseUrl state b)) = length (tabs b)
  /\ forall (n : nat) (tab : Tab),
       tabs b !! n = Some tab ->
       openHttpDocument parseUrl tab ->
       tabs (updateAllRules parseUrl state b) !! n
         = Some (removeSiteOverlay tab)
       /\ hasSiteOverlay (removeSiteOverlay tab) = false.
Proof.
  intros Hoff. unfold updateAllRules. rewrite Hoff. simpl.
  split; [|split].
  - destruct (dynamicRules b) as [|r l] eqn:E; [reflexivity|].
    change (0 <? length (List.map id (r :: l)))%nat with true.
    cbv iota. apply updateDynamicRules_replaces.
  - unfold enforceOpenTabs. apply length_map.
  - intros n tab Hn Hopen. split; [|apply removeSiteOverlay_clears].
    unfold enforceOpenTabs.
    change (List.map ?f ?l) with (f <$> l).
    rewrite list_lookup_fmap, Hn. simpl.
    now rewrite (enforceTab_disabled _ _ Hopen).
Qed.

End MasterSwitch.

(** ** The scroll lock *)

Section ScrollLockFacts.
Import ScrollLock.

(** First holder: the styles are saved and replaced, the listeners are
    attached, and the count becomes one. *)
Lemma lockScroll_first (w : Window) (docEl : Style) :
  lockState w = None ->
  documentElement w = Some docEl ->
  lockState (lockScroll w) =
    Some (mkLockState 1 (overflow docEl) (overscrollBehavior docEl)
            (from_option overflow "" (body w))
            (from_option touchAction "" (body w)))
  /\ documentElement (lockScroll w) = Some (lockedDoc docEl)
  /\ body (lockScroll w) = lockedBody <$> body w
  /\ listeners (lockScroll w) = listeners w ∪ lockListeners
  /\ overlays (lockScroll w) = overlays w
  /\ siteOverlayFlag (lockScroll w) = siteOverlayFlag w.
Proof.
  destruct w as [ls de bd li ov fl]. simpl. intros -> ->.
  unfold lockScroll. cbn. destruct bd; cbn; repeat split; reflexivity.
Qed.

(** Further holders only increment the count. *)
Lemma lockScroll_held (w : Window) (st : LockState) (docEl : Style) :
  lockState w = Some st ->
  count st <> 0%Z ->
  documentElement w = Some docEl ->
  lockScroll w = setLockState (Some (withCount (count st + 1) st)) w.
Proof.
  destruct w as [ls de bd li ov fl]. simpl. intros -> Hc ->.
  unfold lockScroll. cbn.
  destruct (Z.eqb_spec (count st) 0); [contradiction|]. reflexivity.
Qed.

(** A release that leaves holders only decrements the count. *)
Lemma unlockScroll_held (w : Window) (st : LockState) :
  lockState w = Some st ->
  (1 < count st)%Z ->
  unlockScroll w = setLockState (Some (withCount (count st - 1) st)) w.
Proof.
  destruct w as [ls de bd li ov fl]. simpl. intros -> Hc.
  unfold unlockScroll. cbn.
  replace (Z.max 0 (count st - 1)) with (count st - 1)%Z by lia.
  destruct (Z.gtb_spec (count st - 1) 0); [reflexivity | lia].
Qed.

(** The release of the last holder restores the saved styles, detaches
    the listeners and deletes the state. *)
Lemma unlockScroll_last (w : Window) (st : LockState) :
  lockState w = Some st ->
  (count st <= 1)%Z ->
  lockState (unlockScroll w) = None
  /\ documentElement (unlockScroll w) =
       (fun d => mkStyle (prevDocOverflow st) (prevDocOverscroll st)
                   (touchAction d)) <$> documentElement w
  /\ body (unlockScroll w) =
       (fun b => mkStyle (prevBodyOverflow st) (overscrollBehavior b)
                   (prevBodyTouchAction st)) <$> body w
  /\ listeners (unlockScroll w) = listeners w ∖ lockListeners
  /\ overlays (unlockScroll w) = overlays w
  /\ siteOverlayFlag (unlockScroll w) = siteOverlayFlag w.
Proof.
  destruct w as [ls de bd li ov fl]. simpl. intros -> Hc.
  unfold unlockScroll. cbn.
  replace (Z.max 0 (count st - 1)) with 0%Z by lia. cbn.
  destruct de, bd; cbn; repeat split; reflexivity.
Qed.

Lemma unlockScroll_without_lock (w : Window) :
  lockState w = None -> unlockScroll w = w.
Proof. unfold unlockScroll. now intros ->. Qed.

(** C9. The lock is reference counted.  [lockScroll] saves the current
    styles, applies the locked ones (overflow hidden and overscroll
    none on the root element, overflow hidden and touch action none on
    the body) and attaches the five listeners (wheel and touchmove, and
    keydown, keypress and keyup in the capture phase) only when the
    count goes from zero to one, and then increments the count;
    [unlockScroll] decrements it and restores the saved styles and
    detaches the five listeners only when it reaches zero.  After two
    acquisitions and one release the styles are still the locked ones
    and the listeners still attached, a second release gives back the
    window as it was, and a release without an acquisition changes
    nothing. *)
Theorem scroll_lock_reference_counted :
  (forall w docEl,
     lockState w = None -> documentElement w = Some docEl ->
     lockState (lockScroll w) =
       Some (mkLockState 1 (overflow docEl) (overscrollBehavior docEl)
               (from_option overflow "" (body w))
               (from_option touchAction "" (body w)))
     /\ documentElement (lockScroll w) = Some (lockedDoc docEl)
     /\ body (lockScroll w) = lockedBody <$> body w
     /\ listeners (lockScroll w)
        = listeners w
          ∪ {[ ("wheel", false); ("touchmove", false);
               ("keydown", true); ("keypress", true); ("keyup", true) ]})
  /\ (forall w st docEl,
        lockState w = Some st -> count st <> 0%Z ->
        documentElement w = Some docEl ->
        lockScroll w = setLockState (Some (withCount (count st + 1) st)) w)
  /\ (forall w st,
        lockState w = Some st -> (1 < count st)%Z ->
        unlockScroll w = setLockState (Some (withCount (count st - 1) st)) w)
  /\ (forall w st,
        lockState w = Some st -> (count st <= 1)%Z ->
        lockState (unlockScroll w) = None
        /\ documentElement (unlockScroll w) =
             (fun d => mkStyle (prevDocOverflow st) (prevDocOverscroll st)
                         (touchAction d)) <$> documentElement w
        /\ body (unlockScroll w) =
             (fun b => mkStyle (prevBodyOverflow st) (overscrollBehavior b)
                         (prevBodyTouchAction st)) <$> body w
        /\ listeners (unlockScroll w)
           = listeners w
             ∖ {[ ("wheel", false); ("touchmove", false);
                  ("keydown", true); ("keypress", true); ("keyup", true) ]})
  /\ (forall w, lockState w = None -> unlockScroll w = w)
  /\ (forall w docEl,
        lockState w = None -> documentElement w = Some docEl ->
        listeners w
        ## {[ ("wheel", false); ("touchmove", false);
              ("keydown", true); ("keypress", true); ("keyup", true) ]} ->
        let held := unlockScroll (lockScroll (lockScroll w)) in
        (count <$> lockState held) = Some 1%Z
        /\ documentElement held = Some (lockedDoc docEl)
        /\ body held = lockedBody <$> body w
        /\ listeners held
           = listeners w
             ∪ {[ ("wheel", false); ("touchmove", false);
                  ("keydown", true); ("keypress", true); ("keyup", true) ]}
        /\ (forall l,
              l ∈ [("wheel", false); ("touchmove", false); ("keydown", true);
                   ("keypress", true); ("keyup", true)] ->
              l ∈ listeners (lockScroll w) /\ l ∈ listeners held
              /\ l ∉ listeners (unlockScroll held))
        /\ unlockScroll held = w).
Proof.
  split; [|split; [|split; [|split; [|split]]]].
  - intros w docEl H1 H2.
    destruct (lockScroll_first w docEl H1 H2) as (? & ? & ? & ? & _).
    auto.
  - exact lockScroll_held.
  - exact unlockScroll_held.
  - intros w st H1 H2.
    destruct (unlockScroll_last w st H1 H2) as (? & ? & ? & ? & _).
    auto.
  - exact unlockScroll_without_lock.
  - intros w docEl H1 H2 Hdisj.
    destruct (lockScroll_first w docEl H1 H2)
      as (Hst & Hdoc & Hbody & Hli & Hov & Hfl).
    set (w1 := lockScroll w) in *.
    set (st1 := mkLockState 1 (overflow docEl) (overscrollBehavior docEl)
                  (from_option overflow "" (body w))
                  (from_option touchAction "" (body w))) in *.
    rewrite (lockScroll_held w1 st1 (lockedDoc docEl) Hst) by
      (auto; discriminate).
    rewrite (unlockScroll_held _ (withCount (1 + 1) st1)) by
      (reflexivity || (simpl; lia)).
    cbn [setLockState lockState documentElement body listeners].
    split; [reflexivity|]. split; [exact Hdoc|]. split; [exact Hbody|].
    split; [exact Hli|].
    split.
    { intros l Hl.
      assert (Hin : l ∈ lockListeners).
      { unfold lockListeners.
        repeat (apply elem_of_cons in Hl as [-> | Hl]);
          [| | | | |now apply elem_of_nil in Hl];
          rewrite !elem_of_union, !elem_of_singleton; tauto. }
      split; [rewrite Hli; now apply elem_of_union_r|].
      split; [rewrite Hli; now apply elem_of_union_r|].
      match goal with
      | |- l ∉ listeners (unlockScroll ?h) =>
          destruct (unlockScroll_last h
                      (withCount (1 + 1 - 1) (withCount (1 + 1) st1)))
            as (_ & _ & _ & L4 & _);
            [reflexivity | simpl; lia |]
      end.
      rewrite L4. intros Hd. apply elem_of_difference in Hd as [_ Hd].
      now apply Hd. }
    match goal with
    | |- unlockScroll ?h = _ =>
        destruct (unlockScroll_last h (withCount (1 + 1 - 1) (withCount (1 + 1) st1)))
          as (L1 & L2 & L3 & L4 & L5 & L6);
          [reflexivity | simpl; lia |];
        destruct (unlockScroll h) as [ls' de' bd' li' ov' fl']
    end.
    cbn [setLockState lockState documentElement body listeners overlays
         siteOverlayFlag] in L1, L2, L3, L4, L5, L6.
    rewrite Hdoc in L2. rewrite Hbody in L3. rewrite Hli in L4.
    rewrite Hov in L5. rewrite Hfl in L6.
    clear Hst Hdoc Hbody Hli Hov Hfl. subst st1. clear w1.
    destruct w as [ls de bd li ov fl]. simpl in *. subst.
    destruct docEl as [o1 o2 o3].
    f_equal.
    + destruct bd as [[b1 b2 b3]|]; reflexivity.
    + rewrite difference_union_distr_l_L, difference_diag_L, union_empty_r_L.
      now apply difference_disjoint_L.
Qed.

End ScrollLockFacts.

(** ** The channel decision rule *)

Section ChannelDecision.
Import Js Background.

Lemma entryTypeEqb_eq (a b : EntryType) : entryTypeEqb a b = true <-> a = b.
Proof. destruct a, b; simpl; split; congruence. Qed.

(** The loop, entry by entry. *)
Lemma isChannelBlockedLoop_iff (cid title h : string)
  (entries : list (option Entry)) :
  isChannelBlockedLoop cid title h entries = true
  <-> exists e, Some e ∈ entries /\ value e <> "" /\
        ((type e = TypeId /\ value e = cid)
         \/ (type e = TypeName /\ value e = title)
         \/ (type e = TypeHandle /\ h <> "" /\ value e = h)).
Proof.
  induction entries as [|[e|] rest IH]; cbn [isChannelBlockedLoop].
  - split; [discriminate|]. intros (e & H & _). now apply elem_of_nil in H.
  - assert (Hrest :
      (exists e', Some e' ∈ rest /\ value e' <> "" /\
         ((type e' = TypeId /\ value e' = cid)
          \/ (type e' = TypeName /\ value e' = title)
          \/ (type e' = TypeHandle /\ h <> "" /\ value e' = h)))
      -> exists e', Some e' ∈ Some e :: rest /\ value e' <> "" /\
         ((type e' = TypeId /\ value e' = cid)
          \/ (type e' = TypeName /\ value e' = title)
          \/ (type e' = TypeHandle /\ h <> "" /\ value e' = h))).
    { intros (e' & Hin & H). exists e'. split; [now right | exact H]. }
    destruct (truthy (value e)) eqn:Hv; cbn [negb].
    + apply truthy_true in Hv.
      destruct (entryTypeEqb (type e) TypeId && String.eqb (value e) cid)
        eqn:E1.
      { apply andb_true_iff in E1 as [T1 V1].
        apply entryTypeEqb_eq in T1. apply String.eqb_eq in V1.
        split; [|reflexivity]. intros _. exists e.
        split; [now left|]. tauto. }
      destruct (entryTypeEqb (type e) TypeName && String.eqb (value e) title)
        eqn:E2.
      { apply andb_true_iff in E2 as [T2 V2].
        apply entryTypeEqb_eq in T2. apply String.eqb_eq in V2.
        split; [|reflexivity]. intros _. exists e.
        split; [now left|]. tauto. }
      destruct (entryTypeEqb (type e) TypeHandle && truthy h
                && String.eqb (value e) h) eqn:E3.
      { apply andb_true_iff in E3 as [E3 V3].
        apply andb_true_iff in E3 as [T3 H3].
        apply entryTypeEqb_eq in T3. apply String.eqb_eq in V3.
        apply truthy_true in H3.
        split; [|reflexivity]. intros _. exists e.
        split; [now left|]. tauto. }
      rewrite IH. split; [exact Hrest|].
      intros (e' & Hin & Hne & Hm).
      apply elem_of_cons in Hin as [[= ->] | Hin]; [|now exists e'].
      exfalso.
      destruct Hm as [[T V] | [[T V] | (T & Hh & V)]].
      * apply entryTypeEqb_eq in T. apply String.eqb_eq in V.
        rewrite T, V in E1. discriminate.
      * apply entryTypeEqb_eq in T. apply String.eqb_eq in V.
        rewrite T, V in E2. discriminate.
      * apply entryTypeEqb_eq in T. apply String.eqb_eq in V.
        apply truthy_true in Hh. rewrite T, Hh, V in E3. discriminate.
    + apply truthy_false in Hv. rewrite IH. split; [exact Hrest|].
      intros (e' & Hin & Hne & Hm).
      apply elem_of_cons in Hin as [[= ->] | Hin]; [contradiction|].
      now exists e'.
  - rewrite IH. split.
    + intros (e' & Hin & H). exists e'. split; [now right | exact H].
    + intros (e' & Hin & H).
      apply elem_of_cons in Hin as [? | Hin]; [discriminate|]. now exists e'.
Qed.

Lemma isChannelBlockedLoop_live (cid title h : string)
  (entries : list (option Entry)) :
  isChannelBlockedLoop cid title h entries =
  isChannelBlockedLoop cid title h (List.filter liveEntry entries).
Proof.
  induction entries as [|[e|] rest IH]; cbn [isChannelBlockedLoop List.filter];
    [reflexivity| |exact IH].
  unfold liveEntry at 1.
  destruct (truthy (value e)) eqn:Hv; cbn [negb isChannelBlockedLoop];
    [|exact IH].
  rewrite Hv. cbn [negb]. now rewrite IH.
Qed.

Lemma isChannelBlockedLoop_no_handle (cid title : string)
  (entries : list (option Entry)) :
  isChannelBlockedLoop cid title "" entries =
  isChannelBlockedLoop cid title "" (List.filter notHandleEntry entries).
Proof.
  induction entries as [|[e|] rest IH]; cbn [isChannelBlockedLoop List.filter];
    [reflexivity| |exact IH].
  unfold notHandleEntry at 1.
  destruct (entryTypeEqb (type e) TypeHandle) eqn:Ht; cbn [negb].
  - apply entryTypeEqb_eq in Ht. rewrite Ht. cbn.
    destruct (truthy (value e)); exact IH.
  - cbn [isChannelBlockedLoop]. rewrite Ht, IH. reflexivity.
Qed.

Lemma stripAt_truthy (h : string) :
  truthy (toLowerCase (stripAt h)) = truthy (stripAt h).
Proof. destruct (stripAt h); reflexivity. Qed.

(** The decision in terms of the lower-cased fields of the owner. *)
Lemma isChannelBlocked_exact (info : VideoInfo)
  (entries : list (option Entry)) (channelHandle : string) :
  isChannelBlocked (Some info) entries channelHandle = true
  <-> exists e, Some e ∈ entries /\ value e <> "" /\
        ((type e = TypeId /\ value e = toLowerCase (channelId info))
         \/ (type e = TypeName /\ value e = toLowerCase (channelTitle info))
         \/ (type e = TypeHandle /\ stripAt channelHandle <> ""
             /\ value e = toLowerCase (stripAt channelHandle))).
Proof.
  unfold isChannelBlocked. fold (stripAt channelHandle).
  rewrite isChannelBlockedLoop_iff.
  split; intros (e & Hin & Hne & H); exists e; (split; [exact Hin|]);
    (split; [exact Hne|]); rewrite toLowerCase_empty in *; exact H.
Qed.

(** Counterexample to the statement of C4: the entry that the normaliser
    makes of a lone "@" is a handle entry with an empty value; it equals
    the empty handle of a channel without custom URL, and the video is
    not blocked. *)
Lemma isChannelBlocked_as_stated_fails :
  normalizeYouTubeChannelEntry (fun _ => None) "@"
    = Some (mkEntry TypeHandle "")
  /\ ~ (isChannelBlocked
          (Some (mkVideoInfo "UCabcdefghijklmnopqrstuv" "Example"))
          [Some (mkEntry TypeHandle "")] "" = true
        <-> exists e, e ∈ [mkEntry TypeHandle ""]
              /\ matchesAsStated
                   (mkVideoInfo "UCabcdefghijklmnopqrstuv" "Example") "" e).
Proof.
  split; [reflexivity|].
  intros [_ H].
  assert (E : isChannelBlocked
                (Some (mkVideoInfo "UCabcdefghijklmnopqrstuv" "Example"))
                [Some (mkEntry TypeHandle "")] "" = true).
  { apply H. exists (mkEntry TypeHandle ""). split; [now left|].
    reflexivity. }
  discriminate E.
Qed.

(** C4, amended. For every resolved owner, entry list and resolved
    handle, [isChannelBlocked] answers true exactly when some entry with
    a non-empty value matches: an id entry whose value is the lower-cased
    channel id of the owner; a name entry whose value is the lower-cased
    whole channel title; or a handle entry whose value is the lower-cased
    resolved handle without its leading [@], that handle being
    non-empty.  For entries with lower-cased values, as the normaliser
    stores them, these are the equalities up to case of the
    specification.  Without a resolved owner the answer is false.  A
    name entry "example" blocks the title "Example"; "exam" does not. *)
Theorem isChannelBlocked_amended (info : VideoInfo)
  (entries : list (option Entry)) (channelHandle : string) :
  (isChannelBlocked (Some info) entries channelHandle = true
   <-> exists e, Some e ∈ entries /\ value e <> "" /\
         ((type e = TypeId /\ value e = toLowerCase (channelId info))
          \/ (type e = TypeName /\ value e = toLowerCase (channelTitle info))
          \/ (type e = TypeHandle /\ stripAt channelHandle <> ""
              /\ value e = toLowerCase (stripAt channelHandle))))
  /\ ((forall e, Some e ∈ entries -> value e = toLowerCase (value e)) ->
      (isChannelBlocked (Some info) entries channelHandle = true
       <-> exists e, Some e ∈ entries /\ matchesEntry info channelHandle e))
  /\ isChannelBlocked None entries channelHandle = false
  /\ isChannelBlocked (Some (mkVideoInfo "UCabcdefghijklmnopqrstuv" "Example"))
       [Some (mkEntry TypeName "example")] "" = true
  /\ isChannelBlocked (Some (mkVideoInfo "UCabcdefghijklmnopqrstuv" "Example"))
       [Some (mkEntry TypeName "exam")] "" = false.
Proof.
  split; [apply isChannelBlocked_exact|].
  split; [|repeat split; reflexivity].
  intros Hlow.
  rewrite isChannelBlocked_exact. unfold matchesEntry, equalIgnoringCase.
  split; intros (e & Hin & Hne & H); exists e; (split; [exact Hin|]);
    (split; [exact Hne|]); specialize (Hlow e Hin).
  - destruct H as [[T V] | [[T V] | (T & Hh & V)]]; rewrite T;
      rewrite V at 1; rewrite ?toLowerCase_idem; auto.
  - destruct (type e); [left | right; right | right; left];
      (split; [reflexivity|]); rewrite Hlow; tauto.
Qed.

(** C10. With an empty resolved handle the handle entries count for
    nothing, also one whose value is empty; and for every owner, entry
    list and handle, the [null] entries and the entries with an empty
    value count for nothing. *)
Theorem isChannelBlocked_skips (info : option VideoInfo)
  (entries : list (option Entry)) (channelHandle : string) :
  isChannelBlocked info entries "" =
    isChannelBlocked info (List.filter notHandleEntry entries) ""
  /\ isChannelBlocked info [Some (mkEntry TypeHandle "")] "" = false
  /\ isChannelBlocked info entries channelHandle =
       isChannelBlocked info (List.filter liveEntry entries) channelHandle
  /\ (List.filter liveEntry entries = [] ->
      isChannelBlocked info entries channelHandle = false)
  /\ (List.filter notHandleEntry entries = [] ->
      isChannelBlocked info entries "" = false).
Proof.
  destruct info as [info|]; [|repeat split; reflexivity].
  assert (H1 : isChannelBlocked (Some info) entries "" =
               isChannelBlocked (Some info)
                 (List.filter notHandleEntry entries) "").
  { unfold isChannelBlocked. apply isChannelBlockedLoop_no_handle. }
  assert (H2 : isChannelBlocked (Some info) entries channelHandle =
               isChannelBlocked (Some info)
                 (List.filter liveEntry entries) channelHandle).
  { unfold isChannelBlocked. apply isChannelBlockedLoop_live. }
  split; [exact H1|]. split; [reflexivity|]. split; [exact H2|]. split.
  - intros E. rewrite H2, E. reflexivity.
  - intros E. rewrite H1, E. reflexivity.
Qed.

End ChannelDecision.

(** ** Normalisation of channel entries *)

Section ChannelEntries.
Import Js Background.

Variable parseUrl : string -> option Url.

Lemma foldChar_u (a : ascii) :
  Ascii.eqb (foldChar "u"%char) (foldChar a) = true
  <-> a = "u"%char \/ a = "U"%char.
Proof.
  split.
  - destruct a as [[] [] [] [] [] [] [] []]; intros H;
      try discriminate H; auto.
  - intros [-> | ->]; reflexivity.
Qed.

Lemma foldChar_c (a : ascii) :
  Ascii.eqb (foldChar "c"%char) (foldChar a) = true
  <-> a = "c"%char \/ a = "C"%char.
Proof.
  split.
  - destruct a as [[] [] [] [] [] [] [] []]; intros H;
      try discriminate H; auto.
  - intros [-> | ->]; reflexivity.
Qed.

Lemma idChars_iff (n : nat) (s : string) :
  idChars n s = true
  <-> String.length s = n
      /\ Forall (fun c => isIdChar c = true) (list_ascii_of_string s).
Proof.
  revert s. induction n as [|n IH]; intros [|c s]; simpl.
  - split; [intros _; split; [reflexivity | constructor] | reflexivity].
  - split; [discriminate | intros [? _]; discriminate].
  - split; [discriminate | intros [? _]; discriminate].
  - rewrite andb_true_iff, IH, Forall_cons. split.
    + intros (? & ? & ?). auto.
    + intros ([= ?] & ? & ?). auto.
Qed.

(** The class of the pattern, character by character. *)
Lemma isIdChar_iff (c : ascii) :
  isIdChar c = true
  <-> c ∈ list_ascii_of_string
            "ABCDEFGHIJKLMNOPQRSTUVWXYZabcdefghijklmnopqrstuvwxyz0123456789_-".
Proof.
  assert (E : isIdChar c
              = existsb (Ascii.eqb c)
                  (list_ascii_of_string
                     "ABCDEFGHIJKLMNOPQRSTUVWXYZabcdefghijklmnopqrstuvwxyz0123456789_-")).
  { destruct c as [[] [] [] [] [] [] [] []]; vm_compute; reflexivity. }
  rewrite E, existsb_exists, list_elem_of_In. split.
  - intros (x & Hx & Hcx). apply Ascii.eqb_eq in Hcx. now subst.
  - intros Hc. exists c. split; [exact Hc | apply Ascii.eqb_refl].
Qed.

Lemma matchesChannelId_iff (t : string) :
  matchesChannelId t = true <-> isChannelIdToken t.
Proof.
  unfold matchesChannelId, isChannelIdToken.
  setoid_rewrite <- (Forall_iff _ _ _ isIdChar_iff).
  destruct t as [|a [|b rest]]; cbn [stripPrefixCI].
  - split; [discriminate | intros (? & ? & ? & ? & _); discriminate].
  - destruct (Ascii.eqb (foldChar "u") (foldChar a));
      (split; [discriminate | intros (? & ? & ? & ? & _); discriminate]).
  - destruct (Ascii.eqb (foldChar "u") (foldChar a)) eqn:Ea.
    + destruct (Ascii.eqb (foldChar "c") (foldChar b)) eqn:Eb.
      * apply foldChar_u in Ea. apply foldChar_c in Eb.
        rewrite idChars_iff. split.
        -- intros [? ?]. exists a, b, rest. auto.
        -- intros (a' & b' & r' & [= -> -> ->] & _ & _ & ? & ?). auto.
      * split; [discriminate|].
        intros (a' & b' & r' & [= -> -> ->] & _ & Hb & _).
        apply foldChar_c in Hb. congruence.
    + split; [discriminate|].
      intros (a' & b' & r' & [= -> -> ->] & Ha & _).
      apply foldChar_u in Ha. congruence.
Qed.

Lemma startsWith_at (t : string) :
  startsWith t "@" = true <-> exists r, t = String "@"%char r.
Proof.
  unfold startsWith. destruct t as [|c r]; cbn [stripPrefix].
  - split; [discriminate | intros [? ?]; discriminate].
  - destruct (Ascii.eqb_spec "@" c) as [<- | Hne].
    + split; [intros _; now exists r | reflexivity].
    + split; [discriminate | intros [? [= ? ?]]; congruence].
Qed.

(** Splitting at a separator that the first piece does not contain. *)
Lemma split_no_sep (sep : ascii) (s : string) :
  indexOfChar sep s = None -> split sep s = [s].
Proof.
  induction s as [|c s IH]; simpl; [reflexivity|].
  destruct (Ascii.eqb c sep); [discriminate|].
  destruct (indexOfChar sep s); [discriminate|]. intros _.
  now rewrite IH.
Qed.

Lemma split_app_sep (sep : ascii) (s1 s2 : string) :
  indexOfChar sep s1 = None ->
  split sep (s1 +:+ String sep s2) = s1 :: split sep s2.
Proof.
  induction s1 as [|c s1 IH].
  - intros _. rewrite append_nil_l. simpl. now rewrite Ascii.eqb_refl.
  - rewrite append_cons. simpl.
    destruct (Ascii.eqb c sep); [discriminate|].
    destruct (indexOfChar sep s1); [discriminate|]. intros _.
    now rewrite IH.
Qed.

(** The segments of a segment followed by the rest of a path. *)
Lemma split_segment (seg rest : string) :
  noSlash seg -> segmentEnd rest ->
  exists more, split "/" (seg +:+ rest) = seg :: more.
Proof.
  intros Hseg [-> | [r ->]].
  - rewrite append_empty_r, (split_no_sep _ _ Hseg). now exists [].
  - rewrite (split_app_sep _ _ _ Hseg). now eexists.
Qed.

Lemma startsWith_app (p x : string) : startsWith (p +:+ x) p = true.
Proof.
  unfold startsWith.
  now rewrite (proj2 (stripPrefix_Some p (p +:+ x) x) eq_refl).
Qed.

Lemma noSlash_at (seg : string) : noSlash seg -> noSlash ("@" +:+ seg).
Proof.
  unfold noSlash. intros H.
  change ("@" +:+ seg) with (String "@"%char seg). simpl. now rewrite H.
Qed.

(** A link of the shape /channel/<seg>..., /c/<seg>... or /@<seg>...
    gives the segment, the last one with its [@]. *)
Lemma channelToken_channel (raw seg rest : string) (url : Url) :
  isHttpLink raw = true -> parseUrl raw = Some url ->
  seg <> "" -> noSlash seg -> segmentEnd rest ->
  pathname url = "/channel/" +:+ seg +:+ rest ->
  channelToken parseUrl raw = seg.
Proof.
  intros Hlink Hparse Hne Hseg Hrest Hpath.
  unfold channelToken. rewrite Hlink, Hparse, Hpath, startsWith_app.
  unfold pathSegments.
  change ("/channel/" +:+ seg +:+ rest)
    with ("" +:+ String "/"%char ("channel" +:+ String "/"%char (seg +:+ rest))).
  rewrite !split_app_sep by reflexivity.
  destruct (split_segment seg rest Hseg Hrest) as [more ->].
  cbn [List.filter]. apply truthy_true in Hne. rewrite Hne. reflexivity.
Qed.

Lemma channelToken_custom (raw seg rest : string) (url : Url) :
  isHttpLink raw = true -> parseUrl raw = Some url ->
  seg <> "" -> noSlash seg -> segmentEnd rest ->
  pathname url = "/c/" +:+ seg +:+ rest ->
  channelToken parseUrl raw = seg.
Proof.
  intros Hlink Hparse Hne Hseg Hrest Hpath.
  unfold channelToken. rewrite Hlink, Hparse, Hpath.
  rewrite (startsWith_app "/c/").
  change (startsWith ("/c/" +:+ seg +:+ rest) "/channel/")
    with (startsWith (String "/" (String "c" (String "/" (seg +:+ rest))))
            "/channel/").
  change (startsWith ("/c/" +:+ seg +:+ rest) "/@")
    with (startsWith (String "/" (String "c" (String "/" (seg +:+ rest))))
            "/@").
  cbn [startsWith stripPrefix Ascii.eqb Bool.eqb].
  unfold pathSegments.
  change ("/c/" +:+ seg +:+ rest)
    with ("" +:+ String "/"%char ("c" +:+ String "/"%char (seg +:+ rest))).
  rewrite !split_app_sep by reflexivity.
  destruct (split_segment seg rest Hseg Hrest) as [more ->].
  cbn [List.filter]. apply truthy_true in Hne. rewrite Hne. reflexivity.
Qed.

Lemma channelToken_handle (raw seg rest : string) (url : Url) :
  isHttpLink raw = true -> parseUrl raw = Some url ->
  noSlash seg -> segmentEnd rest ->
  pathname url = "/@" +:+ seg +:+ rest ->
  channelToken parseUrl raw = "@" +:+ seg.
Proof.
  intros Hlink Hparse Hseg Hrest Hpath.
  unfold channelToken. rewrite Hlink, Hparse, Hpath.
  rewrite (startsWith_app "/@").
  change (startsWith ("/@" +:+ seg +:+ rest) "/channel/")
    with (startsWith (String "/" (String "@" (seg +:+ rest))) "/channel/").
  cbn [startsWith stripPrefix Ascii.eqb Bool.eqb].
  unfold pathSegments.
  change ("/@" +:+ seg +:+ rest)
    with ("" +:+ String "/"%char (("@" +:+ seg) +:+ rest)).
  rewrite split_app_sep by reflexivity.
  destruct (split_segment ("@" +:+ seg) rest (noSlash_at _ Hseg) Hrest)
    as [more ->].
  cbn [List.filter truthy String.eqb negb].
  change (truthy ("@" +:+ seg)) with true. reflexivity.
Qed.

Lemma classifyToken_lower (t : string) :
  toLowerCase (value (classifyToken t)) = value (classifyToken t).
Proof.
  unfold classifyToken.
  destruct (matchesChannelId t); [apply toLowerCase_idem|].
  destruct (startsWith t "@"); apply toLowerCase_idem.
Qed.

(** C8. [normalizeYouTubeChannelEntry] gives [null] for an input that
    is empty or blank.  For a link it takes the segment after /channel/
    or after /c/, or the handle of a /@ path.  The token is an id
    exactly when it is u, c (in either case) followed by 22 characters
    of [A-Za-z0-9_-]; failing that a handle when it starts with [@],
    stored without the [@]; and a name otherwise.  The stored value is
    lower-cased.  So UC and 22 characters of the class make an id in
    either case of the prefix, while 21 or 23 characters, or a dot among
    them, make a name. *)
Theorem normalizeYouTubeChannelEntry_spec :
  normalizeYouTubeChannelEntry parseUrl "" = None
  /\ (forall v, trim v = "" -> normalizeYouTubeChannelEntry parseUrl v = None)
  /\ (forall v, trim v <> "" ->
        normalizeYouTubeChannelEntry parseUrl v
          = Some (classifyToken (channelToken parseUrl (trim v))))
  /\ (forall raw, isHttpLink raw = false -> channelToken parseUrl raw = raw)
  /\ (forall raw seg rest url,
        isHttpLink raw = true -> parseUrl raw = Some url ->
        noSlash seg -> segmentEnd rest ->
        (seg <> "" -> pathname url = "/channel/" +:+ seg +:+ rest ->
         channelToken parseUrl raw = seg)
        /\ (pathname url = "/@" +:+ seg +:+ rest ->
            channelToken parseUrl raw = "@" +:+ seg)
        /\ (seg <> "" -> pathname url = "/c/" +:+ seg +:+ rest ->
            channelToken parseUrl raw = seg))
  /\ (forall t,
        (type (classifyToken t) = TypeId <-> isChannelIdToken t)
        /\ (type (classifyToken t) = TypeHandle
            <-> ~ isChannelIdToken t /\ exists r, t = String "@"%char r)
        /\ (type (classifyToken t) = TypeName
            <-> ~ isChannelIdToken t /\ ~ exists r, t = String "@"%char r)
        /\ (type (classifyToken t) = TypeHandle ->
            value (classifyToken t) = toLowerCase (slice1 t))
        /\ (type (classifyToken t) <> TypeHandle ->
            value (classifyToken t) = toLowerCase t)
        /\ toLowerCase (value (classifyToken t)) = value (classifyToken t))
  /\ normalizeYouTubeChannelEntry parseUrl " UCabcdefghij_LMNOP-01234 "
     = Some (mkEntry TypeId "ucabcdefghij_lmnop-01234")
  /\ normalizeYouTubeChannelEntry parseUrl "ucABCDEFGHIJKLMNOPQRSTUV"
     = Some (mkEntry TypeId "ucabcdefghijklmnopqrstuv")
  /\ normalizeYouTubeChannelEntry parseUrl "UCabcdefghijklmnopqrstu"
     = Some (mkEntry TypeName "ucabcdefghijklmnopqrstu")
  /\ normalizeYouTubeChannelEntry parseUrl "UCabcdefghijklmnopqrstuvw"
     = Some (mkEntry TypeName "ucabcdefghijklmnopqrstuvw")
  /\ normalizeYouTubeChannelEntry parseUrl "UCabcdefghijklmnopqrst.v"
     = Some (mkEntry TypeName "ucabcdefghijklmnopqrst.v")
  /\ normalizeYouTubeChannelEntry parseUrl "@Some.Handle"
     = Some (mkEntry TypeHandle "some.handle")
  /\ normalizeYouTubeChannelEntry parseUrl "My Channel"
     = Some (mkEntry TypeName "my channel").
Proof.
  split; [reflexivity|].
  split; [|split; [|split; [|split; [|split;
    [|repeat split; vm_compute; reflexivity]]]]].
  - intros v Hv. unfold normalizeYouTubeChannelEntry.
    destruct (truthy v); [|reflexivity]. cbn [negb].
    now rewrite (proj2 (truthy_false (trim v)) Hv).
  - intros v Hv. unfold normalizeYouTubeChannelEntry.
    assert (E : truthy v = true).
    { apply truthy_true. intros ->. now apply Hv. }
    rewrite E, (proj2 (truthy_true (trim v)) Hv). reflexivity.
  - intros raw H. unfold channelToken. now rewrite H.
  - intros raw seg rest url Hlink Hparse Hseg Hrest. repeat split.
    + intros Hne Hp. now apply (channelToken_channel raw seg rest url).
    + intros Hp. now apply (channelToken_handle raw seg rest url).
    + intros Hne Hp. now apply (channelToken_custom raw seg rest url).
  - intros t. pose proof (matchesChannelId_iff t) as Hid.
    pose proof (startsWith_at t) as Hat.
    pose proof (classifyToken_lower t) as Hlow.
    unfold classifyToken in *.
    destruct (matchesChannelId t).
    + assert (Hy : isChannelIdToken t) by now apply Hid.
      clear Hid Hat. cbn [type value] in *. intuition congruence.
    + assert (Hnid : ~ isChannelIdToken t).
      { intros H. apply Hid in H. discriminate. }
      clear Hid. destruct (startsWith t "@").
      * assert (Hy : exists r, t = String "@"%char r) by now apply Hat.
        clear Hat. cbn [type value] in *. intuition congruence.
      * assert (Hn : ~ exists r, t = String "@"%char r).
        { intros H. apply Hat in H. discriminate. }
        clear Hat. cbn [type value] in *. intuition congruence.
Qed.

End ChannelEntries.

(** ** The decision of the Reddit content script *)

Section RedditDecision.
Import Js RedditContent.

Lemma isHomepage_iff (p search : string) :
  isHomepage p search = true <-> p = "" \/ p ∈ feedPaths.
Proof.
  unfold isHomepage, feedPaths.
  repeat rewrite elem_of_cons. rewrite elem_of_nil.
  destruct (String.eqb_spec p "/") as [-> | H1]; [simpl; tauto|].
  destruct (String.eqb_spec p "") as [-> | H2]; [simpl; tauto|].
  destruct (String.eqb_spec p "/hot") as [-> | H3]; [simpl; tauto|].
  destruct (String.eqb_spec p "/best") as [-> | H4]; [simpl; tauto|].
  destruct (String.eqb_spec p "/new") as [-> | H5]; [simpl; tauto|].
  destruct (String.eqb_spec p "/top") as [-> | H6]; [simpl; tauto|].
  destruct (String.eqb_spec p "/r/all") as [-> | H7]; [simpl; tauto|].
  destruct (String.eqb_spec p "/r/popular") as [-> | H8]; [simpl; tauto|].
  simpl. split; [discriminate | tauto].
Qed.

Lemma currentPath_not_empty (location : Url) : currentPath location <> "".
Proof.
  unfold currentPath. rewrite toLowerCase_empty.
  destruct (truthy (pathname location)) eqn:E; [|discriminate].
  now apply truthy_true.
Qed.

(** A forced check on the site shows what [determineBlockReason]
    answers, when the master switch is on. *)
Lemma checkLocation_forced (location : Url) (sc : Script) :
  onReddit location ->
  decisionOf (checkLocation true location sc) =
  if negb (extensionEnabled (state sc)) then clear
  else
    match determineBlockReason sc
            (if truthy (pathname location) then pathname location else "/")
            (search location) with
    | Some r => showing (typeName (type r) +:+ ":" +:+ key r)
    | None => clear
    end.
Proof.
  unfold onReddit, checkLocation. intros ->. cbn [negb andb].
  unfold determineBlockReason, setOverlayState. cbn [state].
  destruct (extensionEnabled (state sc)); cbn [negb]; [|reflexivity].
  destruct (blockReddit (state sc)); cbn [negb]; [|reflexivity].
  cbn [allowedSet].
  repeat match goal with
         | |- context [if ?b then _ else _] =>
             match b with
             | truthy (pathname location) => fail 1
             | _ => destruct b
             end
         end; reflexivity.
Qed.

Lemma determineBlockReason_subreddit (sc : Script) (p search name : string) :
  blockReddit (state sc) = true ->
  extractSubreddit (toLowerCase p) = Some name -> name <> "" ->
  determineBlockReason sc p search =
  if bool_decide (name ∈ allowedSet sc) then None
  else Some (mkReason subreddit name (Some name)).
Proof.
  intros Hb He Hne. unfold determineBlockReason.
  rewrite Hb, He. cbv [negb truthyOpt default from_option id].
  rewrite (proj2 (truthy_true name) Hne). cbn [andb].
  destruct (bool_decide (name ∈ allowedSet sc)); reflexivity.
Qed.

Lemma determineBlockReason_no_subreddit (sc : Script) (p search : string) :
  blockReddit (state sc) = true ->
  truthyOpt (extractSubreddit (toLowerCase p)) = false ->
  determineBlockReason sc p search =
  if isHomepage (toLowerCase p) search
  then Some (mkReason homepage "home" None)
  else Some (mkReason global "other" None).
Proof.
  intros Hb He. unfold determineBlockReason.
  rewrite Hb, He. reflexivity.
Qed.

(** The decisions of a forced check on the community site.  With the
    master switch or the block switch off: clear.  With both on: clear
    when the path names an allow-listed subreddit; showing
    subreddit:<name> when it names a subreddit that is not allow-listed;
    and when it names none, showing homepage for the fixed paths of the
    feeds and showing global for any other path.  So /r/funny is blocked
    as subreddit:funny with an empty allow list and clear once funny is
    allow-listed. *)
Lemma reddit_decision (location : Url) (sc : Script) :
  onReddit location ->
  (extensionEnabled (state sc) = false \/ blockReddit (state sc) = false ->
   decisionOf (checkLocation true location sc) = clear)
  /\ (extensionEnabled (state sc) = true -> blockReddit (state sc) = true ->
      (forall name,
         extractSubreddit (currentPath location) = Some name -> name <> "" ->
         (name ∈ allowedSet sc ->
          decisionOf (checkLocation true location sc) = clear)
         /\ (name ∉ allowedSet sc ->
             decisionOf (checkLocation true location sc)
               = showing ("subreddit:" +:+ name)))
      /\ (truthyOpt (extractSubreddit (currentPath location)) = false ->
          (currentPath location ∈ feedPaths ->
           decisionOf (checkLocation true location sc)
             = showing "homepage:home")
          /\ (currentPath location ∉ feedPaths ->
              decisionOf (checkLocation true location sc)
                = showing "global:other")))
  /\ decisionOf (checkLocation true (redditPage "/r/funny")
                   (scriptWith [] true true)) = showing "subreddit:funny"
  /\ decisionOf (checkLocation true (redditPage "/r/funny")
                   (scriptWith ["funny"] true true)) = clear.
Proof.
  intros Hsite. pose proof (checkLocation_forced location sc Hsite) as Hc.
  split; [|split; [|split; vm_compute; reflexivity]].
  - intros [Hoff | Hoff]; rewrite Hc.
    + now rewrite Hoff.
    + destruct (extensionEnabled (state sc)); [|reflexivity]. cbn [negb].
      unfold determineBlockReason. now rewrite Hoff.
  - intros Hon Hblock. rewrite Hon in Hc. cbn [negb] in Hc.
    unfold currentPath. split.
    + intros name Hname Hne.
      rewrite (determineBlockReason_subreddit sc _ _ name Hblock Hname Hne)
        in Hc.
      split; intros Hin; rewrite Hc.
      * now rewrite bool_decide_eq_true_2.
      * now rewrite bool_decide_eq_false_2.
    + intros Hnone.
      rewrite (determineBlockReason_no_subreddit sc _ _ Hblock Hnone) in Hc.
      pose proof (isHomepage_iff
                    (toLowerCase (if truthy (pathname location)
                                  then pathname location else "/"))
                    (search location)) as Hh.
      pose proof (currentPath_not_empty location) as Hne.
      unfold currentPath in Hne.
      split; intros Hin; rewrite Hc.
      * rewrite (proj2 Hh) by now right. reflexivity.
      * destruct (isHomepage _ _); [|reflexivity].
        exfalso. destruct (proj1 Hh eq_refl); contradiction.
Qed.

(** C6. The feeds /r/all and /r/popular are not decided as the
    homepage.  [isHomepage] lists both paths, but [determineBlockReason]
    asks [extractSubreddit] first, which reads them as the subreddits
    all and popular: with both switches on and an empty allow list the
    page shows subreddit:all and subreddit:popular, and the branch of
    [isHomepage] for them is never reached.  The other five feed paths
    are decided as the homepage. *)
Theorem aggregate_subreddit_paths :
  isHomepage "/r/all" "" = true
  /\ isHomepage "/r/popular" "" = true
  /\ extractSubreddit "/r/all" = Some "all"
  /\ extractSubreddit "/r/popular" = Some "popular"
  /\ decisionOf (checkLocation true (redditPage "/r/all")
                   (scriptWith [] true true)) = showing "subreddit:all"
  /\ decisionOf (checkLocation true (redditPage "/r/popular")
                   (scriptWith [] true true)) = showing "subreddit:popular"
  /\ decisionOf (checkLocation true (redditPage "/r/all")
                   (scriptWith [] true true)) <> showing "homepage:home"
  /\ decisionOf (checkLocation true (redditPage "/r/popular")
                   (scriptWith [] true true)) <> showing "homepage:home"
  /\ decisionOf (checkLocation true (redditPage "/r/all")
                   (scriptWith ["all"] true true)) = clear
  /\ Forall
       (fun path =>
          decisionOf (checkLocation true (redditPage path)
                        (scriptWith [] true true)) = showing "homepage:home")
       ["/"; "/hot"; "/best"; "/new"; "/top"].
Proof.
  repeat match goal with |- _ /\ _ => split end;
    match goal with
    | |- _ = _ => vm_compute; reflexivity
    | |- _ <> _ => vm_compute; discriminate
    | |- Forall _ _ =>
        repeat (apply Forall_cons; split; [vm_compute; reflexivity|]);
        constructor
    end.
Qed.

End RedditDecision.

(** ** The video check of the background worker *)

Section VideoCheck.
Import Js Background.

Variable parseUrl : string -> option Url.

(** Reading the credential sends no lookup and leaves the caches, the
    storage and the clock alone; it does not throw. *)
Lemma getYoutubeApiKeyFromEnv_frame (w : World) :
  exists key w',
    getYoutubeApiKeyFromEnv w = (Ok key, w')
    /\ lookups w' = lookups w
    /\ channelLookups w' = channelLookups w
    /\ youtubeVideoCache w' = youtubeVideoCache w
    /\ youtubeChannelCache w' = youtubeChannelCache w
    /\ storage w' = storage w
    /\ now w' = now w
    /\ videosEndpoint w' = videosEndpoint w
    /\ channelsEndpoint w' = channelsEndpoint w.
Proof.
  unfold getYoutubeApiKeyFromEnv, loadEnvValues, bind, gets, modify, ret,
    lookups, channelLookups.
  destruct (envValuesPromise w) as [values|].
  - destruct (mapGet ENV_YOUTUBE_KEY values) as [key|];
      [destruct (truthy key)|]; cbn;
      do 2 eexists; repeat split; reflexivity.
  - cbn.
    destruct (mapGet ENV_YOUTUBE_KEY
                match envFile w with
                | Some text => parseEnvFile text
                | None => []
                end) as [key|];
      [destruct (truthy key)|]; cbn;
      do 2 eexists; (split; [reflexivity|]); cbn;
      rewrite ?List.filter_app; cbn; rewrite ?app_nil_r;
      repeat split; reflexivity.
Qed.

(** Resolving the owner of a video sends no channel lookup and leaves
    the channel cache and the storage alone. *)
Lemma fetchYouTubeVideoInfo_frame (videoId apiKey : string) (w : World) :
  channelLookups (snd (fetchYouTubeVideoInfo videoId apiKey w))
    = channelLookups w
  /\ youtubeChannelCache (snd (fetchYouTubeVideoInfo videoId apiKey w))
     = youtubeChannelCache w.
Proof.
  unfold fetchYouTubeVideoInfo, fetchVideos, bind, gets, modify, ret, throw,
    channelLookups.
  cbn.
  assert (Hlog : List.filter isChannelLookup
                   (requests w ++ [VideosRequest videoId apiKey])
                 = List.filter isChannelLookup (requests w)).
  { rewrite List.filter_app. cbn. apply app_nil_r. }
  destruct (mapGet videoId (youtubeVideoCache w)) as [c|];
    [destruct (now w - timestamp c <? YOUTUBE_CACHE_TTL_MS)%Z;
       [split; reflexivity|]|];
    destruct (videosEndpoint w (now w) videoId apiKey) as [delay [|st tx|item]];
    cbn; try (destruct ((st =? 400)%Z || (st =? 403)%Z)); cbn;
    (split; [exact Hlog | reflexivity]).
Qed.

Lemma bind_gets {A B} (f : World -> A) (k : A -> Async B) (w : World) :
  bind (gets f) k w = k (f w) w.
Proof. reflexivity. Qed.

Lemma bind_ok {A B} (m : Async A) (k : A -> Async B) (w w' : World) (a : A) :
  m w = (Ok a, w') -> bind m k w = k a w'.
Proof. unfold bind. now intros ->. Qed.

Lemma bind_throw {A B} (m : Async A) (k : A -> Async B) (w w' : World)
  (e : Error) :
  m w = (Throw e, w') -> bind m k w = (Throw e, w').
Proof. unfold bind. now intros ->. Qed.

(** C5. [handleYouTubeVideoCheck] allows the video with the reason
    invalid-video-id when the video id is blank; otherwise with
    extension-disabled when the master switch is off; otherwise with
    no-blocked-channels when no entry is left after normalisation;
    otherwise with missing-api-key when no credential is available.  In
    these four cases no request goes to the lookup service.  The channel
    lookup is made only when some entry is of type handle. *)
Theorem handleYouTubeVideoCheck_short_circuits (w : World)
  (messageVideoId : option string) :
  let videoId := trim (default "" messageVideoId) in
  let outcome := handleYouTubeVideoCheck parseUrl messageVideoId w in
  (videoId = "" ->
   outcome = (Ok (mkVerdict true invalid_video_id None None), w))
  /\ (videoId <> "" ->
      normalizeBoolean (extensionEnabled (storage w)) = false ->
      outcome = (Ok (mkVerdict true extension_disabled None None), w))
  /\ (videoId <> "" ->
      normalizeBoolean (extensionEnabled (storage w)) = true ->
      normalizedEntries parseUrl w = [] ->
      outcome = (Ok (mkVerdict true no_blocked_channels None None), w))
  /\ (videoId <> "" ->
      normalizeBoolean (extensionEnabled (storage w)) = true ->
      normalizedEntries parseUrl w <> [] ->
      fst (getYoutubeApiKeyFromEnv w) = Ok "" ->
      fst outcome = Ok (mkVerdict true missing_api_key None None)
      /\ lookups (snd outcome) = lookups w
      /\ youtubeVideoCache (snd outcome) = youtubeVideoCache w
      /\ youtubeChannelCache (snd outcome) = youtubeChannelCache w)
  /\ (existsb isHandleEntry (normalizedEntries parseUrl w) = false ->
      channelLookups (snd outcome) = channelLookups w
      /\ youtubeChannelCache (snd outcome) = youtubeChannelCache w).
Proof.
  cbv zeta. unfold handleYouTubeVideoCheck, normalizedEntries.
  destruct (truthy (trim (default "" messageVideoId))) eqn:Hid; cbn [negb].
  2:{ apply truthy_false in Hid.
      repeat split; intros; try reflexivity; try discriminate;
        contradiction. }
  apply truthy_true in Hid.
  split; [intros; contradiction|].
  rewrite bind_gets.
  destruct (normalizeBoolean (extensionEnabled (storage w))) eqn:Hen;
    cbn [negb].
  2:{ repeat split; intros; try reflexivity; discriminate. }
  split; [intros; discriminate|].
  destruct (omap (normalizeYouTubeChannelEntry parseUrl)
              (blockedYouTubeChannels (storage w))) as [|e entries] eqn:Hent.
  { repeat split; intros; try reflexivity; try discriminate;
      contradiction. }
  split; [intros; discriminate|].
  cbn [length Nat.eqb].
  destruct (getYoutubeApiKeyFromEnv_frame w)
    as (key & w1 & Hkey & Hl & Hcl & Hvc & Hcc & _).
  rewrite (bind_ok _ _ _ _ _ Hkey).
  destruct (truthy key) eqn:Hk; cbn [negb].
  2:{ apply truthy_false in Hk. subst key. unfold ret. cbn [fst snd].
      split; [|split]; intros; auto. }
  split.
  { intros _ _ _ Hno. rewrite Hkey in Hno. cbn [fst] in Hno.
    injection Hno as ->. discriminate. }
  intros Hnone. unfold isHandleEntry in Hnone.
  destruct (fetchYouTubeVideoInfo_frame
              (trim (default "" messageVideoId)) key w1) as [Hf1 Hf2].
  destruct (fetchYouTubeVideoInfo (trim (default "" messageVideoId)) key w1)
    as [[[info|]|err] w2] eqn:Hfetch; cbn [snd] in Hf1, Hf2.
  - rewrite (bind_ok _ _ _ _ _ Hfetch). rewrite Hnone.
    unfold bind, ret. cbn [snd]. split; congruence.
  - rewrite (bind_ok _ _ _ _ _ Hfetch). unfold ret. cbn [snd].
    split; congruence.
  - rewrite (bind_throw _ _ _ _ _ Hfetch). cbn [snd]. split; congruence.
Qed.

(** End to end: a video of a channel that the block list names by its
    id is refused, after one request to the videos endpoint and none to
    the channels endpoint. *)
Example video_check_end_to_end :
  handleYouTubeVideoCheck exampleParseUrl (Some "dQw4w9WgXcQ")
    exampleWorldWithKey
  = (Ok (mkVerdict false channel_blocked
           (Some "UCabcdefghijklmnopqrstuv") (Some "Example")),
     mkWorld
       [("dQw4w9WgXcQ",
         mkCached 1000
           (Some (mkVideoInfo "UCabcdefghijklmnopqrstuv" "Example")))]
       [] (Some [("YOUTUBE_API_KEY", "abc")]) 1005
       (storage exampleWorldWithKey)
       (videosEndpoint exampleWorldWithKey)
       (channelsEndpoint exampleWorldWithKey)
       (envFile exampleWorldWithKey)
       [EnvFileRequest; VideosRequest "dQw4w9WgXcQ" "abc"]).
Proof. vm_compute. reflexivity. Qed.

End VideoCheck.

(** ** The lookup caches *)

Section CacheFacts.
Import Js Background.

Context {A : Type}.

Lemma mapGet_mapSet_same (k : string) (v : Cached A) (m : JsMap (Cached A)) :
  mapGet k (mapSet k v m) = Some v.
Proof.
  induction m as [|[k' v'] m IH]; simpl.
  - now rewrite String.eqb_refl.
  - destruct (String.eqb_spec k' k) as [-> | Hne]; simpl.
    + now rewrite String.eqb_refl.
    + destruct (String.eqb_spec k' k); [contradiction | exact IH].
Qed.

Lemma mapGet_mapDelete_other (k k' : string) (m : JsMap (Cached A)) :
  k <> k' -> mapGet k' (mapDelete k m) = mapGet k' m.
Proof.
  intros Hne. induction m as [|[k0 v0] m IH]; simpl; [reflexivity|].
  destruct (String.eqb_spec k0 k) as [-> | H0]; simpl.
  - destruct (String.eqb_spec k k'); [contradiction | reflexivity].
  - now rewrite IH.
Qed.

Lemma mapGet_None_keys (k : string) (m : JsMap (Cached A)) :
  mapGet k m = None <-> k ∉ keys m.
Proof.
  unfold keys. induction m as [|[k' v'] m IH]; simpl.
  - rewrite elem_of_nil. tauto.
  - rewrite not_elem_of_cons.
    destruct (String.eqb_spec k' k) as [-> | Hne].
    + split; [discriminate | tauto].
    + rewrite IH. split; [intros ?; split; [congruence | assumption] | tauto].
Qed.

Lemma mapSet_fresh (k : string) (v : Cached A) (m : JsMap (Cached A)) :
  mapGet k m = None -> mapSet k v m = m ++ [(k, v)].
Proof.
  induction m as [|[k' v'] m IH]; simpl; [reflexivity|].
  destruct (String.eqb k' k); [discriminate|].
  intros H. now rewrite (IH H).
Qed.

Lemma length_mapSet_present (k : string) (v c : Cached A)
  (m : JsMap (Cached A)) :
  mapGet k m = Some c -> length (mapSet k v m) = length m.
Proof.
  induction m as [|[k' v'] m IH]; simpl; [discriminate|].
  destruct (String.eqb k' k); simpl; [reflexivity|].
  intros H. now rewrite (IH H).
Qed.

Lemma keys_mapDelete (k : string) (m : JsMap (Cached A)) :
  k ∈ keys m -> keys m ≡ₚ k :: keys (mapDelete k m).
Proof.
  unfold keys. induction m as [|[k' v'] m IH]; simpl.
  - intros H. now apply elem_of_nil in H.
  - destruct (String.eqb_spec k' k) as [-> | Hne]; [reflexivity|].
    intros H. apply elem_of_cons in H as [-> | H]; [contradiction|].
    simpl. rewrite (IH H) at 1. apply Permutation_swap.
Qed.

Lemma elem_of_mapDelete (k : string) (m : JsMap (Cached A))
  (x : string * Cached A) :
  x ∈ mapDelete k m -> x ∈ m.
Proof.
  induction m as [|[k' v'] m IH]; simpl; [trivial|].
  destruct (String.eqb k' k).
  - intros H. now right.
  - intros H. apply elem_of_cons in H as [-> | H]; [now left|].
    right. now apply IH.
Qed.



Lemma NoDup_keys_mapDelete (k : string) (m : JsMap (Cached A)) :
  NoDup (keys m) -> NoDup (keys (mapDelete k m)).
Proof.
  unfold keys. induction m as [|[k' v'] m IH]; simpl; [trivial|].
  intros Hnd. apply NoDup_cons in Hnd as [Hk' Hnd].
  destruct (String.eqb k' k); [exact Hnd|].
  simpl. apply NoDup_cons. split; [|now apply IH].
  intros H. apply Hk'. apply list_elem_of_fmap in H as (x & -> & Hx).
  apply list_elem_of_fmap_2. now apply elem_of_mapDelete in Hx.
Qed.

(** The sort of the entries is a stable insertion sort: a permutation,
    in the order of the timestamps. *)
Lemma insertByTimestamp_perm (x : string * Cached A)
  (l : list (string * Cached A)) :
  insertByTimestamp x l ≡ₚ x :: l.
Proof.
  induction l as [|y l IH]; simpl; [reflexivity|].
  destruct (timestamp (snd x) <=? timestamp (snd y))%Z; [reflexivity|].
  rewrite IH. apply Permutation_swap.
Qed.

Lemma sortByTimestamp_perm (l : list (string * Cached A)) :
  sortByTimestamp l ≡ₚ l.
Proof.
  induction l as [|x l IH]; simpl; [reflexivity|].
  now rewrite insertByTimestamp_perm, IH.
Qed.



(** A new youngest entry at the end of the map stays at the end. *)
Lemma insertByTimestamp_last (x new : string * Cached A)
  (l : list (string * Cached A)) :
  olderEq x new ->
  insertByTimestamp x (l ++ [new]) = insertByTimestamp x l ++ [new].
Proof.
  unfold olderEq. intros Hx. induction l as [|y l IH]; simpl.
  - destruct (Z.leb_spec (timestamp (snd x)) (timestamp (snd new)));
      [reflexivity | lia].
  - destruct (timestamp (snd x) <=? timestamp (snd y))%Z; [reflexivity|].
    now rewrite IH.
Qed.

Lemma sortByTimestamp_last (new : string * Cached A)
  (l : list (string * Cached A)) :
  Forall (fun x => olderEq x new) l ->
  sortByTimestamp (l ++ [new]) = sortByTimestamp l ++ [new].
Proof.
  induction l as [|x l IH]; simpl; intros H; [reflexivity|].
  apply Forall_cons in H as [Hx Hl].
  rewrite (IH Hl). now apply insertByTimestamp_last.
Qed.

(** Each round of the pruning loop removes one entry. *)
Lemma pruneLoop_length (maxEntries : nat) (es : list (string * Cached A))
  (c : JsMap (Cached A)) :
  keys es ⊆+ keys c ->
  (length (pruneLoop maxEntries es c)
   <= Nat.max maxEntries (length c - length es))%nat.
Proof.
  revert c. induction es as [|[k v] es IH]; intros c Hsub; simpl.
  - lia.
  - destruct (Nat.ltb_spec maxEntries (length c)) as [Hlt | Hge]; [|lia].
    assert (Hk : k ∈ keys c).
    { eapply elem_of_submseteq; [|exact Hsub]. now left. }
    pose proof (keys_mapDelete k c Hk) as Hperm.
    assert (Hlen : length c = S (length (mapDelete k c))).
    { apply Permutation_length in Hperm. unfold keys in Hperm.
      simpl in Hperm. rewrite !length_fmap in Hperm. exact Hperm. }
    assert (Hsub' : keys es ⊆+ keys (mapDelete k c)).
    { apply (submseteq_app_inv_l _ _ [k]). simpl.
      now rewrite <- Hperm. }
    specialize (IH _ Hsub'). lia.
Qed.

(** After pruning, a cache holds at most its maximum of entries. *)
Lemma pruneCache_length (maxEntries : nat) (c : JsMap (Cached A)) :
  (length (pruneCache maxEntries c) <= maxEntries)%nat.
Proof.
  unfold pruneCache.
  destruct (Nat.leb_spec (length c) maxEntries) as [Hle | Hgt]; [exact Hle|].
  pose proof (sortByTimestamp_perm c) as Hperm.
  assert (Hsub : keys (sortByTimestamp c) ⊆+ keys c).
  { apply Permutation_submseteq. unfold keys. now rewrite Hperm. }
  pose proof (pruneLoop_length maxEntries _ c Hsub) as H.
  apply Permutation_length in Hperm. lia.
Qed.

Lemma pruneLoop_subset (maxEntries : nat) (es : list (string * Cached A))
  (c : JsMap (Cached A)) (x : string * Cached A) :
  x ∈ pruneLoop maxEntries es c -> x ∈ c.
Proof.
  revert c. induction es as [|[k v] es IH]; intros c; simpl; [trivial|].
  destruct (maxEntries <? length c)%nat; [|trivial].
  intros H. apply IH in H. now apply elem_of_mapDelete in H.
Qed.



(** The entry just stored survives the pruning, when no entry of the
    cache is younger. *)
Lemma pruneCache_keeps_new (maxEntries : nat) (c : JsMap (Cached A))
  (k : string) (new : Cached A) :
  (0 < maxEntries)%nat -> (length c <= maxEntries)%nat ->
  Forall (fun x => olderEq x (k, new)) c ->
  mapGet k (pruneCache maxEntries (mapSet k new c)) = Some new.
Proof.
  intros Hpos Hlen Hold. unfold pruneCache.
  destruct (mapGet k c) as [old|] eqn:Hget.
  - rewrite (length_mapSet_present k new old c Hget).
    destruct (Nat.leb_spec (length c) maxEntries); [|lia].
    apply mapGet_mapSet_same.
  - pose proof (mapGet_mapSet_same k new c) as Hnew.
    rewrite (mapSet_fresh k new c Hget) in *.
    rewrite length_app. simpl.
    destruct (Nat.leb_spec (length c + 1) maxEntries); [exact Hnew|].
    rewrite (sortByTimestamp_last (k, new) c Hold).
    pose proof (sortByTimestamp_perm c) as Hperm.
    destruct (sortByTimestamp c) as [|[k1 v1] rest] eqn:Hsort.
    { apply Permutation_length in Hperm. simpl in Hperm. lia. }
    assert (Hk1 : k1 ∈ keys c).
    { unfold keys. rewrite <- Hperm. simpl. now left. }
    assert (Hne : k1 <> k).
    { intros ->. now apply mapGet_None_keys in Hget. }
    assert (Hk1' : k1 ∈ keys (c ++ [(k, new)])).
    { unfold keys. rewrite fmap_app. apply elem_of_app. now left. }
    pose proof (keys_mapDelete k1 _ Hk1') as Hp.
    apply Permutation_length in Hp. unfold keys in Hp. simpl in Hp.
    rewrite !length_fmap, length_app in Hp. simpl in Hp.
    simpl.
    rewrite length_app. simpl.
    destruct (Nat.ltb_spec maxEntries (length c + 1)); [|lia].
    assert (Hstop : forall es,
              pruneLoop maxEntries es (mapDelete k1 (c ++ [(k, new)]))
              = mapDelete k1 (c ++ [(k, new)])).
    { intros [|[k2 v2] es]; simpl; [reflexivity|].
      destruct (maxEntries <? length (mapDelete k1 (c ++ [(k, new)])))%nat
        eqn:E; [apply Nat.ltb_lt in E; lia | reflexivity]. }
    rewrite Hstop, (mapGet_mapDelete_other k1 k _ Hne). exact Hnew.
Qed.







End CacheFacts.

Section CachedLookups.
Import Js Background.

Lemma fetchYouTubeVideoInfo_hit (videoId apiKey : string) (w : World)
  (c : Cached (option VideoInfo)) :
  mapGet videoId (youtubeVideoCache w) = Some c ->
  (now w - timestamp c < YOUTUBE_CACHE_TTL_MS)%Z ->
  fetchYouTubeVideoInfo videoId apiKey w = (Ok (data c), w).
Proof.
  intros Hget Hfresh.
  unfold fetchYouTubeVideoInfo. rewrite !bind_gets, Hget.
  destruct (Z.ltb_spec (now w - timestamp c) YOUTUBE_CACHE_TTL_MS); [|lia].
  reflexivity.
Qed.


(** Without a fresh entry the lookup goes to the network once. *)
Lemma fetchYouTubeVideoInfo_miss (videoId apiKey : string) (w : World) :
  noFresh YOUTUBE_CACHE_TTL_MS (now w) videoId (youtubeVideoCache w) ->
  fst (fetchYouTubeVideoInfo videoId apiKey w)
    = videoOutcome (snd (videosEndpoint w (now w) videoId apiKey))
  /\ requests (snd (fetchYouTubeVideoInfo videoId apiKey w))
     = requests w ++ [VideosRequest videoId apiKey]
  /\ forall item,
       snd (videosEndpoint w (now w) videoId apiKey) = OkJson item ->
       youtubeVideoCache (snd (fetchYouTubeVideoInfo videoId apiKey w))
       = pruneYouTubeVideoCache
           (mapSet videoId (mkCached (now w) (videoInfoOf item))
              (youtubeVideoCache w)).
Proof.
  unfold noFresh, fetchYouTubeVideoInfo. rewrite !bind_gets.
  intros Hno.
  assert (Hmiss :
    match mapGet videoId (youtubeVideoCache w) with
    | Some c => (now w - timestamp c <? YOUTUBE_CACHE_TTL_MS)%Z = false
    | None => True
    end).
  { destruct (mapGet videoId (youtubeVideoCache w)); [|exact I].
    apply Z.ltb_ge. exact Hno. }
  clear Hno.
  destruct (mapGet videoId (youtubeVideoCache w)) as [c|];
    [rewrite Hmiss|];
    unfold bind, fetchVideos, modify, ret, throw;
    destruct (videosEndpoint w (now w) videoId apiKey)
      as [delay [|st tx|item]]; cbn;
    try (destruct ((st =? 400)%Z || (st =? 403)%Z)); cbn;
    (split; [reflexivity|]); (split; [reflexivity|]);
    intros item' [= <-] || (intros item' [=]); reflexivity.
Qed.


Lemma videoCache_length_preserved (videoId apiKey : string) (w : World) :
  (length (youtubeVideoCache w) <= VIDEO_MAX_CACHE_ENTRIES)%nat ->
  (length (youtubeVideoCache (snd (fetchYouTubeVideoInfo videoId apiKey w)))
   <= VIDEO_MAX_CACHE_ENTRIES)%nat.
Proof.
  intros Hlen.
  unfold fetchYouTubeVideoInfo. rewrite !bind_gets.
  destruct (mapGet videoId (youtubeVideoCache w)) as [c|];
    [destruct (now w - timestamp c <? YOUTUBE_CACHE_TTL_MS)%Z;
       [exact Hlen|]|];
    unfold bind, fetchVideos, modify, ret, throw;
    destruct (videosEndpoint w (now w) videoId apiKey)
      as [delay [|st tx|item]]; cbn;
    try (destruct ((st =? 400)%Z || (st =? 403)%Z)); cbn;
    try exact Hlen; apply pruneCache_length.
Qed.


(** Two calls for the same video within the time to live: the second
    one is answered by the cache. *)
Lemma fetchYouTubeVideoInfo_twice (videoId apiKey : string) (w : World)
  (delay : N) (item : option Snippet) (t : Z) :
  videoCacheInv w ->
  noFresh YOUTUBE_CACHE_TTL_MS (now w) videoId (youtubeVideoCache w) ->
  videosEndpoint w (now w) videoId apiKey = (delay, OkJson item) ->
  (t - now w < YOUTUBE_CACHE_TTL_MS)%Z ->
  fst (fetchYouTubeVideoInfo videoId apiKey w) = Ok (videoInfoOf item)
  /\ fetchYouTubeVideoInfo videoId apiKey
       (setNow t (snd (fetchYouTubeVideoInfo videoId apiKey w)))
     = (Ok (videoInfoOf item),
        setNow t (snd (fetchYouTubeVideoInfo videoId apiKey w)))
  /\ requests (snd (fetchYouTubeVideoInfo videoId apiKey w))
     = requests w ++ [VideosRequest videoId apiKey].
Proof.
  intros [Hlen Hold] Hno Hnet Ht.
  destruct (fetchYouTubeVideoInfo_miss videoId apiKey w Hno)
    as (Hres & Hreq & Hcache).
  rewrite Hnet in Hres, Hcache. cbn [snd videoOutcome] in Hres, Hcache.
  specialize (Hcache item eq_refl).
  split; [exact Hres|]. split; [|exact Hreq].
  apply (fetchYouTubeVideoInfo_hit videoId apiKey _
           (mkCached (now w) (videoInfoOf item))).
  - cbn [setNow youtubeVideoCache]. rewrite Hcache.
    unfold pruneYouTubeVideoCache.
    apply pruneCache_keeps_new;
      [unfold VIDEO_MAX_CACHE_ENTRIES; lia | exact Hlen |].
    eapply Forall_impl; [exact Hold|]. intros x Hx. exact Hx.
  - cbn [setNow now timestamp]. exact Ht.
Qed.

Lemma NoDup_keys_mapSet {A} (k : string) (v : Cached A)
  (m : JsMap (Cached A)) :
  NoDup (keys m) -> NoDup (keys (mapSet k v m)).
Proof.
  unfold keys. induction m as [|[k' v'] m IH]; simpl; intros Hnd.
  - apply NoDup_singleton.
  - apply NoDup_cons in Hnd as [Hk' Hnd].
    destruct (String.eqb_spec k' k) as [-> | Hne]; simpl.
    + now apply NoDup_cons.
    + apply NoDup_cons. split; [|now apply IH].
      intros H. apply list_elem_of_fmap in H as ([k2 v2] & Hk2 & Hin).
      simpl in Hk2. subst k2. apply Hk'.
      clear IH Hk' Hnd. induction m as [|[k3 v3] m IHm]; simpl in *.
      * apply list_elem_of_singleton in Hin. congruence.
      * destruct (String.eqb k3 k); simpl in *.
        -- apply elem_of_cons in Hin as [[= <- _] | Hin];
             [now left | now right; apply (list_elem_of_fmap_2 fst _ (k', v2))].
        -- apply elem_of_cons in Hin as [[= <- _] | Hin];
             [now left | right; now apply IHm].
Qed.

Lemma NoDup_keys_pruneCache {A} (maxEntries : nat) (c : JsMap (Cached A)) :
  NoDup (keys c) -> NoDup (keys (pruneCache maxEntries c)).
Proof.
  unfold pruneCache. destruct (length c <=? maxEntries)%nat; [trivial|].
  generalize (sortByTimestamp c). intros es. revert c.
  induction es as [|[k v] es IH]; intros c Hc; simpl; [exact Hc|].
  destruct (maxEntries <? length c)%nat; [|exact Hc].
  apply IH. now apply NoDup_keys_mapDelete.
Qed.

Lemma elem_of_mapSet {A} (k : string) (v : Cached A) (m : JsMap (Cached A))
  (x : string * Cached A) :
  x ∈ mapSet k v m -> x ∈ m \/ snd x = v.
Proof.
  induction m as [|[k' v'] m IH]; simpl.
  - intros H. apply list_elem_of_singleton in H. subst x. now right.
  - destruct (String.eqb k' k); intros H;
      apply elem_of_cons in H as [-> | H].
    + now right.
    + left. now right.
    + left. now left.
    + destruct (IH H) as [? | ?]; [left; now right | now right].
Qed.

(** The invariant of the video cache is kept by every lookup, and with
    it the distinctness of the keys: the clock only advances. *)
Lemma videoCacheInv_preserved (videoId apiKey : string) (w : World) :
  videoCacheInv w -> NoDup (keys (youtubeVideoCache w)) ->
  videoCacheInv (snd (fetchYouTubeVideoInfo videoId apiKey w))
  /\ NoDup (keys (youtubeVideoCache
                    (snd (fetchYouTubeVideoInfo videoId apiKey w)))).
Proof.
  intros [Hlen Hold] Hnd.
  pose proof (videoCache_length_preserved videoId apiKey w Hlen) as Hlen'.
  unfold videoCacheInv. split; [split; [exact Hlen'|]|]; clear Hlen'.
  - unfold fetchYouTubeVideoInfo. rewrite !bind_gets.
    destruct (mapGet videoId (youtubeVideoCache w)) as [c|];
      [destruct (now w - timestamp c <? YOUTUBE_CACHE_TTL_MS)%Z;
         [exact Hold|]|];
      unfold bind, fetchVideos, modify, ret, throw;
      destruct (videosEndpoint w (now w) videoId apiKey)
        as [delay [|st tx|item]]; cbn;
      try (destruct ((st =? 400)%Z || (st =? 403)%Z)); cbn;
      try (eapply Forall_impl; [exact Hold|]; cbn; intros; lia);
      apply Forall_forall; intros x Hx;
      unfold pruneYouTubeVideoCache, pruneCache in Hx;
      (destruct (length _ <=? VIDEO_MAX_CACHE_ENTRIES)%nat;
         [|apply pruneLoop_subset in Hx]);
      (apply elem_of_mapSet in Hx as [Hx | ->];
         [rewrite Forall_forall in Hold; specialize (Hold x Hx)|]);
      cbn; lia.
  - unfold fetchYouTubeVideoInfo. rewrite !bind_gets.
    destruct (mapGet videoId (youtubeVideoCache w)) as [c|];
      [destruct (now w - timestamp c <? YOUTUBE_CACHE_TTL_MS)%Z;
         [exact Hnd|]|];
      unfold bind, fetchVideos, modify, ret, throw;
      destruct (videosEndpoint w (now w) videoId apiKey)
        as [delay [|st tx|item]]; cbn;
      try (destruct ((st =? 400)%Z || (st =? 403)%Z)); cbn;
      try exact Hnd;
      apply NoDup_keys_pruneCache, NoDup_keys_mapSet, Hnd.
Qed.



End CachedLookups.

(** ** Identifiers of the compiled rules *)

Section RuleIdentifiers.
Import Js Background.

Lemma ids_hostRules (l : list string) :
  id <$> imap hostRule l = (fun i => 10000 + Z.of_nat i)%Z <$> seq 0 (length l).
Proof.
  rewrite <- imap_seq_0. rewrite fmap_imap. reflexivity.
Qed.

Lemma ids_allowRules (l : list string) :
  id <$> imap allowRule l = (fun i => 30000 + Z.of_nat i)%Z <$> seq 0 (length l).
Proof.
  rewrite <- imap_seq_0. rewrite fmap_imap. reflexivity.
Qed.

Lemma NoDup_offsets (off : Z) (n : nat) :
  NoDup ((fun i => off + Z.of_nat i)%Z <$> seq 0 n).
Proof.
  apply NoDup_fmap_2; [|apply NoDup_seq].
  intros i j H. lia.
Qed.

Lemma elem_of_offsets (off x : Z) (n : nat) :
  x ∈ (fun i => off + Z.of_nat i)%Z <$> seq 0 n
  <-> (off <= x < off + Z.of_nat n)%Z.
Proof.
  rewrite list_elem_of_fmap. split.
  - intros (i & -> & Hi). apply elem_of_seq in Hi. lia.
  - intros H. exists (Z.to_nat (x - off)). split; [lia|].
    apply elem_of_seq. lia.
Qed.

(** X1. The identifiers of the compiled rules are pairwise distinct
    as long as there are at most 10000 distinct blocked hosts: the
    block rules of the hosts take the identifiers from 10000 on, the
    Reddit rule takes 20000 and the allow rules take those from 30000
    on. *)
Theorem compiledRules_ids_distinct (state : State) :
  (Z.of_nat (length (distinctHosts state)) <= 10000)%Z ->
  NoDup (id <$> compiledRules state)
  /\ forall r, r ∈ compiledRules state ->
       match action r with
       | block => (10000 <= id r <= 20000)%Z
       | allow => (30000 <= id r)%Z
       end.
Proof.
  intros Hn. rewrite compiledRules_shape.
  destruct (normalizeBoolean (blockReddit state)).
  - split.
    + rewrite fmap_app, fmap_cons, ids_hostRules, ids_allowRules.
      apply NoDup_app. split; [apply NoDup_offsets|]. split.
      * intros x Hx Hin. apply elem_of_offsets in Hx.
        apply elem_of_cons in Hin as [-> | Hin].
        -- cbn in Hx. lia.
        -- apply elem_of_offsets in Hin. lia.
      * apply NoDup_cons. split; [|apply NoDup_offsets].
        intros Hin. apply elem_of_offsets in Hin. cbn in Hin. lia.
    + intros r Hr. apply elem_of_app in Hr as [Hr | Hr].
      * apply elem_of_lookup_imap in Hr as (i & h & -> & Hi).
        apply lookup_lt_Some in Hi. cbn. lia.
      * apply elem_of_cons in Hr as [-> | Hr]; [cbn; lia|].
        apply elem_of_lookup_imap in Hr as (i & h & -> & Hi). cbn. lia.
  - split.
    + rewrite ids_hostRules. apply NoDup_offsets.
    + intros r Hr.
      apply elem_of_lookup_imap in Hr as (i & h & -> & Hi).
      apply lookup_lt_Some in Hi. cbn. lia.
Qed.

(** The bound is needed: the host of index 10000 gets the identifier of
    the Reddit rule. *)
Lemma compiledRules_ids_collide (state : State) :
  normalizeBoolean (blockReddit state) = true ->
  (10000 < Z.of_nat (length (distinctHosts state)))%Z ->
  ~ NoDup (id <$> compiledRules state).
Proof.
  intros Hb Hn. rewrite compiledRules_shape, Hb.
  rewrite fmap_app, fmap_cons, ids_hostRules.
  intros H. apply NoDup_app in H as (_ & H & _).
  apply (H 20000%Z).
  - apply elem_of_offsets. lia.
  - left.
Qed.

End RuleIdentifiers.

(** ** The sweep of the open tabs *)

Section OpenTabs.
Import Js Background.

Variable parseUrl : string -> option Url.

Lemma lockScroll_frame (w : ScrollLock.Window) :
  ScrollLock.overlays (ScrollLock.lockScroll w) = ScrollLock.overlays w
  /\ ScrollLock.siteOverlayFlag (ScrollLock.lockScroll w)
     = ScrollLock.siteOverlayFlag w
  /\ (ScrollLock.body (ScrollLock.lockScroll w) = None
      <-> ScrollLock.body w = None)
  /\ (ScrollLock.documentElement (ScrollLock.lockScroll w) = None
      <-> ScrollLock.documentElement w = None).
Proof.
  destruct w as [[st|] [d|] [b|] li ov fl]; unfold ScrollLock.lockScroll;
    cbn; try destruct (ScrollLock.count st =? 0)%Z; cbn;
    repeat split; intros; try discriminate; reflexivity.
Qed.

Lemma window_eta (w : ScrollLock.Window) :
  ScrollLock.setSiteOverlayFlag (ScrollLock.siteOverlayFlag w)
    (ScrollLock.setOverlays (ScrollLock.overlays w) w) = w.
Proof. now destruct w. Qed.

Lemma removeSiteOverlayInPage_idem (w : ScrollLock.Window) :
  removeSiteOverlayInPage (removeSiteOverlayInPage w)
  = removeSiteOverlayInPage w.
Proof.
  destruct (removeSiteOverlayInPage_clears w) as [Ho Hf].
  set (w1 := removeSiteOverlayInPage w) in *. clearbody w1.
  unfold removeSiteOverlayInPage. rewrite Ho.
  rewrite bool_decide_eq_false_2 by (intros [? ?]; discriminate).
  rewrite <- Hf. destruct w1; reflexivity.
Qed.

(** What the injected function leaves on a document with a root. *)
Lemma applySiteOverlayInPage_shows (host : string) (w : ScrollLock.Window) :
  ScrollLock.body w <> None \/ ScrollLock.documentElement w <> None ->
  ScrollLock.overlays (applySiteOverlayInPage host w) !! SITE_OVERLAY_ID
    = Some (siteMessage host)
  /\ ScrollLock.siteOverlayFlag (applySiteOverlayInPage host w) = true
  /\ (ScrollLock.body (applySiteOverlayInPage host w) = None
      <-> ScrollLock.body w = None)
  /\ (ScrollLock.documentElement (applySiteOverlayInPage host w) = None
      <-> ScrollLock.documentElement w = None).
Proof.
  intros Hroot. unfold applySiteOverlayInPage.
  destruct (ScrollLock.body w) as [b|] eqn:Hb,
    (ScrollLock.documentElement w) as [d|] eqn:Hd;
    try (destruct Hroot; congruence);
    (destruct (bool_decide _);
     unfold ScrollLock.setSiteOverlayFlag;
     cbn [ScrollLock.overlays ScrollLock.siteOverlayFlag ScrollLock.body
            ScrollLock.documentElement];
     [|match goal with
       | |- context [ScrollLock.lockScroll ?x] =>
           destruct (lockScroll_frame x) as (-> & _ & -> & ->)
       end]; cbn; rewrite ?Hb, ?Hd, lookup_insert_eq;
     repeat split; intros; try discriminate; reflexivity).
Qed.

Lemma applySiteOverlayInPage_idem (host : string) (w : ScrollLock.Window) :
  applySiteOverlayInPage host (applySiteOverlayInPage host w)
  = applySiteOverlayInPage host w.
Proof.
  destruct (ScrollLock.body w) as [b|] eqn:Hb.
  2: destruct (ScrollLock.documentElement w) as [d|] eqn:Hd.
  3:{ unfold applySiteOverlayInPage at 2. rewrite Hb, Hd.
      unfold applySiteOverlayInPage. now rewrite Hb, Hd. }
  all: assert (Hroot : ScrollLock.body w <> None
                       \/ ScrollLock.documentElement w <> None)
         by (rewrite ?Hb, ?Hd; auto; (left + right); discriminate).
  all: destruct (applySiteOverlayInPage_shows host w Hroot)
         as (Ho & Hf & Hbi & Hdi).
  all: set (w1 := applySiteOverlayInPage host w) in *; clearbody w1.
  all: unfold applySiteOverlayInPage; rewrite Ho.
  all: rewrite bool_decide_eq_true_2 by eauto.
  all: rewrite insert_id by exact Ho.
  all: rewrite <- Hf.
  all: destruct (ScrollLock.body w1) eqn:Hb1,
         (ScrollLock.documentElement w1) eqn:Hd1;
         try apply window_eta.
  all: rewrite Hb, ?Hd in *; intuition congruence.
Qed.

Lemma executeScript_idem (f : ScrollLock.Window -> ScrollLock.Window)
  (tab : Tab) :
  (forall w, f (f w) = f w) ->
  executeScript f (executeScript f tab) = executeScript f tab.
Proof.
  intros Hf. unfold executeScript.
  destruct (tabWindow tab) as [w|] eqn:E; cbn; [now rewrite Hf|].
  now rewrite E.
Qed.

Lemma enforceTab_idem (extensionEnabled : bool) (S : gset string) (tab : Tab) :
  enforceTab parseUrl extensionEnabled S
    (enforceTab parseUrl extensionEnabled S tab)
  = enforceTab parseUrl extensionEnabled S tab.
Proof.
  assert (Hexec : forall f tab,
            tabId (executeScript f tab) = tabId tab
            /\ tabUrl (executeScript f tab) = tabUrl tab).
  { intros f t. unfold executeScript. now destruct (tabWindow t). }
  destruct (tabId tab) as [i|] eqn:Hi.
  2:{ assert (E : enforceTab parseUrl extensionEnabled S tab = tab)
        by (unfold enforceTab; now rewrite Hi).
      now rewrite !E. }
  destruct (tabUrl tab) as [url|] eqn:Hu.
  2:{ assert (E : enforceTab parseUrl extensionEnabled S tab = tab)
        by (unfold enforceTab; now rewrite Hi, Hu).
      now rewrite !E. }
  destruct ((i =? 0)%Z || negb (truthy url) || negb (isHttpUrl url)) eqn:Hg.
  { assert (E : enforceTab parseUrl extensionEnabled S tab = tab)
      by (unfold enforceTab; now rewrite Hi, Hu, Hg).
    now rewrite !E. }
  destruct (getHostnameFromUrl parseUrl url) as [h|] eqn:Hh.
  2:{ assert (E : enforceTab parseUrl extensionEnabled S tab = tab)
        by (unfold enforceTab; now rewrite Hi, Hu, Hg, Hh).
      now rewrite !E. }
  destruct (negb (truthy h)) eqn:Ht.
  { assert (E : enforceTab parseUrl extensionEnabled S tab = tab)
      by (unfold enforceTab; now rewrite Hi, Hu, Hg, Hh, Ht).
    now rewrite !E. }
  assert (Hstep : forall f,
            (forall w, f (f w) = f w) ->
            (forall t, tabId t = Some i -> tabUrl t = Some url ->
               enforceTab parseUrl extensionEnabled S t = executeScript f t) ->
            enforceTab parseUrl extensionEnabled S
              (enforceTab parseUrl extensionEnabled S tab)
            = enforceTab parseUrl extensionEnabled S tab).
  { intros f Hf Hsame. destruct (Hexec f tab) as [E1 E2].
    rewrite (Hsame tab Hi Hu).
    rewrite Hsame by congruence. now apply executeScript_idem. }
  destruct (negb extensionEnabled) eqn:Hen.
  { apply (Hstep removeSiteOverlayInPage);
      [apply removeSiteOverlayInPage_idem|].
    intros t E1 E2. unfold enforceTab.
    now rewrite E1, E2, Hg, Hh, Ht, Hen. }
  destruct (endsWith h "reddit.com") eqn:Hr.
  { apply (Hstep removeSiteOverlayInPage);
      [apply removeSiteOverlayInPage_idem|].
    intros t E1 E2. unfold enforceTab.
    now rewrite E1, E2, Hg, Hh, Ht, Hen, Hr. }
  destruct (isHostBlocked h S) eqn:Hb.
  - apply (Hstep (applySiteOverlayInPage h));
      [apply applySiteOverlayInPage_idem|].
    intros t E1 E2. unfold enforceTab.
    now rewrite E1, E2, Hg, Hh, Ht, Hen, Hr, Hb.
  - apply (Hstep removeSiteOverlayInPage);
      [apply removeSiteOverlayInPage_idem|].
    intros t E1 E2. unfold enforceTab.
    now rewrite E1, E2, Hg, Hh, Ht, Hen, Hr, Hb.
Qed.

(** X2. A compilation is idempotent: compiling the same
    configuration again leaves the installed rules and every open
    document as the first compilation left them; in particular the
    sweep never takes the scroll lock twice for the same overlay. *)
Theorem updateAllRules_idempotent (state : State) (b : Browser) :
  updateAllRules parseUrl state (updateAllRules parseUrl state b)
  = updateAllRules parseUrl state b.
Proof.
  unfold updateAllRules.
  assert (Htabs : forall en hosts ts,
            enforceOpenTabs parseUrl en hosts
              (enforceOpenTabs parseUrl en hosts ts)
            = enforceOpenTabs parseUrl en hosts ts).
  { intros en hosts ts. unfold enforceOpenTabs.
    rewrite List.map_map. apply List.map_ext. intros t.
    apply enforceTab_idem. }
  destruct (negb (normalizeBoolean (extensionEnabled state))) eqn:Hen;
    cbn [dynamicRules tabs]; rewrite Htabs; f_equal.
  - destruct (dynamicRules b) as [|r l]; [reflexivity|].
    change (0 <? length (List.map id (r :: l)))%nat with true. cbv iota.
    rewrite updateDynamicRules_replaces. reflexivity.
  - rewrite !updateDynamicRules_replaces. reflexivity.
Qed.

(** X3. The sweep of the open tabs with the master switch on.  It
    keeps the tabs, their identifiers and their addresses.  A tab that
    is not an open http or https document with a host is left as it
    is.  On such a document that has a root element, whatever it
    showed before, the site overlay is shown afterwards exactly when
    the lower-cased host does not end with reddit.com and is blocked;
    it then names that host, and the marker on the root element is set
    exactly when the overlay is shown. *)
Theorem enforceOpenTabs_enabled (blockedHosts : list string)
  (tabs : list Tab) (n : nat) (tab : Tab) :
  tabs !! n = Some tab ->
  length (enforceOpenTabs parseUrl true blockedHosts tabs) = length tabs
  /\ exists tab',
       enforceOpenTabs parseUrl true blockedHosts tabs !! n = Some tab'
       /\ tabId tab' = tabId tab
       /\ tabUrl tab' = tabUrl tab
       /\ (~ openHttpDocument parseUrl tab -> tab' = tab)
       /\ forall (i : Z) (url : string) (u : Url) (w : ScrollLock.Window),
            tabId tab = Some i -> i <> 0%Z ->
            tabUrl tab = Some url -> isHttpUrl url = true ->
            parseUrl url = Some u -> hostname u <> "" ->
            tabWindow tab = Some w ->
            is_Some (ScrollLock.documentElement w) ->
            let host := toLowerCase (hostname u) in
            let shown :=
              negb (endsWith host "reddit.com")
              && isHostBlocked host (blockedHostSetOf blockedHosts) in
            exists w',
              tabWindow tab' = Some w'
              /\ ScrollLock.overlays w' !! SITE_OVERLAY_ID
                 = (if shown then Some (siteMessage host) else None)
              /\ ScrollLock.siteOverlayFlag w' = shown.
Proof.
  intros Hn. unfold enforceOpenTabs.
  split; [apply length_map|].
  exists (enforceTab parseUrl true (blockedHostSetOf blockedHosts) tab).
  split.
  { change (List.map ?f ?l) with (f <$> l).
    now rewrite list_lookup_fmap, Hn. }
  assert (Hexec : forall f t,
            tabId (executeScript f t) = tabId t
            /\ tabUrl (executeScript f t) = tabUrl t).
  { intros f t. unfold executeScript. now destruct (tabWindow t). }
  assert (Hids : tabId (enforceTab parseUrl true
                          (blockedHostSetOf blockedHosts) tab) = tabId tab
                 /\ tabUrl (enforceTab parseUrl true
                              (blockedHostSetOf blockedHosts) tab)
                    = tabUrl tab).
  { unfold enforceTab.
    destruct (tabId tab) as [i|] eqn:Hi; [|auto].
    destruct (tabUrl tab) as [url|] eqn:Hu; [|auto].
    destruct (_ || _); [auto|].
    destruct (getHostnameFromUrl parseUrl url) as [h|]; [|auto].
    destruct (negb (truthy h)); [auto|]. cbn [negb].
    unfold removeSiteOverlay, applySiteOverlay.
    destruct (endsWith h "reddit.com"); [|destruct (isHostBlocked _ _)];
      match goal with
      | |- context [executeScript ?f tab] =>
          destruct (Hexec f tab) as [-> ->]
      end; auto. }
  split; [apply Hids|]. split; [apply Hids|]. split.
  - intros Hnot. unfold enforceTab.
    destruct (tabId tab) as [i|] eqn:Hi; [|reflexivity].
    destruct (tabUrl tab) as [url|] eqn:Hu; [|reflexivity].
    destruct ((i =? 0)%Z || negb (truthy url) || negb (isHttpUrl url)) eqn:Hg;
      [reflexivity|].
    unfold getHostnameFromUrl.
    destruct (parseUrl url) as [u|] eqn:Hp; [|reflexivity].
    destruct (negb (truthy (toLowerCase (hostname u)))) eqn:Ht;
      [reflexivity|].
    exfalso. apply Hnot. exists i, url, u.
    apply orb_false_iff in Hg as [Hg Hhttp].
    apply orb_false_iff in Hg as [Hz _].
    apply negb_false_iff in Hhttp, Ht.
    repeat split; try assumption.
    + now apply Z.eqb_neq.
    + apply truthy_true in Ht. now rewrite toLowerCase_empty in Ht.
  - intros i url u w Hi Hi0 Hu Hhttp Hp Hh Hw [d Hd]. cbv zeta.
    unfold enforceTab, getHostnameFromUrl.
    rewrite Hi, Hu, Hp, Hhttp, (isHttpUrl_truthy _ Hhttp).
    destruct (Z.eqb_spec i 0) as [? | _]; [contradiction|]. cbn [negb orb].
    assert (E : truthy (toLowerCase (hostname u)) = true).
    { apply truthy_true. now rewrite toLowerCase_empty. }
    rewrite E. cbn [negb].
    assert (Hrem : exists w',
              tabWindow (removeSiteOverlay tab) = Some w'
              /\ ScrollLock.overlays w' !! SITE_OVERLAY_ID = None
              /\ ScrollLock.siteOverlayFlag w' = false).
    { exists (removeSiteOverlayInPage w).
      unfold removeSiteOverlay, executeScript. rewrite Hw.
      split; [reflexivity|]. apply removeSiteOverlayInPage_clears. }
    destruct (endsWith (toLowerCase (hostname u)) "reddit.com");
      cbn [negb andb]; [exact Hrem|].
    destruct (isHostBlocked _ _); [|exact Hrem].
    exists (applySiteOverlayInPage (toLowerCase (hostname u)) w).
    unfold applySiteOverlay, executeScript. rewrite Hw.
    split; [reflexivity|].
    destruct (applySiteOverlayInPage_shows (toLowerCase (hostname u)) w)
      as (Ho & Hf & _); [right; congruence|].
    now split.
Qed.

End OpenTabs.

(** ** Trimming *)

Section TrimFacts.
Import Js.

Lemma dropWhileEnd_head (p : ascii -> bool) (c : ascii) (s : string) :
  dropWhileEnd p (String c s) = ""
  \/ exists r, dropWhileEnd p (String c s) = String c r.
Proof.
  cbn. destruct (dropWhileEnd p s); [destruct (p c)|]; eauto.
Qed.

Lemma dropWhileEnd_idem (p : ascii -> bool) (s : string) :
  dropWhileEnd p (dropWhileEnd p s) = dropWhileEnd p s.
Proof.
  induction s as [|c s IH]; [reflexivity|]. cbn.
  destruct (dropWhileEnd p s) as [|d r] eqn:E.
  - destruct (p c) eqn:Hc; [reflexivity|]. cbn. now rewrite Hc.
  - cbn in *. now rewrite IH.
Qed.

Lemma dropWhile_head (p : ascii -> bool) (s : string) :
  dropWhile p s = ""
  \/ exists c r, dropWhile p s = String c r /\ p c = false.
Proof.
  induction s as [|c s IH]; [now left|]. cbn.
  destruct (p c) eqn:Hc; [exact IH|]. right. eauto.
Qed.

Lemma trim_idem (s : string) : trim (trim s) = trim s.
Proof.
  unfold trim.
  destruct (dropWhile_head isWhiteSpace s) as [-> | (c & r & -> & Hc)];
    [reflexivity|].
  destruct (dropWhileEnd_head isWhiteSpace c r) as [-> | [r' E]];
    [reflexivity|].
  rewrite E. cbn [dropWhile]. rewrite Hc. rewrite <- E.
  apply dropWhileEnd_idem.
Qed.

End TrimFacts.

(** ** The message listener *)

Section MessageListener.
Import Js Background Listeners.

Variable parseUrl : string -> option Url.

(** What a verdict of the check says when it refuses the video. *)
Lemma handleYouTubeVideoCheck_verdict (w : World)
  (messageVideoId : option string) (v : Verdict) (w' : World) :
  handleYouTubeVideoCheck parseUrl messageVideoId w = (Ok v, w') ->
  (allowed v = false <-> reason v = channel_blocked)
  /\ (allowed v = false ->
      trim (default "" messageVideoId) <> ""
      /\ normalizeBoolean (extensionEnabled (storage w)) = true
      /\ exists (info : VideoInfo) (channelHandle : string),
           verdictChannelId v = Some (channelId info)
           /\ verdictChannelTitle v = Some (channelTitle info)
           /\ isChannelBlocked (Some info)
                (List.map Some (normalizedEntries parseUrl w)) channelHandle
              = true).
Proof.
  unfold handleYouTubeVideoCheck, normalizedEntries.
  destruct (truthy (trim (default "" messageVideoId))) eqn:Hid; cbn [negb].
  2:{ intros [= <- <-]. cbn. split; [split|]; discriminate. }
  apply truthy_true in Hid.
  rewrite bind_gets.
  destruct (normalizeBoolean (extensionEnabled (storage w))) eqn:Hen;
    cbn [negb].
  2:{ intros [= <- <-]. cbn. split; [split|]; discriminate. }
  destruct (Nat.eqb _ 0).
  { intros [= <- <-]. cbn. split; [split|]; discriminate. }
  destruct (getYoutubeApiKeyFromEnv w) as [[key|err] w1] eqn:Hkey.
  2:{ rewrite (bind_throw _ _ _ _ _ Hkey). discriminate. }
  rewrite (bind_ok _ _ _ _ _ Hkey).
  destruct (truthy key); cbn [negb].
  2:{ intros [= <- <-]. cbn. split; [split|]; discriminate. }
  destruct (fetchYouTubeVideoInfo (trim (default "" messageVideoId)) key w1)
    as [[[info|]|err] w2] eqn:Hfetch.
  3:{ rewrite (bind_throw _ _ _ _ _ Hfetch). discriminate. }
  2:{ rewrite (bind_ok _ _ _ _ _ Hfetch).
      intros [= <- <-]. cbn. split; [split|]; discriminate. }
  rewrite (bind_ok _ _ _ _ _ Hfetch).
  match goal with
  | |- bind ?m _ _ = _ -> _ => destruct (m w2) as [[h|err] w3] eqn:Hh
  end.
  2:{ rewrite (bind_throw _ _ _ _ _ Hh). discriminate. }
  rewrite (bind_ok _ _ _ _ _ Hh). unfold ret.
  destruct (isChannelBlocked (Some info)
              (List.map Some
                 (omap (normalizeYouTubeChannelEntry parseUrl)
                    (blockedYouTubeChannels (storage w)))) h) eqn:Hb;
    cbn [negb]; intros [= <- <-];
    cbn [allowed reason verdictChannelId verdictChannelTitle].
  - split; [split; reflexivity|]. intros _.
    split; [assumption|]. split; [reflexivity|].
    exists info, h. auto.
  - split; [split; discriminate|discriminate].
Qed.



End MessageListener.

(** ** The credential file *)

Section CredentialFile.
Import Js Background.

Lemma split_join (lines : list string) :
  lines <> [] -> Forall singleLine lines ->
  split lineFeed (join newline lines) = lines.
Proof.
  induction lines as [|x [|y r] IH]; intros Hne Hl; [contradiction| |].
  - inversion_clear Hl. cbn [join]. now apply split_no_sep.
  - inversion_clear Hl as [|? ? Hx Hr].
    change (join newline (x :: y :: r))
      with (x +:+ newline +:+ join newline (y :: r)).
    unfold newline at 1. rewrite append_cons, append_nil_l.
    rewrite (split_app_sep _ _ _ Hx). f_equal.
    apply IH; [discriminate | exact Hr].
Qed.

Lemma dropWhile_dropWhileEnd (p : ascii -> bool) (s : string) :
  dropWhile p (dropWhileEnd p s) = dropWhileEnd p (dropWhile p s).
Proof.
  induction s as [|c s IH]; [reflexivity|].
  cbn [dropWhile]. destruct (p c) eqn:Hc.
  - rewrite <- IH. cbn [dropWhileEnd].
    destruct (dropWhileEnd p s) as [|d r]; [now rewrite Hc|].
    cbn [dropWhile]. now rewrite Hc.
  - destruct (dropWhileEnd_head p c s) as [E | [r E]].
    + cbn [dropWhileEnd] in E.
      destruct (dropWhileEnd p s); [rewrite Hc in E|]; discriminate.
    + rewrite E. cbn [dropWhile]. now rewrite Hc.
Qed.

Lemma trim_dropWhileEnd (s : string) :
  trim (dropWhileEnd isWhiteSpace s) = trim s.
Proof.
  unfold trim. rewrite dropWhile_dropWhileEnd. apply dropWhileEnd_idem.
Qed.

Lemma dropWhileEnd_app_keep (p : ascii -> bool) (a b : string) :
  a <> "" -> dropWhileEnd p a = a ->
  dropWhileEnd p (a +:+ b) = a +:+ dropWhileEnd p b.
Proof.
  induction a as [|c a IH]; intros Hne Ha; [contradiction|].
  rewrite !append_cons. cbn [dropWhileEnd] in *.
  destruct a as [|d a].
  - rewrite !append_nil_l. cbn [dropWhileEnd] in Ha.
    destruct (p c); [discriminate|].
    now destruct (dropWhileEnd p b).
  - assert (Hd : dropWhileEnd p (String d a) = String d a).
    { destruct (dropWhileEnd p (String d a)) as [|e r];
        [destruct (p c); discriminate | congruence]. }
    rewrite (IH ltac:(discriminate) Hd). now rewrite append_cons.
Qed.

Lemma indexOfChar_app (c : ascii) (a b : string) :
  indexOfChar c a = None ->
  indexOfChar c (a +:+ String c b) = Some (String.length a).
Proof.
  induction a as [|d a IH]; intros Ha.
  - rewrite append_nil_l. cbn. now rewrite Ascii.eqb_refl.
  - rewrite append_cons. cbn in *.
    destruct (Ascii.eqb d c); [discriminate|].
    destruct (indexOfChar c a); [discriminate|].
    now rewrite IH.
Qed.

Lemma substring_prefix (a b : string) :
  String.substring 0 (String.length a) (a +:+ b) = a.
Proof.
  induction a as [|c a IH].
  - rewrite append_nil_l. now destruct b.
  - rewrite append_cons. cbn. now rewrite IH.
Qed.

Lemma substring_suffix (a b : string) :
  String.substring (String.length a) (String.length b) (a +:+ b) = b.
Proof.
  induction a as [|c a IH].
  - rewrite append_nil_l. cbn [String.length].
    induction b as [|d b IHb]; [reflexivity|]. cbn. now rewrite IHb.
  - rewrite append_cons. cbn. exact IH.
Qed.

Lemma length_append (a b : string) :
  String.length (a +:+ b) = (String.length a + String.length b)%nat.
Proof.
  induction a as [|c a IH]; [now rewrite append_nil_l|].
  rewrite append_cons. cbn. now rewrite IH.
Qed.

(** A line of the shape key=value, split at its first equals sign. *)
Lemma parseEnvLine_assignment (acc : JsMap string) (k x : string) :
  indexOfChar "="%char k = None ->
  parseEnvLine acc (k +:+ String "="%char x)
  = if truthy (trim k)
    then if String.eqb (trim k) "__proto__" then acc
         else mapSet (trim k) (unquote (trim x)) acc
    else acc.
Proof.
  intros Hk. unfold parseEnvLine.
  rewrite (indexOfChar_app _ _ _ Hk).
  rewrite substring_prefix.
  replace (String.length (k +:+ String "="%char x) - S (String.length k))%nat
    with (String.length x)
    by (rewrite length_append; cbn; lia).
  replace (String.substring (S (String.length k)) (String.length x)
             (k +:+ String "="%char x)) with x.
  2:{ rewrite <- (substring_suffix (k +:+ "=") x) at 1.
      rewrite length_append. cbn [String.length].
      rewrite Nat.add_1_r. f_equal.
      rewrite append_assoc. now rewrite append_cons, append_nil_l. }
  reflexivity.
Qed.

Lemma mapGet_mapSet_eq {A} (k : string) (v : A) (m : JsMap A) :
  mapGet k (mapSet k v m) = Some v.
Proof.
  induction m as [|[k' v'] m IH]; simpl.
  - now rewrite String.eqb_refl.
  - destruct (String.eqb_spec k' k) as [-> | Hne]; simpl.
    + now rewrite String.eqb_refl.
    + destruct (String.eqb_spec k' k); [contradiction | exact IH].
Qed.

Lemma mapGet_mapSet_ne {A} (k k' : string) (v : A) (m : JsMap A) :
  k' <> k -> mapGet k (mapSet k' v m) = mapGet k m.
Proof.
  intros Hne. induction m as [|[k0 v0] m IH]; simpl.
  - destruct (String.eqb_spec k' k); [contradiction | reflexivity].
  - destruct (String.eqb_spec k0 k') as [-> | H0]; simpl.
    + destruct (String.eqb_spec k' k); [contradiction | reflexivity].
    + now rewrite IH.
Qed.

(** The lines that the filter of [parseEnvFile] keeps. *)
Lemma parseEnvFile_lines (content : string) :
  parseEnvFile content
  = fold_left parseEnvLine
      (List.filter (fun line => truthy line && negb (startsWith line "#"))
         (List.map trim (split lineFeed content))) [].
Proof.
  unfold parseEnvFile. destruct content; reflexivity.
Qed.

Lemma parseEnvLine_other (acc : JsMap string) (line k : string) :
  truthy (trim line) && negb (startsWith (trim line) "#") = true ->
  assignedKey line <> Some k ->
  mapGet k (parseEnvLine acc (trim line)) = mapGet k acc.
Proof.
  intros Hkeep Hk. unfold assignedKey in Hk. rewrite Hkeep in Hk.
  unfold parseEnvLine.
  destruct (indexOfChar "=" (trim line)) as [i|]; [|reflexivity].
  cbv zeta in Hk.
  destruct (truthy (trim (String.substring 0 i (trim line)))); [|reflexivity].
  destruct (String.eqb _ "__proto__"); [reflexivity|].
  apply mapGet_mapSet_ne. congruence.
Qed.

Lemma fold_parseEnvLine_other (lines : list string) (acc : JsMap string)
  (k : string) :
  Forall (fun line => assignedKey line <> Some k) lines ->
  mapGet k
    (fold_left parseEnvLine
       (List.filter (fun line => truthy line && negb (startsWith line "#"))
          (List.map trim lines)) acc)
  = mapGet k acc.
Proof.
  revert acc. induction lines as [|l lines IH]; intros acc Hl;
    [reflexivity|].
  inversion_clear Hl as [|? ? Hk Hr]. cbn [List.map List.filter].
  destruct (truthy (trim l) && negb (startsWith (trim l) "#")) eqn:Hkeep.
  - cbn [fold_left]. rewrite (IH _ Hr). now apply parseEnvLine_other.
  - now apply IH.
Qed.

Lemma indexOfChar_app_none (c : ascii) (a b : string) :
  indexOfChar c a = None -> indexOfChar c b = None ->
  indexOfChar c (a +:+ b) = None.
Proof.
  induction a as [|d a IH]; intros Ha Hb; [now rewrite append_nil_l|].
  rewrite append_cons. cbn in *.
  destruct (Ascii.eqb d c); [discriminate|].
  destruct (indexOfChar c a); [discriminate|].
  now rewrite IH.
Qed.

Lemma trim_key_line (v : string) :
  trim ("YOUTUBE_API_KEY=" +:+ v)
  = "YOUTUBE_API_KEY" +:+ String "="%char (dropWhileEnd isWhiteSpace v).
Proof.
  unfold trim.
  replace (dropWhile isWhiteSpace ("YOUTUBE_API_KEY=" +:+ v))
    with ("YOUTUBE_API_KEY=" +:+ v).
  2:{ rewrite append_cons. reflexivity. }
  rewrite dropWhileEnd_app_keep; [reflexivity | discriminate | reflexivity].
Qed.

(** X7. The credential file is read line by line: blank lines,
    comments and lines without an equals sign count for nothing, and of
    several assignments to a key the last one wins.  So when the last
    line that assigns YOUTUBE_API_KEY reads YOUTUBE_API_KEY=<v>, the
    value of the key is <v> trimmed and without the pair of quotes or
    apostrophes around it. *)
Theorem parseEnvFile_last_assignment (before after : list string)
  (v : string) :
  Forall singleLine before -> Forall singleLine after -> singleLine v ->
  Forall (fun line => assignedKey line <> Some ENV_YOUTUBE_KEY) after ->
  mapGet ENV_YOUTUBE_KEY
    (parseEnvFile
       (join newline (before ++ ("YOUTUBE_API_KEY=" +:+ v) :: after)))
  = Some (unquote (trim v)).
Proof.
  intros Hb Ha Hv Hafter.
  rewrite parseEnvFile_lines, split_join.
  2:{ now destruct before. }
  2:{ apply Forall_app. split; [exact Hb|]. constructor; [|exact Ha].
      apply indexOfChar_app_none; [reflexivity | exact Hv]. }
  rewrite List.map_app, List.filter_app, fold_left_app.
  cbn [List.map List.filter].
  rewrite trim_key_line.
  replace (truthy _ && negb (startsWith _ "#")) with true.
  2:{ rewrite append_cons. reflexivity. }
  cbn [fold_left].
  rewrite (fold_parseEnvLine_other _ _ _ Hafter).
  rewrite parseEnvLine_assignment by reflexivity.
  change (trim "YOUTUBE_API_KEY") with ENV_YOUTUBE_KEY.
  change (truthy ENV_YOUTUBE_KEY) with true.
  change (String.eqb ENV_YOUTUBE_KEY "__proto__") with false. cbv iota.
  rewrite trim_dropWhileEnd. apply mapGet_mapSet_eq.
Qed.

Lemma getYoutubeApiKeyFromEnv_reads (w : World) :
  envValuesPromise w = None ->
  requests (snd (getYoutubeApiKeyFromEnv w)) = requests w ++ [EnvFileRequest].
Proof.
  intros Hp.
  unfold getYoutubeApiKeyFromEnv, loadEnvValues, bind, gets, modify, ret.
  rewrite Hp. cbn.
  destruct (mapGet ENV_YOUTUBE_KEY _) as [k|]; [destruct (truthy k)|];
    reflexivity.
Qed.

(** The call in closed form: the copy in use, the world once the copy
    is in place, and the result by the value of the key. *)
Lemma getYoutubeApiKeyFromEnv_eq (w : World) :
  getYoutubeApiKeyFromEnv w
  = let values :=
      match envValuesPromise w with
      | Some values => values
      | None => match envFile w with
                | Some text => parseEnvFile text
                | None => []
                end
      end in
    let w0 :=
      match envValuesPromise w with
      | Some _ => w
      | None =>
          setEnvValuesPromise (Some values) (logRequest EnvFileRequest w)
      end in
    match mapGet ENV_YOUTUBE_KEY values with
    | Some key =>
        if truthy key then (Ok (trim key), w0)
        else (Ok "", setEnvValuesPromise None w0)
    | None => (Ok "", setEnvValuesPromise None w0)
    end.
Proof.
  unfold getYoutubeApiKeyFromEnv, loadEnvValues, bind, gets, modify, ret.
  destruct (envValuesPromise w) as [values|]; cbn.
  - destruct (mapGet ENV_YOUTUBE_KEY values) as [key|];
      [destruct (truthy key)|]; reflexivity.
  - destruct (mapGet ENV_YOUTUBE_KEY _) as [key|];
      [destruct (truthy key)|]; reflexivity.
Qed.

(** X8. Reading the credential never throws.  The file is fetched
    only when no parsed copy is kept; the key is the trimmed value of
    YOUTUBE_API_KEY, or the empty string when the file cannot be read or
    holds no value for it.  When the copy in use holds a value for the
    key, the copy is kept and a later call returns the same key without
    fetching anything.  When it holds none, or an empty one, the key is
    empty and the copy is dropped, so that the next call fetches the
    file again. *)
Theorem getYoutubeApiKeyFromEnv_memo (w : World) :
  exists (key : string) (w1 : World),
    getYoutubeApiKeyFromEnv w = (Ok key, w1)
    /\ requests w1
       = requests w ++ match envValuesPromise w with
                       | Some _ => []
                       | None => [EnvFileRequest]
                       end
    /\ (envValuesPromise w = None ->
        key = trim (default ""
                      (mapGet ENV_YOUTUBE_KEY
                         match envFile w with
                         | Some text => parseEnvFile text
                         | None => []
                         end)))
    /\ (key <> "" -> getYoutubeApiKeyFromEnv w1 = (Ok key, w1))
    /\ (envValuesPromise w1 = None ->
        key = ""
        /\ requests (snd (getYoutubeApiKeyFromEnv w1))
           = requests w1 ++ [EnvFileRequest])
    /\ envFile w1 = envFile w
    /\ (forall raw,
          mapGet ENV_YOUTUBE_KEY
            match envValuesPromise w with
            | Some values => values
            | None => match envFile w with
                      | Some text => parseEnvFile text
                      | None => []
                      end
            end = Some raw ->
          raw <> "" ->
          key = trim raw
          /\ envValuesPromise w1
             = Some match envValuesPromise w with
                    | Some values => values
                    | None => match envFile w with
                              | Some text => parseEnvFile text
                              | None => []
                              end
                    end
          /\ getYoutubeApiKeyFromEnv w1 = (Ok key, w1))
    /\ (mapGet ENV_YOUTUBE_KEY
          match envValuesPromise w with
          | Some values => values
          | None => match envFile w with
                    | Some text => parseEnvFile text
                    | None => []
                    end
          end = None
        \/ mapGet ENV_YOUTUBE_KEY
             match envValuesPromise w with
             | Some values => values
             | None => match envFile w with
                       | Some text => parseEnvFile text
                       | None => []
                       end
             end = Some "" ->
        key = ""
        /\ envValuesPromise w1 = None
        /\ requests (snd (getYoutubeApiKeyFromEnv w1))
           = requests w1 ++ [EnvFileRequest]).
Proof.
  rewrite getYoutubeApiKeyFromEnv_eq.
  destruct w as [vc cc [values|] t st ve ce file rq];
    cbn [envValuesPromise envFile requests].
  - destruct (mapGet ENV_YOUTUBE_KEY values) as [key|] eqn:Hk;
      [destruct (truthy key) eqn:Ht|].
    + exists (trim key), (mkWorld vc cc (Some values) t st ve ce file rq).
      rewrite app_nil_r.
      assert (Hagain :
        getYoutubeApiKeyFromEnv
          (mkWorld vc cc (Some values) t st ve ce file rq)
        = (Ok (trim key), mkWorld vc cc (Some values) t st ve ce file rq)).
      { rewrite getYoutubeApiKeyFromEnv_eq. cbn [envValuesPromise].
        now rewrite Hk, Ht. }
      split; [reflexivity|]. split; [reflexivity|]. split; [discriminate|].
      split; [intros _; exact Hagain|]. split; [discriminate|].
      split; [reflexivity|]. split.
      * intros raw [= <-] _. split; [reflexivity|]. split; [reflexivity|].
        exact Hagain.
      * intros [H | [= ->]]; discriminate.
    + exists "", (mkWorld vc cc None t st ve ce file rq).
      rewrite app_nil_r. apply truthy_false in Ht. subst key.
      split; [reflexivity|]. split; [reflexivity|]. split; [discriminate|].
      split; [contradiction|].
      split; [intros _; split; [reflexivity|];
              now apply getYoutubeApiKeyFromEnv_reads|].
      split; [reflexivity|]. split.
      * intros raw [= <-] Hne. contradiction.
      * intros _. split; [reflexivity|]. split; [reflexivity|].
        now apply getYoutubeApiKeyFromEnv_reads.
    + exists "", (mkWorld vc cc None t st ve ce file rq).
      rewrite app_nil_r.
      split; [reflexivity|]. split; [reflexivity|]. split; [discriminate|].
      split; [contradiction|].
      split; [intros _; split; [reflexivity|];
              now apply getYoutubeApiKeyFromEnv_reads|].
      split; [reflexivity|]. split.
      * intros raw [=].
      * intros _. split; [reflexivity|]. split; [reflexivity|].
        now apply getYoutubeApiKeyFromEnv_reads.
  - set (values := match file with
                   | Some text => parseEnvFile text
                   | None => []
                   end).
    destruct (mapGet ENV_YOUTUBE_KEY values) as [key|] eqn:Hk;
      [destruct (truthy key) eqn:Ht|].
    + exists (trim key),
        (mkWorld vc cc (Some values) t st ve ce file (rq ++ [EnvFileRequest])).
      assert (Hagain :
        getYoutubeApiKeyFromEnv
          (mkWorld vc cc (Some values) t st ve ce file
             (rq ++ [EnvFileRequest]))
        = (Ok (trim key),
           mkWorld vc cc (Some values) t st ve ce file
             (rq ++ [EnvFileRequest]))).
      { rewrite getYoutubeApiKeyFromEnv_eq. cbn [envValuesPromise].
        now rewrite Hk, Ht. }
      split; [reflexivity|]. split; [reflexivity|].
      split; [intros _; reflexivity|].
      split; [intros _; exact Hagain|]. split; [discriminate|].
      split; [reflexivity|]. split.
      * intros raw [= <-] _. split; [reflexivity|]. split; [reflexivity|].
        exact Hagain.
      * intros [H | [= ->]]; discriminate.
    + exists "",
        (mkWorld vc cc None t st ve ce file (rq ++ [EnvFileRequest])).
      apply truthy_false in Ht. subst key.
      split; [reflexivity|]. split; [reflexivity|].
      split; [intros _; reflexivity|].
      split; [contradiction|].
      split; [intros _; split; [reflexivity|];
              now apply getYoutubeApiKeyFromEnv_reads|].
      split; [reflexivity|]. split.
      * intros raw [= <-] Hne. contradiction.
      * intros _. split; [reflexivity|]. split; [reflexivity|].
        now apply getYoutubeApiKeyFromEnv_reads.
    + exists "",
        (mkWorld vc cc None t st ve ce file (rq ++ [EnvFileRequest])).
      split; [reflexivity|]. split; [reflexivity|].
      split; [intros _; reflexivity|].
      split; [contradiction|].
      split; [intros _; split; [reflexivity|];
              now apply getYoutubeApiKeyFromEnv_reads|].
      split; [reflexivity|]. split.
      * intros raw [=].
      * intros _. split; [reflexivity|]. split; [reflexivity|].
        now apply getYoutubeApiKeyFromEnv_reads.
Qed.

End CredentialFile.

(** ** Repeated and failed lookups *)

Section Recheck.
Import Js Background.

Variable parseUrl : string -> option Url.

(** The credential that a call returns is the one of the parsed copy
    that it leaves, wherever that copy is found again. *)
Lemma getYoutubeApiKeyFromEnv_again (w w1 w' : World) (key : string) :
  getYoutubeApiKeyFromEnv w = (Ok key, w1) -> key <> "" ->
  envValuesPromise w' = envValuesPromise w1 ->
  getYoutubeApiKeyFromEnv w' = (Ok key, w').
Proof.
  unfold getYoutubeApiKeyFromEnv, loadEnvValues, bind, gets, modify, ret.
  intros Hcall Hkey Hp.
  destruct (envValuesPromise w) as [values|] eqn:Hw; cbn in Hcall.
  - destruct (mapGet ENV_YOUTUBE_KEY values) as [raw|] eqn:Hraw;
      [destruct (truthy raw) eqn:Ht|]; cbn in Hcall;
      injection Hcall as <- <-; try contradiction.
    rewrite Hp, Hw. cbn. now rewrite Hraw, Ht.
  - set (values := match envFile w with
                   | Some text => parseEnvFile text
                   | None => []
                   end) in *.
    destruct (mapGet ENV_YOUTUBE_KEY values) as [raw|] eqn:Hraw;
      [destruct (truthy raw) eqn:Ht|]; cbn in Hcall;
      injection Hcall as <- <-; try contradiction.
    rewrite Hp. cbn. now rewrite Hraw, Ht.
Qed.

Lemma fetchYouTubeVideoInfo_keeps (videoId apiKey : string) (w : World) :
  envValuesPromise (snd (fetchYouTubeVideoInfo videoId apiKey w))
    = envValuesPromise w
  /\ storage (snd (fetchYouTubeVideoInfo videoId apiKey w)) = storage w.
Proof.
  unfold fetchYouTubeVideoInfo, fetchVideos, bind, gets, modify, ret, throw.
  cbn.
  destruct (mapGet videoId (youtubeVideoCache w)) as [c|];
    [destruct (now w - timestamp c <? YOUTUBE_CACHE_TTL_MS)%Z;
       [split; reflexivity|]|];
    destruct (videosEndpoint w (now w) videoId apiKey) as [delay [|st tx|item]];
    cbn; try (destruct ((st =? 400)%Z || (st =? 403)%Z)); cbn;
    split; reflexivity.
Qed.

(** X5. Checking the same video again within the time to live is
    free.  When a check has read the credential and looked the owner of
    the video up, and no entry of the block list is a handle, then the
    same check at any time less than five minutes after the first sends
    no request at all, leaves the worker as it is and returns the same
    verdict. *)
Theorem recheck_within_ttl_is_free (w : World) (messageVideoId : option string)
  (key : string) (delay : N) (item : option Snippet) (t : Z) :
  let videoId := trim (default "" messageVideoId) in
  let first := handleYouTubeVideoCheck parseUrl messageVideoId w in
  videoCacheInv w ->
  videoId <> "" ->
  normalizeBoolean (extensionEnabled (storage w)) = true ->
  normalizedEntries parseUrl w <> [] ->
  existsb isHandleEntry (normalizedEntries parseUrl w) = false ->
  fst (getYoutubeApiKeyFromEnv w) = Ok key -> key <> "" ->
  noFresh YOUTUBE_CACHE_TTL_MS (now w) videoId (youtubeVideoCache w) ->
  videosEndpoint w (now w) videoId key = (delay, OkJson item) ->
  (t - now w < YOUTUBE_CACHE_TTL_MS)%Z ->
  exists v,
    fst first = Ok v
    /\ lookups (snd first) = lookups w ++ [VideosRequest videoId key]
    /\ handleYouTubeVideoCheck parseUrl messageVideoId (setNow t (snd first))
       = (Ok v, setNow t (snd first)).
Proof.
  cbv zeta. intros Hinv Hid Hen Hent Hnoh Hkey Hkne Hstale Hnet Ht.
  destruct (getYoutubeApiKeyFromEnv_frame w)
    as (key' & w1 & Hk & Hl & _ & Hvc & _ & Hst & Hnow & Hve & _).
  rewrite Hk in Hkey. cbn [fst] in Hkey. injection Hkey as ->.
  assert (Hinv1 : videoCacheInv w1).
  { unfold videoCacheInv in *. now rewrite Hvc, Hnow. }
  assert (Hstale1 : noFresh YOUTUBE_CACHE_TTL_MS (now w1)
                      (trim (default "" messageVideoId))
                      (youtubeVideoCache w1)).
  { now rewrite Hvc, Hnow. }
  assert (Hnet1 : videosEndpoint w1 (now w1)
                    (trim (default "" messageVideoId)) key
                  = (delay, OkJson item)).
  { now rewrite Hve, Hnow. }
  assert (Ht1 : (t - now w1 < YOUTUBE_CACHE_TTL_MS)%Z) by now rewrite Hnow.
  destruct (fetchYouTubeVideoInfo_twice _ key w1 delay item t
              Hinv1 Hstale1 Hnet1 Ht1) as (Hres & Hagain & Hreq).
  destruct (fetchYouTubeVideoInfo_keeps
              (trim (default "" messageVideoId)) key w1) as [Hp2 Hs2].
  destruct (fetchYouTubeVideoInfo (trim (default "" messageVideoId)) key w1)
    as [r2 w2] eqn:Hfetch.
  cbn [fst snd] in Hres, Hagain, Hreq, Hp2, Hs2. subst r2.
  (* the shape of a check whose lookup answers with [videoInfoOf item] *)
  assert (Hshape : forall w0 wk wf,
            storage w0 = storage w ->
            getYoutubeApiKeyFromEnv w0 = (Ok key, wk) ->
            fetchYouTubeVideoInfo (trim (default "" messageVideoId)) key wk
              = (Ok (videoInfoOf item), wf) ->
            handleYouTubeVideoCheck parseUrl messageVideoId w0
            = (Ok match videoInfoOf item with
                  | None => mkVerdict true video_not_found None None
                  | Some info =>
                      let blocked :=
                        isChannelBlocked (Some info)
                          (List.map Some (normalizedEntries parseUrl w)) "" in
                      mkVerdict (negb blocked)
                        (if blocked then channel_blocked else channel_allowed)
                        (Some (channelId info)) (Some (channelTitle info))
                  end, wf)).
  { intros w0 wk wf Hs0 Hk0 Hf0.
    unfold handleYouTubeVideoCheck.
    rewrite (proj2 (truthy_true _) Hid). cbn [negb].
    rewrite bind_gets, Hs0, Hen. cbn [negb].
    unfold normalizedEntries, isHandleEntry in *.
    destruct (omap (normalizeYouTubeChannelEntry parseUrl)
                (blockedYouTubeChannels (storage w))) as [|e es] eqn:He;
      [contradiction|].
    cbn [length Nat.eqb].
    rewrite (bind_ok _ _ _ _ _ Hk0).
    rewrite (proj2 (truthy_true _) Hkne). cbn [negb].
    rewrite (bind_ok _ _ _ _ _ Hf0).
    destruct (videoInfoOf item) as [info|]; [|reflexivity].
    rewrite Hnoh. reflexivity. }
  eexists. split; [|split].
  - rewrite (Hshape w w1 w2 eq_refl Hk Hfetch). reflexivity.
  - rewrite (Hshape w w1 w2 eq_refl Hk Hfetch). cbn [snd].
    unfold lookups in *. rewrite Hreq, List.filter_app, Hl. reflexivity.
  - rewrite (Hshape w w1 w2 eq_refl Hk Hfetch). cbn [snd].
    apply (Hshape (setNow t w2) (setNow t w2) (setNow t w2)).
    + cbn. congruence.
    + eapply getYoutubeApiKeyFromEnv_again; [exact Hk | exact Hkne |].
      cbn. exact Hp2.
    + exact Hagain.
Qed.

End Recheck.

Section FailedLookups.
Import Js Background.

Lemma noFresh_later {A} (ttl t t' : Z) (k : string) (c : JsMap (Cached A)) :
  (t <= t')%Z -> noFresh ttl t k c -> noFresh ttl t' k c.
Proof.
  unfold noFresh. destruct (mapGet k c); [lia | trivial].
Qed.

(** X6. A lookup that the service does not answer with a result
    throws and records nothing: both caches are as before, so the next
    lookup of the same key goes to the service again.  The error names
    the status, with the body of the answer for the statuses 400 and
    403.  A channel whose identifier is blank is not looked up at all. *)
Theorem failed_lookups_are_not_cached :
  (forall w videoId apiKey,
     noFresh YOUTUBE_CACHE_TTL_MS (now w) videoId (youtubeVideoCache w) ->
     (forall item,
        snd (videosEndpoint w (now w) videoId apiKey) <> OkJson item) ->
     exists e w1,
       fetchYouTubeVideoInfo videoId apiKey w = (Throw e, w1)
       /\ Throw e = videoOutcome (snd (videosEndpoint w (now w) videoId apiKey))
       /\ youtubeVideoCache w1 = youtubeVideoCache w
       /\ youtubeChannelCache w1 = youtubeChannelCache w
       /\ requests w1 = requests w ++ [VideosRequest videoId apiKey]
       /\ noFresh YOUTUBE_CACHE_TTL_MS (now w1) videoId (youtubeVideoCache w1))
  /\ (forall w channelId apiKey,
        trim channelId <> "" ->
        noFresh YOUTUBE_CHANNEL_CACHE_TTL_MS (now w) (trim channelId)
          (youtubeChannelCache w) ->
        (forall customUrl,
           snd (channelsEndpoint w (now w) (trim channelId) apiKey)
             <> OkJson customUrl) ->
        exists e w1,
          fetchYouTubeChannelInfo channelId apiKey w = (Throw e, w1)
          /\ Throw e = channelOutcome
                         (snd (channelsEndpoint w (now w) (trim channelId)
                                 apiKey))
          /\ youtubeVideoCache w1 = youtubeVideoCache w
          /\ youtubeChannelCache w1 = youtubeChannelCache w
          /\ requests w1
             = requests w ++ [ChannelsRequest (trim channelId) apiKey]
          /\ noFresh YOUTUBE_CHANNEL_CACHE_TTL_MS (now w1) (trim channelId)
               (youtubeChannelCache w1))
  /\ (forall w channelId apiKey,
        trim channelId = "" ->
        fetchYouTubeChannelInfo channelId apiKey w = (Ok None, w)).
Proof.
  split; [|split].
  - intros w videoId apiKey Hstale Hfail.
    unfold fetchYouTubeVideoInfo. rewrite !bind_gets.
    assert (Hlookup : forall k : Async (option VideoInfo),
              (match mapGet videoId (youtubeVideoCache w) with
               | Some c =>
                   if (now w - timestamp c <? YOUTUBE_CACHE_TTL_MS)%Z
                   then ret (data c) else k
               | None => k
               end) w = k w).
    { intros k. unfold noFresh in Hstale.
      destruct (mapGet videoId (youtubeVideoCache w)) as [c|];
        [|reflexivity].
      destruct (Z.ltb_spec (now w - timestamp c) YOUTUBE_CACHE_TTL_MS);
        [lia | reflexivity]. }
    rewrite Hlookup. unfold bind, fetchVideos, videoOutcome.
    destruct (videosEndpoint w (now w) videoId apiKey)
      as [delay [|status text|item]] eqn:He; cbn [snd] in *.
    + eexists _, _. split; [reflexivity|]. cbn.
      repeat split. eapply noFresh_later; [|exact Hstale]. lia.
    + destruct ((status =? 400)%Z || (status =? 403)%Z);
        (eexists _, _; split; [reflexivity|]; cbn; repeat split;
         eapply noFresh_later; [|exact Hstale]; lia).
    + now destruct (Hfail item).
  - intros w channelId apiKey Hid Hstale Hfail.
    unfold fetchYouTubeChannelInfo.
    rewrite (proj2 (truthy_true _) Hid). cbn [negb].
    rewrite !bind_gets.
    assert (Hlookup : forall k : Async (option ChannelInfo),
              (match mapGet (trim channelId) (youtubeChannelCache w) with
               | Some c =>
                   if (now w - timestamp c <? YOUTUBE_CHANNEL_CACHE_TTL_MS)%Z
                   then ret (Some (data c)) else k
               | None => k
               end) w = k w).
    { intros k. unfold noFresh in Hstale.
      destruct (mapGet (trim channelId) (youtubeChannelCache w)) as [c|];
        [|reflexivity].
      destruct (Z.ltb_spec (now w - timestamp c)
                  YOUTUBE_CHANNEL_CACHE_TTL_MS);
        [lia | reflexivity]. }
    rewrite Hlookup. unfold bind, fetchChannels, channelOutcome.
    destruct (channelsEndpoint w (now w) (trim channelId) apiKey)
      as [delay [|status text|item]] eqn:He; cbn [snd] in *.
    + eexists _, _. split; [reflexivity|]. cbn.
      repeat split. eapply noFresh_later; [|exact Hstale]. lia.
    + destruct ((status =? 400)%Z || (status =? 403)%Z);
        (eexists _, _; split; [reflexivity|]; cbn; repeat split;
         eapply noFresh_later; [|exact Hstale]; lia).
    + now destruct (Hfail item).
  - intros w channelId apiKey Hid. unfold fetchYouTubeChannelInfo.
    now rewrite (proj2 (truthy_false _) Hid).
Qed.

End FailedLookups.

(** ** The overlays and the lock they share *)

Section SharedLock.
Import Js ScrollLock.

Lemma ids_differ : Background.SITE_OVERLAY_ID <> YouTubeContent.OVERLAY_ID.
Proof. discriminate. Qed.

Lemma union_difference_disjoint (L K : gset Listener) :
  L ## K -> (L ∪ K) ∖ K = L.
Proof.
  intros H. rewrite difference_union_distr_l_L, difference_diag_L,
    union_empty_r_L. now apply difference_disjoint_L.
Qed.

Ltac map_crush :=
  apply map_eq; intros k;
  destruct (decide (k = Background.SITE_OVERLAY_ID)) as [->|?];
  [|destruct (decide (k = YouTubeContent.OVERLAY_ID)) as [->|?]];
  simplify_map_eq; auto.

(** The site overlay put on a page by the injected function. *)
Lemma applySiteOverlayInPage_pageWith (w0 : Window) (video site : option string)
  (host : string) :
  cleanPage w0 ->
  Background.applySiteOverlayInPage host (pageWith video site w0)
  = pageWith video (Some (siteMessage host)) w0.
Proof.
  intros (Hl & [d Hd] & Hli & Hs & Hy & Hf).
  destruct w0 as [ls de bd li ov fl]. cbn in *. subst ls de fl.
  pose proof ids_differ as Hne.
  destruct video as [m|], site as [s|];
    unfold Background.applySiteOverlayInPage, pageWith, withOverlay, siteMessage,
      setSiteOverlayFlag, setOverlays;
    cbn [overlays body documentElement fmap option_fmap option_map].
  - (* both shown *)
    rewrite lookup_insert_ne by congruence. rewrite lookup_insert_eq.
    rewrite bool_decide_eq_true_2 by eauto.
    destruct bd; unfold lockScroll, ensureScrollLockState, setLockState, setListeners, setBody, setDocumentElement; cbn; f_equal; map_crush.
  - rewrite lookup_insert_ne by congruence. rewrite Hs.
    rewrite bool_decide_eq_false_2 by (intros [? ?]; discriminate).
    destruct bd; unfold lockScroll, ensureScrollLockState, setLockState, setListeners, setBody, setDocumentElement; cbn; f_equal; map_crush.
  - rewrite lookup_insert_eq.
    rewrite bool_decide_eq_true_2 by eauto.
    destruct bd; unfold lockScroll, ensureScrollLockState, setLockState, setListeners, setBody, setDocumentElement; cbn; f_equal; map_crush.
  - rewrite Hs.
    rewrite bool_decide_eq_false_2 by (intros [? ?]; discriminate).
    destruct bd; unfold lockScroll, ensureScrollLockState, setLockState, setListeners, setBody, setDocumentElement; cbn; f_equal; map_crush.
Qed.

Ltac finish_page :=
  repeat match goal with s : Style |- _ => destruct s end;
  cbn; f_equal; try reflexivity; f_equal; first [reflexivity | map_crush].

Ltac unfold_lock :=
  lazy beta iota zeta delta
    [YouTubeContent.setVideos YouTubeContent.setPage
     lockScroll unlockScroll ensureScrollLockState
     setLockState setListeners setBody setDocumentElement
     setSiteOverlayFlag setOverlays
     lockState documentElement body listeners overlays siteOverlayFlag
     count prevDocOverflow prevDocOverscroll prevBodyOverflow
     prevBodyTouchAction overflow overscrollBehavior touchAction].

Lemma removeSiteOverlayInPage_pageWith (w0 : Window) (video site : option string) :
  cleanPage w0 ->
  Background.removeSiteOverlayInPage (pageWith video site w0)
  = pageWith video None w0.
Proof.
  intros (Hl & [d Hd] & Hli & Hs & Hy & Hf).
  destruct w0 as [ls de bd li ov fl]. cbn in *. subst ls de fl.
  pose proof ids_differ as Hne.
  destruct video as [m|], site as [s|];
    unfold Background.removeSiteOverlayInPage, pageWith, withOverlay;
    cbn [overlays body documentElement fmap option_fmap option_map].
  - rewrite lookup_insert_ne by congruence. rewrite lookup_insert_eq.
    rewrite bool_decide_eq_true_2 by eauto.
    destruct bd; unfold_lock; cbn; f_equal; map_crush.
  - rewrite lookup_insert_ne by congruence. rewrite Hs.
    rewrite bool_decide_eq_false_2 by (intros [? ?]; discriminate).
    destruct bd; unfold_lock; cbn; f_equal; map_crush.
  - rewrite lookup_insert_eq.
    rewrite bool_decide_eq_true_2 by eauto.
    destruct bd; unfold_lock; cbn; rewrite (union_difference_disjoint _ _ Hli);
      finish_page.
  - rewrite Hs.
    rewrite bool_decide_eq_false_2 by (intros [? ?]; discriminate).
    unfold_lock; reflexivity.
Qed.

Lemma applyOverlay_pageWith (w0 : Window) (video site : option string)
  (channelTitle : string) (sc : YouTubeContent.Script) :
  cleanPage w0 ->
  YouTubeContent.page sc = pageWith video site w0 ->
  YouTubeContent.applyOverlay channelTitle sc
  = YouTubeContent.setVideos
      (YouTubeContent.pauseAllVideos (YouTubeContent.videos sc))
      (YouTubeContent.setPage
         (pageWith (Some (videoMessage channelTitle)) site w0) sc).
Proof.
  intros (Hl & [d Hd] & Hli & Hs & Hy & Hf) Hp.
  destruct w0 as [ls de bd li ov fl]. cbn in *. subst ls de fl.
  pose proof ids_differ as Hne.
  unfold YouTubeContent.applyOverlay, YouTubeContent.ensureOverlay.
  rewrite Hp.
  destruct video as [m|], site as [s|];
    unfold pageWith, withOverlay, videoMessage;
    cbn [overlays body documentElement fmap option_fmap option_map].
  - rewrite lookup_insert_eq. rewrite bool_decide_eq_true_2 by eauto.
    destruct bd; unfold_lock; cbn; f_equal; f_equal; map_crush.
  - rewrite lookup_insert_eq. rewrite bool_decide_eq_true_2 by eauto.
    destruct bd; unfold_lock; cbn; f_equal; f_equal; map_crush.
  - rewrite lookup_insert_ne by congruence. rewrite Hy.
    rewrite bool_decide_eq_false_2 by (intros [? ?]; discriminate).
    destruct bd; unfold_lock; cbn; f_equal; f_equal; map_crush.
  - rewrite Hy.
    rewrite bool_decide_eq_false_2 by (intros [? ?]; discriminate).
    destruct bd; unfold_lock; cbn; f_equal; f_equal; map_crush.
Qed.

Lemma clearOverlay_pageWith (w0 : Window) (video site : option string)
  (sc : YouTubeContent.Script) :
  cleanPage w0 ->
  YouTubeContent.page sc = pageWith video site w0 ->
  YouTubeContent.clearOverlay sc
  = YouTubeContent.setPage (pageWith None site w0) sc.
Proof.
  intros (Hl & [d Hd] & Hli & Hs & Hy & Hf) Hp.
  destruct w0 as [ls de bd li ov fl]. cbn in *. subst ls de fl.
  pose proof ids_differ as Hne.
  unfold YouTubeContent.clearOverlay.
  rewrite Hp.
  destruct video as [m|], site as [s|];
    unfold pageWith, withOverlay;
    cbn [overlays body documentElement fmap option_fmap option_map].
  - rewrite lookup_insert_eq. rewrite bool_decide_eq_true_2 by eauto.
    destruct bd; unfold_lock; cbn; f_equal; f_equal; map_crush.
  - rewrite lookup_insert_eq. rewrite bool_decide_eq_true_2 by eauto.
    destruct bd; unfold_lock; cbn; rewrite (union_difference_disjoint _ _ Hli);
      finish_page.
  - rewrite lookup_insert_ne by congruence. rewrite Hy.
    rewrite bool_decide_eq_false_2 by (intros [? ?]; discriminate).
    destruct sc; cbn in *; now subst.
  - rewrite Hy.
    rewrite bool_decide_eq_false_2 by (intros [? ?]; discriminate).
    destruct sc; cbn in *; now subst.
Qed.

End SharedLock.

(** ** The YouTube content script *)

Section YouTubeScript.
Import Js YouTubeContent.

Variable parseUrl : string -> option Url.
Variable searchParamsGet : Url -> string -> option string.

Lemma getActiveVideoId_trimmed (href v : string) :
  getActiveVideoId parseUrl searchParamsGet href = Some v ->
  trim v = v.
Proof.
  unfold getActiveVideoId.
  destruct (parseUrl href) as [u|]; [|discriminate].
  destruct (negb _); [discriminate|].
  destruct (String.eqb _ _).
  { destruct (searchParamsGet u "v") as [x|]; [|discriminate].
    destruct (truthy x); [|discriminate]. intros [= <-]. apply trim_idem. }
  destruct (startsWith _ "/shorts/").
  { destruct (_ !! 1%nat) as [x|]; [|discriminate].
    destruct (truthy x); [|discriminate]. intros [= <-]. apply trim_idem. }
  destruct (startsWith _ "/embed/"); [|discriminate].
  destruct (_ !! 1%nat) as [x|]; [|discriminate].
  destruct (truthy x); [|discriminate]. intros [= <-]. apply trim_idem.
Qed.

Lemma inSync_clear (w0 : ScrollLock.Window) (sc : Script) :
  cleanPage w0 -> inSync w0 sc ->
  inSync w0 (clearOverlay (setOverlayReason "" sc)).
Proof.
  intros Hc (video & site & Hp & Hr & Ht & Ho).
  rewrite (clearOverlay_pageWith w0 (videoMessage <$> video) site _ Hc)
    by exact Hp.
  exists None, site. repeat split; assumption.
Qed.

Lemma inSync_checkCurrentVideo (w0 : ScrollLock.Window) (href : string)
  (sc : Script) :
  cleanPage w0 -> inSync w0 sc ->
  inSync w0 (snd (checkCurrentVideo parseUrl searchParamsGet href sc)).
Proof.
  intros Hc Hs. unfold checkCurrentVideo.
  destruct (getActiveVideoId parseUrl searchParamsGet href) as [v|] eqn:Hv;
    [|now apply inSync_clear].
  destruct (truthy v) eqn:Htv; cbn [negb orb];
    [|now apply inSync_clear].
  destruct (extensionEnabled (state sc)); cbn [negb];
    [|now apply inSync_clear].
  destruct Hs as (video & site & Hp & Hr & Ht & Ho).
  exists video, site. cbn. repeat split; try assumption.
  - rewrite length_app. cbn. lia.
  - apply Forall_app. split; [assumption|].
    constructor; [|constructor]. split.
    + now apply truthy_true.
    + eapply getActiveVideoId_trimmed, Hv.
Qed.

Lemma inSync_setLastSignature (w0 : ScrollLock.Window) (s : string)
  (sc : Script) :
  inSync w0 sc -> inSync w0 (setLastSignature s sc).
Proof. intros (video & site & H). exists video, site. exact H. Qed.

Lemma inSync_setState (w0 : ScrollLock.Window) (s : State) (sc : Script) :
  inSync w0 sc -> inSync w0 (setState s sc).
Proof. intros (video & site & H). exists video, site. exact H. Qed.

Lemma inSync_queueCheck (w0 : ScrollLock.Window) (force : bool)
  (href : string) (sc : Script) :
  cleanPage w0 -> inSync w0 sc ->
  inSync w0 (snd (queueCheck parseUrl searchParamsGet force href sc)).
Proof.
  intros Hc Hs. unfold queueCheck.
  destruct (negb force && _); [exact Hs|].
  now apply inSync_checkCurrentVideo, inSync_setLastSignature.
Qed.

Lemma inSync_handleStorageChange (w0 : ScrollLock.Window)
  (changes : Changes) (areaName href : string) (sc : Script) :
  cleanPage w0 -> inSync w0 sc ->
  inSync w0
    (snd (handleStorageChange parseUrl searchParamsGet changes areaName href sc)).
Proof.
  intros Hc Hs. unfold handleStorageChange.
  destruct (negb _); [exact Hs|].
  destruct (changedExtensionEnabled changes),
    (changedBlockedYouTubeChannels changes);
    try (apply inSync_queueCheck; [assumption|]);
    repeat apply inSync_setState; exact Hs.
Qed.

Lemma inSync_resumed (w0 : ScrollLock.Window) (token : nat)
  (response : option Listeners.Response) (sc : Script) :
  cleanPage w0 -> inSync w0 sc ->
  inSync w0 (checkCurrentVideoResumed token response sc).
Proof.
  intros Hc Hs. unfold checkCurrentVideoResumed.
  destruct (negb _); [exact Hs|].
  assert (Hclear : inSync w0 (if truthy (overlayReason sc)
                              then clearOverlay (setOverlayReason "" sc)
                              else sc)).
  { destruct (truthy _); [now apply inSync_clear | exact Hs]. }
  destruct response as [r|]; [|exact Hclear].
  destruct (_ || _); [exact Hclear|].
  destruct Hs as (video & site & Hp & Hr & Ht & Ho).
  match goal with |- inSync _ (applyOverlay ?t _) => set (title := t) end.
  rewrite (applyOverlay_pageWith w0 (videoMessage <$> video) site title _ Hc)
    by exact Hp.
  exists (Some title), site. repeat split; assumption.
Qed.

Lemma inSync_handle (w0 : ScrollLock.Window) (sc : Script) (e : Event) :
  cleanPage w0 -> inSync w0 sc ->
  inSync w0 (handle parseUrl searchParamsGet sc e).
Proof.
  intros Hc Hs. destruct e; cbn [handle].
  - now apply inSync_queueCheck.
  - now apply inSync_queueCheck.
  - now apply inSync_clear.
  - now apply inSync_handleStorageChange.
  - now apply inSync_resumed.
  - exact Hs.
  - destruct Hs as (video & site & Hp & Hr & Ht & Ho).
    exists video, (Some (siteMessage host)). cbn.
    rewrite Hp. rewrite applySiteOverlayInPage_pageWith by exact Hc.
    repeat split; assumption.
  - destruct Hs as (video & site & Hp & Hr & Ht & Ho).
    exists video, None. cbn.
    rewrite Hp. rewrite removeSiteOverlayInPage_pageWith by exact Hc.
    repeat split; assumption.
Qed.

Lemma inSync_run (w0 : ScrollLock.Window) (events : list Event) (sc : Script) :
  cleanPage w0 -> inSync w0 sc ->
  inSync w0 (fold_left (handle parseUrl searchParamsGet) events sc).
Proof.
  intros Hc. revert sc.
  induction events as [|e events IH]; intros sc Hs; [exact Hs|].
  cbn. apply IH. now apply inSync_handle.
Qed.

Lemma inSync_initial (w0 : ScrollLock.Window) (st : State) (vs : list Video) :
  inSync w0 (initialScript st w0 vs).
Proof.
  exists None, None. repeat split. constructor.
Qed.

End YouTubeScript.

Section YouTubeOverlay.
Import Js YouTubeContent.

Variable parseUrl : string -> option Url.
Variable searchParamsGet : Url -> string -> option string.

Lemma overlays_pageWith (w0 : ScrollLock.Window) (video site : option string) :
  cleanPage w0 ->
  ScrollLock.overlays (pageWith video site w0) !! OVERLAY_ID = video
  /\ ScrollLock.overlays (pageWith video site w0) !! Background.SITE_OVERLAY_ID
     = site.
Proof.
  intros (Hl & _ & _ & Hs & Hy & _). pose proof ids_differ as Hne.
  destruct video, site; cbn; unfold withOverlay; split;
    simplify_map_eq; auto.
Qed.

(** X10. Whatever happens to the script and whatever the worker injects,
    the document is the initial one with the overlays that are shown:
    untouched when none is shown, and otherwise locked, the lock
    counting the overlays and holding the initial styles. *)
Theorem overlays_share_the_lock (st : State) (w0 : ScrollLock.Window)
  (vs : list Video) (events : list Event) :
  cleanPage w0 ->
  let sc := fold_left (handle parseUrl searchParamsGet) events
              (initialScript st w0 vs) in
  let video := ScrollLock.overlays (page sc) !! OVERLAY_ID in
  let site := ScrollLock.overlays (page sc) !! Background.SITE_OVERLAY_ID in
  page sc = pageWith video site w0
  /\ (video = None -> site = None -> page sc = w0)
  /\ (ScrollLock.count <$> ScrollLock.lockState (page sc)) =
     (if Nat.eqb (holders video site) 0 then None
      else Some (Z.of_nat (holders video site)))
  /\ ScrollLock.siteOverlayFlag (page sc) = bool_decide (is_Some site).
Proof.
  intros Hc. cbv zeta.
  destruct (inSync_run parseUrl searchParamsGet w0 events _ Hc
              (inSync_initial w0 st vs)) as (video & site & Hp & _).
  rewrite Hp.
  destruct (overlays_pageWith w0 (videoMessage <$> video) site Hc) as [-> ->].
  split; [reflexivity|].
  split; [now intros -> ->|].
  destruct Hc as (Hl & _ & _ & _ & _ & Hf).
  destruct video, site; cbn; rewrite ?Hl, ?Hf; repeat split;
    try reflexivity.
  all: symmetry; apply bool_decide_eq_false_2; intros [? ?]; discriminate.
Qed.

(** X11. The overlay of the script follows [overlayReason]: it is absent
    when the reason is empty and shows the channel that the reason
    names otherwise.  Every message to the worker took a fresh token,
    and its video identifier is trimmed and not empty. *)
Theorem overlay_follows_reason (st : State) (w0 : ScrollLock.Window)
  (vs : list Video) (events : list Event) :
  cleanPage w0 ->
  let sc := fold_left (handle parseUrl searchParamsGet) events
              (initialScript st w0 vs) in
  ((overlayReason sc = ""
    /\ ScrollLock.overlays (page sc) !! OVERLAY_ID = None)
   \/ (exists channelTitle,
         overlayReason sc = "blocked:" +:+ channelTitle
         /\ ScrollLock.overlays (page sc) !! OVERLAY_ID
            = Some (videoMessage channelTitle)))
  /\ checkToken sc = length (outbox sc)
  /\ Forall (fun videoId => videoId <> "" /\ trim videoId = videoId)
       (outbox sc).
Proof.
  intros Hc. cbv zeta.
  destruct (inSync_run parseUrl searchParamsGet w0 events _ Hc
              (inSync_initial w0 st vs)) as (video & site & Hp & Hr & Ht & Ho).
  split; [|split; assumption].
  rewrite Hp, Hr.
  destruct (overlays_pageWith w0 (videoMessage <$> video) site Hc) as [-> _].
  destruct video as [t|]; [right; now exists t | now left].
Qed.

(** The continuation of a check on a script that agrees with its
    document. *)
Lemma checkCurrentVideoResumed_decides (w0 : ScrollLock.Window) (sc : Script)
  (token : nat) (response : option Listeners.Response) :
  cleanPage w0 -> inSync w0 sc ->
  let sc' := checkCurrentVideoResumed token response sc in
  (token <> checkToken sc -> sc' = sc)
  /\ (token = checkToken sc ->
      (ScrollLock.overlays (page sc') !! OVERLAY_ID =
       match response with
       | Some r => if refuses response
                   then Some (videoMessage (shownTitle r)) else None
       | None => None
       end)
      /\ (refuses response = true ->
          Forall (fun v => paused v = true /\ currentTime v = 0%Z)
            (videos sc')
          /\ length (videos sc') = length (videos sc))
      /\ (refuses response = false -> videos sc' = videos sc)
      /\ ScrollLock.overlays (page sc') !! Background.SITE_OVERLAY_ID
         = ScrollLock.overlays (page sc) !! Background.SITE_OVERLAY_ID
      /\ outbox sc' = outbox sc).
Proof.
  intros Hc (video & site & Hp & Hr & Ht & Ho). cbv zeta.
  unfold checkCurrentVideoResumed.
  split.
  { intros Hne. apply Nat.eqb_neq in Hne. now rewrite Hne. }
  intros ->. rewrite Nat.eqb_refl. cbn [negb].
  destruct (overlays_pageWith w0 (videoMessage <$> video) site Hc) as [Hy Hs].
  assert (Hclear :
    let sc' := if truthy (overlayReason sc)
               then clearOverlay (setOverlayReason "" sc) else sc in
    ScrollLock.overlays (page sc') !! OVERLAY_ID = None
    /\ videos sc' = videos sc
    /\ ScrollLock.overlays (page sc') !! Background.SITE_OVERLAY_ID
       = ScrollLock.overlays (page sc) !! Background.SITE_OVERLAY_ID
    /\ outbox sc' = outbox sc).
  { cbv zeta. destruct (truthy (overlayReason sc)) eqn:Htr.
    - rewrite (clearOverlay_pageWith w0 (videoMessage <$> video) site _ Hc)
        by exact Hp. cbn [page setPage videos outbox setOverlayReason].
      destruct (overlays_pageWith w0 None site Hc) as [-> ->].
      rewrite Hp, Hs. auto.
    - apply truthy_false in Htr. rewrite Htr in Hr.
      destruct video; [discriminate|].
      rewrite Hp, Hy. auto. }
  cbv zeta in Hclear. destruct Hclear as (C1 & C2 & C3 & C4).
  destruct response as [r|]; cbn [refuses].
  2:{ split; [assumption|]. split; [discriminate|]. auto. }
  destruct (Listeners.responseAllowed r) eqn:Ha; cbn [negb orb andb].
  { split; [assumption|]. split; [discriminate|]. auto. }
  destruct (Listeners.responseReason r) as [[]|]; cbn [negb];
    try (split; [assumption|]; split; [discriminate|]; now auto).
  fold (shownTitle r).
  rewrite (applyOverlay_pageWith w0 (videoMessage <$> video) site _ _ Hc)
    by exact Hp.
  cbn [page setPage setVideos videos outbox setOverlayReason].
  destruct (overlays_pageWith w0 (Some (videoMessage (shownTitle r))) site Hc)
    as [-> ->].
  rewrite Hp, Hs.
  split; [reflexivity|]. split; [|split; [discriminate|auto]].
  intros _. unfold pauseAllVideos. split; [|apply length_map].
  apply Forall_forall. intros v Hv. apply list_elem_of_In in Hv.
  apply in_map_iff in Hv as (? & <- & _). auto.
Qed.

(** X12. Only the answer to the latest check counts.  An answer that
    comes with another token than the current one changes nothing.  The
    answer to the current check puts the overlay up exactly when it
    refuses the video, with the channel title of the answer or the text
    Blocked channel when there is none, and then every video element is
    paused and rewound; any other answer, also one that carries an
    error, takes the overlay away.  The site overlay is not touched. *)
Theorem latest_answer_decides (st : State) (w0 : ScrollLock.Window)
  (vs : list Video) (events : list Event) (token : nat)
  (response : option Listeners.Response) :
  cleanPage w0 ->
  let sc := fold_left (handle parseUrl searchParamsGet) events
              (initialScript st w0 vs) in
  let sc' := handle parseUrl searchParamsGet sc (Answered token response) in
  (token <> checkToken sc -> sc' = sc)
  /\ (token = checkToken sc ->
      (ScrollLock.overlays (page sc') !! OVERLAY_ID =
       match response with
       | Some r => if refuses response
                   then Some (videoMessage (shownTitle r)) else None
       | None => None
       end)
      /\ (refuses response = true ->
          Forall (fun v => paused v = true /\ currentTime v = 0%Z)
            (videos sc')
          /\ length (videos sc') = length (videos sc))
      /\ (refuses response = false -> videos sc' = videos sc)
      /\ ScrollLock.overlays (page sc') !! Background.SITE_OVERLAY_ID
         = ScrollLock.overlays (page sc) !! Background.SITE_OVERLAY_ID
      /\ outbox sc' = outbox sc).
Proof.
  intros Hc. cbv zeta. cbn [handle].
  apply (checkCurrentVideoResumed_decides w0 _ token response Hc).
  apply inSync_run; [exact Hc | apply inSync_initial].
Qed.

(** X14. After a check of the address, forced or not, a tick of the
    timer at the same address sends no message and changes nothing: the
    timer reaches the worker only when the address, the switch or the
    length of the block list has changed since the last check. *)
Theorem queueCheck_quiet (force : bool) (href : string) (sc : Script) :
  let sc' := snd (queueCheck parseUrl searchParamsGet force href sc) in
  queueCheck parseUrl searchParamsGet false href sc' = (None, sc')
  /\ forall href' sc0,
       outbox (snd (queueCheck parseUrl searchParamsGet false href' sc0))
         <> outbox sc0 ->
       buildSignature href' sc0 <> lastSignature sc0.
Proof.
  cbv zeta. split.
  - assert (Hsig : lastSignature
                     (snd (queueCheck parseUrl searchParamsGet force href sc))
                   = buildSignature href
                       (snd (queueCheck parseUrl searchParamsGet force href sc))).
    { unfold queueCheck.
      destruct (negb force && (buildSignature href sc =? lastSignature sc)%string)
        eqn:E.
      - apply andb_true_iff in E as [_ E]. apply String.eqb_eq in E.
        cbn [snd]. now symmetry.
      - unfold checkCurrentVideo.
        destruct (getActiveVideoId parseUrl searchParamsGet href) as [v|];
          [destruct (negb (truthy v) || _)|]; cbn; unfold clearOverlay; cbn;
          try destruct (bool_decide _); reflexivity. }
    unfold queueCheck at 1. rewrite Hsig, String.eqb_refl. reflexivity.
  - intros href' sc0 Hsent E. apply Hsent.
    unfold queueCheck. rewrite E, String.eqb_refl. reflexivity.
Qed.

End YouTubeOverlay.

Section ActiveVideo.
Import Js YouTubeContent.

Variable parseUrl : string -> option Url.
Variable searchParamsGet : Url -> string -> option string.

Lemma pathSegments_second (first seg rest : string) :
  first <> "" -> noSlash first -> seg <> "" -> noSlash seg ->
  segmentEnd rest ->
  Background.pathSegments
    (String "/"%char (first +:+ String "/"%char (seg +:+ rest))) !! 1%nat
  = Some seg.
Proof.
  intros Hf Hfs Hs Hss Hrest. unfold Background.pathSegments.
  cbn [split]. rewrite Ascii.eqb_refl.
  rewrite (split_app_sep _ _ _ Hfs).
  destruct (split_segment seg rest Hss Hrest) as [more ->].
  cbn [List.filter truthy String.eqb negb].
  rewrite (proj2 (truthy_true _) Hf), (proj2 (truthy_true _) Hs).
  reflexivity.
Qed.

(** X15. The video that a page plays, as the script reads it from
    the address.  There is none when the address cannot be parsed or
    the host does not end with youtube.com.  On /watch it is the
    trimmed parameter v, when that is not empty; on /shorts/<id> and
    /embed/<id>, also with more path behind, it is the trimmed <id>; on
    any other path there is none.  An identifier that is returned is
    trimmed. *)
Theorem getActiveVideoId_spec :
  (forall href,
     parseUrl href = None ->
     getActiveVideoId parseUrl searchParamsGet href = None)
  /\ (forall href u,
        parseUrl href = Some u ->
        (endsWith (hostname u) "youtube.com" = false ->
         getActiveVideoId parseUrl searchParamsGet href = None)
        /\ (endsWith (hostname u) "youtube.com" = true ->
            (pathname u = "/watch" ->
             getActiveVideoId parseUrl searchParamsGet href
             = match searchParamsGet u "v" with
               | Some v => if truthy v then Some (trim v) else None
               | None => None
               end)
            /\ (forall seg rest,
                  seg <> "" -> noSlash seg -> segmentEnd rest ->
                  pathname u = "/shorts/" +:+ seg +:+ rest
                  \/ pathname u = "/embed/" +:+ seg +:+ rest ->
                  getActiveVideoId parseUrl searchParamsGet href
                  = Some (trim seg))
            /\ (pathname u <> "/watch" ->
                startsWith (pathname u) "/shorts/" = false ->
                startsWith (pathname u) "/embed/" = false ->
                getActiveVideoId parseUrl searchParamsGet href = None)))
  /\ (forall href v,
        getActiveVideoId parseUrl searchParamsGet href = Some v ->
        trim v = v).
Proof.
  split; [|split].
  - intros href Hp. unfold getActiveVideoId. now rewrite Hp.
  - intros href u Hp. unfold getActiveVideoId. rewrite Hp. split.
    { now intros ->. }
    intros ->. cbn [negb]. split; [|split].
    + intros ->. reflexivity.
    + intros seg rest Hne Hseg Hrest [-> | ->].
      * change ("/shorts/" +:+ seg +:+ rest)
          with (String "/"%char ("shorts" +:+ String "/"%char (seg +:+ rest))).
        rewrite pathSegments_second by first [assumption | discriminate | reflexivity].
        rewrite !append_cons. cbn [String.eqb Ascii.eqb Bool.eqb].
        change (startsWith ?s "/shorts/")
          with (match stripPrefix "/shorts/" s with
                | Some _ => true
                | None => false
                end).
        cbn [stripPrefix Ascii.eqb Bool.eqb]. rewrite append_nil_l.
        cbn [stripPrefix].
        now rewrite (proj2 (truthy_true _) Hne).
      * change ("/embed/" +:+ seg +:+ rest)
          with (String "/"%char ("embed" +:+ String "/"%char (seg +:+ rest))).
        rewrite pathSegments_second by first [assumption | discriminate | reflexivity].
        rewrite !append_cons. cbn [String.eqb Ascii.eqb Bool.eqb].
        unfold startsWith.
        cbn [stripPrefix Ascii.eqb Bool.eqb]. rewrite append_nil_l.
        cbn [stripPrefix].
        now rewrite (proj2 (truthy_true _) Hne).
    + intros Hw Hs He. apply String.eqb_neq in Hw. now rewrite Hw, Hs, He.
  - intros href v. apply getActiveVideoId_trimmed.
Qed.

(** X13. A forced check of the address either asks the worker or
    takes the overlay away.  When the page plays a video and the master
    switch is on, one message with the identifier of the video is sent
    under a fresh token, and the document stays as it is until the
    answer comes.  On any other page, and whenever the master switch is
    off, no message is sent, the reason is emptied and the overlay of
    the script is gone; the site overlay is left alone. *)
Theorem forced_check_asks_or_clears (st : State) (w0 : ScrollLock.Window)
  (vs : list Video) (events : list Event) (href : string) :
  cleanPage w0 ->
  let sc := fold_left (handle parseUrl searchParamsGet) events
              (initialScript st w0 vs) in
  let sc' := handle parseUrl searchParamsGet sc (NavigateFinish href) in
  let cleared :=
    ScrollLock.overlays (page sc') !! OVERLAY_ID = None
    /\ overlayReason sc' = ""
    /\ outbox sc' = outbox sc
    /\ checkToken sc' = checkToken sc
    /\ ScrollLock.overlays (page sc') !! Background.SITE_OVERLAY_ID
       = ScrollLock.overlays (page sc) !! Background.SITE_OVERLAY_ID in
  match getActiveVideoId parseUrl searchParamsGet href with
  | Some videoId =>
      if truthy videoId && extensionEnabled (state sc) then
        outbox sc' = outbox sc ++ [videoId]
        /\ checkToken sc' = S (checkToken sc)
        /\ page sc' = page sc
        /\ overlayReason sc' = overlayReason sc
      else cleared
  | None => cleared
  end.
Proof.
  intros Hc. cbv zeta.
  destruct (inSync_run parseUrl searchParamsGet w0 events _ Hc
              (inSync_initial w0 st vs)) as (video & site & Hp & Hr & Ht & Ho).
  set (sc := fold_left _ _ _) in *. clearbody sc.
  cbn [handle]. unfold queueCheck. cbn [negb andb].
  unfold checkCurrentVideo.
  assert (Hclear :
    let sc' := clearOverlay
                 (setOverlayReason ""
                    (setLastSignature (buildSignature href sc) sc)) in
    ScrollLock.overlays (page sc') !! OVERLAY_ID = None
    /\ overlayReason sc' = ""
    /\ outbox sc' = outbox sc
    /\ checkToken sc' = checkToken sc
    /\ ScrollLock.overlays (page sc') !! Background.SITE_OVERLAY_ID
       = ScrollLock.overlays (page sc) !! Background.SITE_OVERLAY_ID).
  { cbv zeta.
    rewrite (clearOverlay_pageWith w0 (videoMessage <$> video) site _ Hc)
      by exact Hp.
    cbn [page setPage setOverlayReason setLastSignature overlayReason
           outbox checkToken].
    destruct (overlays_pageWith w0 None site Hc) as [-> ->].
    rewrite Hp.
    destruct (overlays_pageWith w0 (videoMessage <$> video) site Hc)
      as [_ ->].
    auto. }
  cbn [state setLastSignature] in *.
  destruct (getActiveVideoId parseUrl searchParamsGet href) as [v|];
    [|exact Hclear].
  destruct (truthy v); cbn [negb orb andb]; [|exact Hclear].
  destruct (extensionEnabled (state sc)); cbn [negb]; [|exact Hclear].
  cbn. auto.
Qed.

End ActiveVideo.

Section VideoOverlayEndToEnd.
Import Js YouTubeContent.

Variable parseUrl : string -> option Url.
Variable searchParamsGet : Url -> string -> option string.

(** X16. From the worker to the page: when the answer of the listener
    to a check reaches the script that holds the current token, the
    overlay is up afterwards exactly when the check of the worker
    returned a verdict that refuses the video; when a lookup failed,
    the overlay is down. *)
Theorem refusal_reaches_the_page (st : State) (w0 : ScrollLock.Window)
  (vs : list Video) (events : list Event) (world : Background.World)
  (videoId : option string) :
  cleanPage w0 ->
  let sc := fold_left (handle parseUrl searchParamsGet) events
              (initialScript st w0 vs) in
  let check := Background.handleYouTubeVideoCheck parseUrl videoId world in
  exists (response : Listeners.Response) (world' : Background.World),
    Listeners.onMessage parseUrl
      (Some (Listeners.mkMessage "youtube-check-video" videoId)) world
    = (Background.Ok (Some response), world')
    /\ world' = snd check
    /\ let sc' := handle parseUrl searchParamsGet sc
                    (Answered (checkToken sc) (Some response)) in
       (is_Some (ScrollLock.overlays (page sc') !! OVERLAY_ID)
        <-> exists v, fst check = Background.Ok v
                      /\ Background.allowed v = false)
       /\ (forall e, fst check = Background.Throw e ->
             ScrollLock.overlays (page sc') !! OVERLAY_ID = None
             /\ overlayReason sc' = "").
Proof.
  intros Hc. cbv zeta.
  pose proof (inSync_run parseUrl searchParamsGet w0 events _ Hc
                (inSync_initial w0 st vs)) as Hs.
  set (sc := fold_left _ _ _) in *. clearbody sc.
  unfold Listeners.onMessage. cbn [Listeners.messageType].
  rewrite String.eqb_refl. cbn [Listeners.messageVideoId].
  destruct (Background.handleYouTubeVideoCheck parseUrl videoId world)
    as [[v|err] world1] eqn:Hcheck.
  - exists (Listeners.responseOfVerdict v), world1.
    split; [reflexivity|]. split; [reflexivity|]. cbn [handle fst].
    destruct (checkCurrentVideoResumed_decides w0 sc (checkToken sc)
                (Some (Listeners.responseOfVerdict v)) Hc Hs)
      as [_ Hd].
    destruct (Hd eq_refl) as (Hov & _). rewrite Hov.
    destruct (handleYouTubeVideoCheck_verdict _ _ _ _ _ Hcheck) as [Hiff _].
    unfold refuses. cbn [Listeners.responseAllowed Listeners.responseReason
                           Listeners.responseOfVerdict].
    split; [|intros e [=]].
    destruct (Background.allowed v) eqn:Ha; cbn [negb andb].
    + split; [intros [? [=]]|]. intros (v' & [= <-] & Hf). congruence.
    + rewrite (proj1 Hiff eq_refl). split; [|eauto]. intros _. eauto.
  - exists (Listeners.mkResponse true None None None (Some err)), world1.
    split; [reflexivity|]. split; [reflexivity|]. cbn [handle fst].
    destruct (checkCurrentVideoResumed_decides w0 sc (checkToken sc)
                (Some (Listeners.mkResponse true None None None (Some err)))
                Hc Hs) as [_ Hd].
    destruct (Hd eq_refl) as (Hov & _). rewrite Hov. cbn.
    split.
    + split; [intros [? [=]]|]. intros (v' & [=] & _).
    + intros e _. split; [reflexivity|].
      unfold checkCurrentVideoResumed. rewrite Nat.eqb_refl. cbn.
      destruct (truthy (overlayReason sc)) eqn:Htr.
      * unfold clearOverlay. cbn. now destruct (bool_decide _).
      * now apply truthy_false in Htr.
Qed.

End VideoOverlayEndToEnd.

(** ** Events of the Reddit content script *)

Section RedditEventsFacts.
Import Js RedditContent RedditEvents.

(** X17. After a check of the location, forced or not, a tick of the
    timer at the same location changes nothing: the timer decides again
    only when the address, a switch or the allow list has changed. *)
Theorem checkLocation_quiet (force : bool) (location : Url) (sc : Script) :
  checkLocation false location (checkLocation force location sc)
  = checkLocation force location sc.
Proof.
  destruct (negb (endsWith (toLowerCase (hostname location)) "reddit.com"))
    eqn:Hsite.
  { unfold checkLocation. rewrite Hsite. reflexivity. }
  set (key := join "|" [href location;
                        stringOfBool (extensionEnabled (state sc));
                        stringOfBool (blockReddit (state sc));
                        stringOfNat (listsVersion sc)]).
  assert (Hr : state (checkLocation force location sc) = state sc
               /\ listsVersion (checkLocation force location sc)
                  = listsVersion sc
               /\ lastDecisionKey (checkLocation force location sc) = key).
  { unfold checkLocation. rewrite Hsite. fold key.
    destruct (negb force && String.eqb key (lastDecisionKey sc)) eqn:Hsame.
    { apply andb_true_iff in Hsame as [_ Hk]. apply String.eqb_eq in Hk.
      auto. }
    cbn [state setOverlayState].
    destruct (negb (extensionEnabled (state sc))); [now repeat split|].
    destruct (determineBlockReason _ _ _); now repeat split. }
  destruct Hr as (Hs & Hv & Hk).
  set (r := checkLocation force location sc) in *. clearbody r.
  unfold checkLocation. rewrite Hsite, Hs, Hv.
  fold key. rewrite Hk, String.eqb_refl. reflexivity.
Qed.

Lemma forced_decision_ext (location : Url) (sc1 sc2 : Script) :
  state sc1 = state sc2 -> allowedSet sc1 = allowedSet sc2 ->
  decisionOf (checkLocation true location sc1)
  = decisionOf (checkLocation true location sc2).
Proof.
  intros Hs Ha.
  destruct (endsWith (toLowerCase (hostname location)) "reddit.com") eqn:Hsite.
  - rewrite !checkLocation_forced by exact Hsite.
    unfold determineBlockReason. now rewrite Hs, Ha.
  - unfold checkLocation. rewrite Hsite. reflexivity.
Qed.

(** X19. A change of the storage takes effect at once and the past
    of the script does not matter: after the event, the page shows what
    a script started with the new settings shows at the same location.
    Events of another storage area change nothing. *)
Theorem onStorageChanged_decides_afresh (changes : Changes)
  (areaName : string) (location : Url) (sc : Script) :
  setMatchesList sc ->
  (areaName <> "sync" -> onStorageChanged changes areaName location sc = sc)
  /\ (areaName = "sync" ->
      let st := stateAfter changes (state sc) in
      state (onStorageChanged changes areaName location sc) = st
      /\ setMatchesList (onStorageChanged changes areaName location sc)
      /\ decisionOf (onStorageChanged changes areaName location sc)
         = decisionOf
             (checkLocation true location
                (scriptWith (allowedSubreddits st) (blockReddit st)
                   (extensionEnabled st)))).
Proof.
  intros Hset. unfold onStorageChanged. split.
  { intros Hne. apply String.eqb_neq in Hne. now rewrite Hne. }
  intros ->. rewrite String.eqb_refl.
  cbn [negb]. cbv zeta.
  set (sc' := match changedExtensionEnabled changes with
              | Some _ => _
              | None => _
              end).
  assert (Hst : state sc' = stateAfter changes (state sc)).
  { unfold sc', stateAfter.
    destruct (changedAllowedSubreddits changes),
      (changedBlockReddit changes), (changedExtensionEnabled changes);
      cbn; try reflexivity; now destruct (state sc). }
  assert (Hal : allowedSet sc' = allowedSet (rebuildSets sc')).
  { unfold sc', setMatchesList in *.
    destruct (changedAllowedSubreddits changes),
      (changedBlockReddit changes), (changedExtensionEnabled changes);
      cbn; try reflexivity; exact Hset. }
  assert (Hframe : forall f l s,
            state (checkLocation f l s) = state s
            /\ allowedSet (checkLocation f l s) = allowedSet s).
  { intros f l s. unfold checkLocation.
    destruct (negb (endsWith _ _)); [now split|].
    destruct (negb f && _); [now split|]. cbn [state setOverlayState].
    destruct (negb (extensionEnabled (state s))); [now split|].
    destruct (determineBlockReason _ _ _); now split. }
  destruct (Hframe true location sc') as [Hs1 Ha1].
  split; [now rewrite Hs1|]. split.
  { unfold setMatchesList, rebuildSets. cbn [allowedSet].
    rewrite Hs1, Ha1. exact Hal. }
  apply forced_decision_ext.
  - rewrite Hst. unfold scriptWith, rebuildSets. cbn [state].
    now destruct (stateAfter changes (state sc)).
  - rewrite Hal. unfold scriptWith, rebuildSets. cbn [allowedSet state].
    now rewrite Hst.
Qed.

End RedditEventsFacts.

Section AllowList.
Import Js.

Lemma normalizeSubreddit_agree (raw : string) :
  RedditContent.normalizeSubreddit raw
  = if truthy raw then Some (Background.normalizeSubreddit raw) else None.
Proof.
  unfold RedditContent.normalizeSubreddit. now destruct (truthy raw).
Qed.

Lemma elem_of_allowedSet (allowed : list string) (block enabled : bool)
  (s : string) :
  s ∈ RedditContent.allowedSet (scriptWith allowed block enabled)
  <-> s <> "" /\
      exists raw, raw ∈ allowed /\ s = Background.normalizeSubreddit raw.
Proof.
  unfold scriptWith, RedditContent.rebuildSets.
  cbn [RedditContent.allowedSet RedditContent.state
         RedditContent.allowedSubreddits].
  rewrite elem_of_list_to_set, list_elem_of_omap. split.
  - intros (raw & Hraw & Hf). rewrite normalizeSubreddit_agree in Hf.
    destruct (truthy raw); [|discriminate].
    destruct (truthy (Background.normalizeSubreddit raw)) eqn:Ht;
      [|discriminate].
    injection Hf as <-. split; [now apply truthy_true|]. now exists raw.
  - intros (Hne & raw & Hraw & ->). exists raw. split; [exact Hraw|].
    rewrite normalizeSubreddit_agree.
    destruct (truthy raw) eqn:Hr.
    + now rewrite (proj2 (truthy_true _) Hne).
    + apply truthy_false in Hr. subst raw. now contradiction Hne.
Qed.

Lemma allowRule_in_compiledRules (state : Background.State) (s : string) :
  Background.normalizeBoolean (Background.blockReddit state) = true ->
  (exists i, allowRule i s ∈ Background.compiledRules state)
  <-> s ∈ distinctSubreddits state.
Proof.
  intros Hb. rewrite compiledRules_shape, Hb. split.
  - intros (i & Hin). apply elem_of_app in Hin as [Hin | Hin].
    { apply elem_of_lookup_imap in Hin as (j & h & E & _). discriminate. }
    apply elem_of_cons in Hin as [E | Hin]; [discriminate|].
    apply elem_of_lookup_imap in Hin as (j & s' & E & Hs').
    unfold allowRule in E. injection E as _ E.
    assert (s = s') as ->.
    { revert E. generalize "||reddit.com/r/". intros p.
      induction p as [|c p IH]; rewrite ?append_nil_l, ?append_cons;
        [auto | intros [= E]; auto]. }
    eapply list_elem_of_lookup_2, Hs'.
  - intros Hin. apply list_elem_of_lookup_1 in Hin as [i Hi].
    exists i. apply elem_of_app. right. right.
    apply elem_of_lookup_imap. now exists i, s.
Qed.

(** X20. The worker and the Reddit content script read the allow list
    alike: with the Reddit switch on, the script holds a subreddit in its
    allow set exactly when the compiled rules hold an allow rule for it;
    so a page of a subreddit is left clear by the script exactly when
    such a rule exists. *)
Theorem allow_list_agrees_with_rules (state : Background.State)
  (location : Url) (name : string) :
  Background.normalizeBoolean (Background.blockReddit state) = true ->
  onReddit location ->
  RedditContent.extractSubreddit (currentPath location) = Some name ->
  name <> "" ->
  let sc := scriptWith (Background.allowedSubreddits state) true true in
  (forall s, s ∈ RedditContent.allowedSet sc
             <-> exists i, allowRule i s ∈ Background.compiledRules state)
  /\ (decisionOf (RedditContent.checkLocation true location sc) = clear
      <-> exists i, allowRule i name ∈ Background.compiledRules state).
Proof.
  intros Hb Hsite Hname Hne. cbv zeta.
  assert (Hset : forall s,
            s ∈ RedditContent.allowedSet
                  (scriptWith (Background.allowedSubreddits state) true true)
            <-> exists i, allowRule i s ∈ Background.compiledRules state).
  { intros s. rewrite (allowRule_in_compiledRules _ _ Hb).
    rewrite elem_of_allowedSet. symmetry. apply distinctSubreddits_elem. }
  split; [exact Hset|].
  rewrite <- Hset.
  rewrite (checkLocation_forced _ _ Hsite).
  change (RedditContent.extensionEnabled
            (RedditContent.state
               (scriptWith (Background.allowedSubreddits state) true true)))
    with true. cbn [negb].
  unfold currentPath in Hname.
  rewrite (determineBlockReason_subreddit
             (scriptWith (Background.allowedSubreddits state) true true)
             _ _ name eq_refl Hname Hne).
  destruct (bool_decide_reflect
              (name ∈ RedditContent.allowedSet
                        (scriptWith (Background.allowedSubreddits state)
                           true true))) as [Hin | Hout].
  - tauto.
  - split; [discriminate | contradiction].
Qed.

End AllowList.

Section Switches.
Import Js.

(** X9. How a stored switch is read.  It is off for the values
    undefined, null, false, the number 0, the empty string and any
    string that is the word false once trimmed and lower-cased; it is on
    for every other value, among them the strings 0, no and off.  The
    worker and the two content scripts read a switch alike. *)
Theorem normalizeBoolean_reading (v : Value) :
  (Background.normalizeBoolean v = false
   <-> v = Undefined \/ v = Null \/ v = Bool false \/ v = Number 0
       \/ exists s, v = Str s /\ (s = "" \/ toLowerCase (trim s) = "false"))
  /\ YouTubeContent.normalizeBoolean v = Background.normalizeBoolean v
  /\ RedditEvents.normalizeBoolean v = Background.normalizeBoolean v
  /\ Background.normalizeBoolean (Str "0") = true
  /\ Background.normalizeBoolean (Str "no") = true
  /\ Background.normalizeBoolean (Str "off") = true
  /\ Background.normalizeBoolean (Str " FALSE ") = false.
Proof.
  split; [|repeat split; reflexivity].
  destruct v as [| |b|z|s|]; cbn.
  - tauto.
  - tauto.
  - destruct b.
    + split; [discriminate|].
      intros [H|[H|[H|[H|(s & H & _)]]]]; discriminate.
    + split; auto.
  - destruct (Z.eqb_spec z 0) as [-> | Hz]; cbn.
    + split; auto.
    + split; [discriminate|].
      intros [H|[H|[H|[H|(s & H & _)]]]]; try discriminate.
      injection H as ->. contradiction.
  - destruct (String.eqb_spec (toLowerCase (trim s)) "true") as [Ht | Ht].
    + split; [discriminate|].
      intros [H|[H|[H|[H|(s' & H & Hs)]]]]; try discriminate.
      injection H as <-. destruct Hs as [-> | Hf]; [discriminate|congruence].
    + destruct (String.eqb_spec (toLowerCase (trim s)) "false") as [Hf | Hf].
      * split; [|reflexivity]. intros _. do 4 right. exists s. auto.
      * unfold truthy. destruct (String.eqb_spec s "") as [-> | Hs]; cbn.
        -- split; [|reflexivity]. intros _. do 4 right. exists "". auto.
        -- split; [discriminate|].
           intros [H|[H|[H|[H|(s' & H & Hs')]]]]; try discriminate.
           injection H as <-. destruct Hs'; contradiction.
  - split; [discriminate|].
    intros [H|[H|[H|[H|(s & H & _)]]]]; discriminate.
Qed.

End Switches.

Section RedditTrace.
Import Js RedditContent RedditEvents.

Variable locationOf : string -> Url.
Hypothesis href_locationOf : forall h, href (locationOf h) = h.

Lemma append_inv_tail (a b t : string) : a +:+ t = b +:+ t -> a = b.
Proof.
  revert b. induction a as [|c a IH]; intros [|d b] H.
  - reflexivity.
  - exfalso. apply (f_equal String.length) in H.
    rewrite append_nil_l, length_append in H. cbn in H. lia.
  - exfalso. apply (f_equal String.length) in H.
    rewrite append_nil_l, length_append in H. cbn in H. lia.
  - rewrite !append_cons in H. injection H as -> H. f_equal. now apply IH.
Qed.

Lemma decisionKey_href (l1 l2 : Url) (sc : Script) :
  decisionKey l1 sc = decisionKey l2 sc -> href l1 = href l2.
Proof.
  unfold decisionKey. cbn [join]. apply append_inv_tail.
Qed.

Lemma decisionKey_not_empty (l : Url) (sc : Script) : decisionKey l sc <> "".
Proof.
  unfold decisionKey. cbn [join]. destruct (href l); [|discriminate].
  rewrite append_nil_l. discriminate.
Qed.

Lemma checkLocation_frame (f : bool) (l : Url) (s : Script) :
  state (checkLocation f l s) = state s
  /\ allowedSet (checkLocation f l s) = allowedSet s
  /\ listsVersion (checkLocation f l s) = listsVersion s.
Proof.
  unfold checkLocation.
  destruct (negb (endsWith _ _)); [now repeat split|].
  destruct (negb f && _); [now repeat split|]. cbn [state setOverlayState].
  destruct (negb (extensionEnabled (state s))); [now repeat split|].
  destruct (determineBlockReason _ _ _); now repeat split.
Qed.

(** A check that decides: the key of the location is recorded, or the
    location is not on the site and the empty key is. *)
Lemma checkLocation_decided (f : bool) (l : Url) (sc : Script) :
  (f = true \/ lastDecisionKey sc <> decisionKey l sc
   \/ endsWith (toLowerCase (hostname l)) "reddit.com" = false) ->
  checkLocation f l sc = checkLocation true l sc
  /\ (lastDecisionKey (checkLocation true l sc) = decisionKey l sc
      \/ lastDecisionKey (checkLocation true l sc) = "").
Proof.
  intros Hwhy. unfold checkLocation. fold (decisionKey l sc).
  destruct (endsWith (toLowerCase (hostname l)) "reddit.com") eqn:Hsite;
    cbn [negb andb].
  2:{ split; [reflexivity | now right]. }
  assert (Hskip : negb f && String.eqb (decisionKey l sc) (lastDecisionKey sc)
                  = false).
  { destruct Hwhy as [-> | [Hne | Hno]]; [reflexivity | | discriminate].
    apply andb_false_iff. right. apply String.eqb_neq. congruence. }
  rewrite Hskip. split; [reflexivity|]. left.
  cbn [state setOverlayState].
  destruct (negb (extensionEnabled (state sc))); [reflexivity|].
  destruct (determineBlockReason _ _ _); reflexivity.
Qed.

Lemma upToDate_forced (h : string) (sc : Script) :
  upToDate locationOf (checkLocation true (locationOf h) sc).
Proof.
  intros h' Hk.
  destruct (checkLocation_frame true (locationOf h) sc) as (Hs & Ha & Hv).
  destruct (checkLocation_decided true (locationOf h) sc) as [_ [Hd | Hd]];
    [now left| |].
  - rewrite Hd in Hk.
    assert (E : decisionKey (locationOf h') (checkLocation true (locationOf h) sc)
                = decisionKey (locationOf h') sc).
    { unfold decisionKey. now rewrite Hs, Hv. }
    rewrite E in Hk. apply decisionKey_href in Hk.
    rewrite !href_locationOf in Hk. subst h'.
    symmetry. now apply forced_decision_ext.
  - rewrite Hd in Hk. symmetry in Hk. now apply decisionKey_not_empty in Hk.
Qed.

Lemma upToDate_checkLocation (f : bool) (h : string) (sc : Script) :
  upToDate locationOf sc ->
  upToDate locationOf (checkLocation f (locationOf h) sc)
  /\ decisionOf (checkLocation f (locationOf h) sc)
     = decisionOf (checkLocation true (locationOf h) sc).
Proof.
  intros Hup.
  destruct f; [split; [apply upToDate_forced | reflexivity]|].
  destruct (String.eqb_spec (lastDecisionKey sc)
              (decisionKey (locationOf h) sc)) as [Hk | Hk].
  - destruct (endsWith (toLowerCase (hostname (locationOf h))) "reddit.com")
      eqn:Hsite.
    + assert (E : checkLocation false (locationOf h) sc = sc).
      { unfold checkLocation. rewrite Hsite. fold (decisionKey (locationOf h) sc).
        rewrite <- Hk, String.eqb_refl. reflexivity. }
      rewrite E. split; [exact Hup | now apply Hup].
    + destruct (checkLocation_decided false (locationOf h) sc) as [-> _];
        [now right; right|].
      split; [apply upToDate_forced | reflexivity].
  - destruct (checkLocation_decided false (locationOf h) sc) as [-> _];
      [now right; left|].
    split; [apply upToDate_forced | reflexivity].
Qed.

Lemma upToDate_handle (sc : Script) (e : RedditEvent) :
  upToDate locationOf sc -> upToDate locationOf (handleReddit locationOf sc e).
Proof.
  intros Hup. destruct e as [h | changes areaName h]; cbn [handleReddit].
  - now apply upToDate_checkLocation.
  - unfold onStorageChanged.
    destruct (negb (String.eqb areaName "sync")); [exact Hup|].
    apply upToDate_forced.
Qed.

(** X18. The timer never leaves a stale decision on the page.  From
    the start of the script on, through any sequence of ticks and
    storage events, a tick shows what a forced check of the same address
    with the settings of the moment shows. *)
Theorem tick_shows_the_fresh_decision (stored : option Stored)
  (start : string) (events : list RedditEvent) (h : string) :
  let sc := fold_left (handleReddit locationOf) events
              (init stored (locationOf start)) in
  decisionOf (checkLocation false (locationOf h) sc)
  = decisionOf (checkLocation true (locationOf h) sc).
Proof.
  cbv zeta.
  assert (Hup : upToDate locationOf
                  (fold_left (handleReddit locationOf) events
                     (init stored (locationOf start)))).
  { generalize (upToDate_forced start (hydrateState stored initialScript)).
    fold (init stored (locationOf start)).
    generalize (init stored (locationOf start)).
    induction events as [|e events IH]; intros sc Hsc; [exact Hsc|].
    cbn [fold_left]. apply IH. now apply upToDate_handle. }
  now apply upToDate_checkLocation.
Qed.

End RedditTrace.

(** ** The first start of the worker *)

Section FirstStart.
Import Js Install.

Lemma storageGet_defaults (s : Storage) :
  storageGet DEFAULT_STATE s
  = <["blockedHosts" := default (JArray []) (s !! "blockedHosts")]>
      (<["allowedSubreddits" := default (JArray []) (s !! "allowedSubreddits")]>
         (<["blockReddit" := default (JBool false) (s !! "blockReddit")]>
            (<["extensionEnabled" :=
                 default (JBool true) (s !! "extensionEnabled")]>
               (<["blockedYouTubeChannels" :=
                    default (JArray []) (s !! "blockedYouTubeChannels")]> ∅)))).
Proof.
  unfold storageGet, DEFAULT_STATE.
  rewrite !fmap_cons, fmap_nil, !list_to_map_cons, list_to_map_nil.
  reflexivity.
Qed.

(** What [get] hands to the function: the five settings, each with its
    stored value or its default, and no key of an older version. *)
Lemma stored_lookups (s : Storage) :
  let stored := storageGet DEFAULT_STATE s in
  stored !! "blockedHosts" = Some (default (JArray []) (s !! "blockedHosts"))
  /\ stored !! "allowedSubreddits"
     = Some (default (JArray []) (s !! "allowedSubreddits"))
  /\ stored !! "blockReddit" = Some (default (JBool false) (s !! "blockReddit"))
  /\ stored !! "extensionEnabled"
     = Some (default (JBool true) (s !! "extensionEnabled"))
  /\ stored !! "blockedYouTubeChannels"
     = Some (default (JArray []) (s !! "blockedYouTubeChannels"))
  /\ stored !! "blockedChannels" = None
  /\ stored !! "youtubeApiKey" = None
  /\ stored !! "blockedSubreddits" = None
  /\ stored !! "blockRedditHomepage" = None.
Proof.
  cbv zeta. rewrite storageGet_defaults.
  repeat split;
    repeat (rewrite lookup_insert_eq
            || (rewrite lookup_insert_ne by discriminate));
    try reflexivity; apply lookup_empty.
Qed.

Lemma storageSet_singleton (k : string) (v : Json) (m : Storage) :
  storageSet {[k := v]} m = <[k := v]> m.
Proof. unfold storageSet. symmetry. apply insert_union_singleton_l. Qed.

(** What the function does, written with the three keys it may
    rewrite. *)
Lemma initializeState_unfold (s : Storage) :
  initializeState s
  = let s1 :=
      match s !! "blockedYouTubeChannels" with
      | Some v => if isArray v then s
                  else <["blockedYouTubeChannels" := JArray []]> s
      | None => s
      end in
    let s2 :=
      match s !! "blockReddit" with
      | Some v =>
          if isBoolean v then s1
          else <["blockReddit" :=
                   JBool (Background.normalizeBoolean (toValue v))]> s1
      | None => s1
      end in
    match s !! "extensionEnabled" with
    | Some v =>
        if isBoolean v then s2
        else <["extensionEnabled" :=
                 JBool (Background.normalizeBoolean (toValue v))]> s2
    | None => s2
    end.
Proof.
  destruct (stored_lookups s)
    as (H1 & H2 & H3 & H4 & H5 & H6 & H7 & H8 & H9).
  unfold initializeState.
  set (stored := storageGet DEFAULT_STATE s) in *. clearbody stored.
  cbn [List.filter]. rewrite H8, H9, H7, H6.
  rewrite !bool_decide_eq_false_2 by (intros [? ?]; discriminate).
  cbn [List.filter length Nat.ltb Nat.leb].
  unfold DEFAULT_STATE. cbn [fold_left fst snd].
  rewrite H1, H2, H3, H4, H5.
  rewrite !storageSet_singleton.
  destruct (s !! "blockedYouTubeChannels") as [v1|];
    cbn [default from_option id].
  - destruct (isArray v1) eqn:E1; cbn [negb].
    + rewrite map_size_empty. cbn [Nat.ltb Nat.leb].
      destruct (s !! "blockReddit") as [v2|]; cbn [default from_option id];
        [destruct (isBoolean v2)|]; cbn [negb isBoolean];
        (destruct (s !! "extensionEnabled") as [v3|];
         cbn [default from_option id]; [destruct (isBoolean v3)|];
         cbn [negb isBoolean]; reflexivity).
    + rewrite insert_empty, map_size_singleton. cbn [Nat.ltb Nat.leb].
      rewrite storageSet_singleton.
      replace (ensureArray (Some v1)) with (@nil string)
        by (destruct v1; try reflexivity; discriminate).
      destruct (s !! "blockReddit") as [v2|]; cbn [default from_option id];
        [destruct (isBoolean v2)|]; cbn [negb isBoolean];
        (destruct (s !! "extensionEnabled") as [v3|];
         cbn [default from_option id]; [destruct (isBoolean v3)|];
         cbn [negb isBoolean]; reflexivity).
  - cbn [isArray negb]. rewrite map_size_empty. cbn [Nat.ltb Nat.leb].
    destruct (s !! "blockReddit") as [v2|]; cbn [default from_option id];
      [destruct (isBoolean v2)|]; cbn [negb isBoolean];
      (destruct (s !! "extensionEnabled") as [v3|];
       cbn [default from_option id]; [destruct (isBoolean v3)|];
       cbn [negb isBoolean]; reflexivity).
Qed.

(** Looking a key up after one setting has been put into its type. *)
Lemma retyped_lookup (key : string) (f : Json -> Json) (good : Json -> bool)
    (s base : Storage) (k : string) :
  match s !! key with
  | Some v => if good v then base else <[key := f v]> base
  | None => base
  end !! k
  = if String.eqb k key
    then match s !! key with
         | Some v => if good v then base !! key else Some (f v)
         | None => base !! key
         end
    else base !! k.
Proof.
  unfold Storage in *.
  destruct (String.eqb_spec k key) as [-> | Hk];
    destruct (s !! key) as [v|]; try destruct (good v);
    rewrite ?lookup_insert_eq, ?lookup_insert_ne by congruence;
    reflexivity.
Qed.

Lemma initializeState_lookup (s : Storage) (k : string) :
  initializeState s !! k
  = if String.eqb k "blockReddit"
    then (fun v => JBool (Background.normalizeBoolean (toValue v)))
           <$> s !! "blockReddit"
    else if String.eqb k "extensionEnabled"
    then (fun v => JBool (Background.normalizeBoolean (toValue v)))
           <$> s !! "extensionEnabled"
    else if String.eqb k "blockedYouTubeChannels"
    then (fun v => if isArray v then v else JArray [])
           <$> s !! "blockedYouTubeChannels"
    else s !! k.
Proof.
  rewrite initializeState_unfold. cbv zeta.
  rewrite (retyped_lookup "extensionEnabled"
             (fun v => JBool (Background.normalizeBoolean (toValue v)))
             isBoolean).
  rewrite !(retyped_lookup "blockReddit"
              (fun v => JBool (Background.normalizeBoolean (toValue v)))
              isBoolean).
  rewrite !(retyped_lookup "blockedYouTubeChannels"
              (fun _ => JArray []) isArray).
  change (String.eqb "extensionEnabled" "blockReddit") with false.
  change (String.eqb "extensionEnabled" "blockedYouTubeChannels") with false.
  change (String.eqb "blockReddit" "blockedYouTubeChannels") with false.
  cbv iota.
  destruct (String.eqb_spec k "blockReddit") as [-> | H1].
  { change (String.eqb "blockReddit" "extensionEnabled") with false. cbv iota.
    destruct (s !! "blockReddit") as [v|] eqn:E; [|reflexivity].
    destruct v; cbn [isBoolean fmap option_fmap option_map toValue];
      reflexivity. }
  destruct (String.eqb_spec k "extensionEnabled") as [-> | H2].
  { destruct (s !! "extensionEnabled") as [v|] eqn:E; [|reflexivity].
    destruct v; cbn [isBoolean fmap option_fmap option_map toValue];
      reflexivity. }
  destruct (String.eqb_spec k "blockedYouTubeChannels") as [-> | H3].
  { destruct (s !! "blockedYouTubeChannels") as [v|] eqn:E; [|reflexivity].
    destruct v; cbn [isArray fmap option_fmap option_map]; try reflexivity;
      assumption. }
  reflexivity.
Qed.

(** X21. The first start of the worker puts the stored settings into
    their types and touches nothing else.  With [get] answering as
    documented, with the keys of the defaults only: a stored switch
    becomes the boolean that [normalizeBoolean] reads in it, a stored
    list of channels that is not an array becomes the empty array, a
    setting that is missing stays missing, and every other key keeps its
    value, the keys of an older version included.  Running it a second
    time changes nothing. *)
Theorem initializeState_types_the_settings (s : Storage) :
  (forall k,
     k <> "blockReddit" -> k <> "extensionEnabled" ->
     k <> "blockedYouTubeChannels" ->
     initializeState s !! k = s !! k)
  /\ initializeState s !! "blockReddit"
     = (fun v => JBool (Background.normalizeBoolean (toValue v)))
         <$> s !! "blockReddit"
  /\ initializeState s !! "extensionEnabled"
     = (fun v => JBool (Background.normalizeBoolean (toValue v)))
         <$> s !! "extensionEnabled"
  /\ initializeState s !! "blockedYouTubeChannels"
     = (fun v => if isArray v then v else JArray [])
         <$> s !! "blockedYouTubeChannels"
  /\ initializeState (initializeState s) = initializeState s.
Proof.
  split; [|split; [|split; [|split]]].
  - intros k H1 H2 H3. rewrite initializeState_lookup.
    apply String.eqb_neq in H1, H2, H3. now rewrite H1, H2, H3.
  - now rewrite initializeState_lookup.
  - now rewrite initializeState_lookup.
  - now rewrite initializeState_lookup.
  - apply map_eq. intros k. rewrite !initializeState_lookup.
    change (String.eqb "blockReddit" "blockReddit") with true.
    change (String.eqb "extensionEnabled" "blockReddit") with false.
    change (String.eqb "extensionEnabled" "extensionEnabled") with true.
    change (String.eqb "blockedYouTubeChannels" "blockReddit") with false.
    change (String.eqb "blockedYouTubeChannels" "extensionEnabled") with false.
    change (String.eqb "blockedYouTubeChannels" "blockedYouTubeChannels")
      with true.
    cbv iota.
    destruct (String.eqb k "blockReddit");
      [|destruct (String.eqb k "extensionEnabled");
        [|destruct (String.eqb k "blockedYouTubeChannels")]];
      try reflexivity.
    + destruct (s !! "blockReddit"); reflexivity.
    + destruct (s !! "extensionEnabled"); reflexivity.
    + destruct (s !! "blockedYouTubeChannels") as [[]|]; reflexivity.
Qed.

End FirstStart.

(** ** Instances of the theorems *)

Section Instances.
Import Js Background.

(** A subdomain with a leading www. against a host stored with a blank
    and a capital. *)
Lemma isHostBlocked_suffix_match_instance :
  isHostBlocked "www.Sub.A.com" (blockedHostSetOf [" A.com"]) = true.
Proof.
  apply (proj2 (proj1 (isHostBlocked_suffix_match [" A.com"] "www.Sub.A.com"))).
  exists "a.com". split.
  - apply (proj1 (proj2 (isHostBlocked_suffix_match [" A.com"] ""))).
    split; [discriminate|]. exists " A.com". split; [now left | reflexivity].
  - right. exists "sub". reflexivity.
Defined.

(** A configuration with a repeated host and an allowed subreddit
    written with its prefix, in capitals and with a trailing slash: the
    rules installed are the block rule of the host, the Reddit block
    rule and the allow rule of the subreddit. *)
Lemma updateAllRules_enabled_instance :
  normalizeBoolean
    (extensionEnabled
       (mkState ["x.com"; "X.com "] ["r/Foo/"] (Str "true") (Bool true) []))
  = true
  /\ dynamicRules
       (updateAllRules exampleParseUrl
          (mkState ["x.com"; "X.com "] ["r/Foo/"] (Str "true") (Bool true) [])
          (mkBrowser [createRedditBlockRule] [exampleTab]))
     = [mkRule 10000 1 block (mkCondition "||x.com" ["main_frame"]);
        mkRule 20000 1 block (mkCondition "||reddit.com^" ["main_frame"]);
        mkRule 30000 100 allow
          (mkCondition "||reddit.com/r/foo" ["main_frame"])].
Proof.
  split; [reflexivity|].
  destruct (updateAllRules_enabled exampleParseUrl
              (mkState ["x.com"; "X.com "] ["r/Foo/"] (Str "true") (Bool true) [])
              (mkBrowser [createRedditBlockRule] [exampleTab]) eq_refl)
    as (hosts & names & Hnd & Hhosts & Hnn & Hnames & Hrules & _).
  rewrite Hrules. clear Hrules.
  change (normalizeBoolean
            (blockReddit
               (mkState ["x.com"; "X.com "] ["r/Foo/"] (Str "true")
                  (Bool true) []))) with true.
  cbv iota.
  assert (Hh : hosts = ["x.com"]).
  { destruct hosts as [|h [|h' hosts]].
    - exfalso. apply (elem_of_nil "x.com"). apply Hhosts.
      split; [discriminate|]. exists "x.com".
      split; [now left | reflexivity].
    - f_equal. assert (H : h ∈ [h]) by now left.
      apply Hhosts in H as (_ & raw & Hraw & ->).
      cbn [blockedHosts] in Hraw.
      repeat (apply elem_of_cons in Hraw as [-> | Hraw]);
        [reflexivity | reflexivity | now apply elem_of_nil in Hraw].
    - exfalso.
      assert (H : h ∈ h :: h' :: hosts) by now left.
      assert (H' : h' ∈ h :: h' :: hosts) by (right; now left).
      apply Hhosts in H as (_ & raw & Hraw & ->).
      apply Hhosts in H' as (_ & raw' & Hraw' & ->).
      apply NoDup_cons in Hnd as [Hnot _]. apply Hnot.
      cbn [blockedHosts] in Hraw, Hraw'.
      repeat (apply elem_of_cons in Hraw as [-> | Hraw]);
        try (now apply elem_of_nil in Hraw);
        repeat (apply elem_of_cons in Hraw' as [-> | Hraw']);
        try (now apply elem_of_nil in Hraw'); now left. }
  assert (Hname : forall s, s ∈ names -> s = "foo").
  { intros s Hs.
    apply Hnames in Hs
      as (_ & raw & rest & core & slashes & Hraw & H1 & H2 & H3 & H4 & H5).
    cbn [allowedSubreddits] in Hraw.
    apply list_elem_of_singleton in Hraw. subst raw.
    assert (E : s = normalizeSubreddit "r/Foo/").
    { apply normalizeSubreddit_spelled. exists rest, core, slashes.
      split; [exact H1|]. split; [exact H2|].
      split; [exact H3|]. split; [exact H4 | exact H5]. }
    exact E. }
  assert (Hn : names = ["foo"]).
  { destruct names as [|n [|n' names]].
    - exfalso. apply (elem_of_nil "foo"). apply Hnames.
      split; [discriminate|]. exists "r/Foo/", "Foo/", "Foo", "/".
      split; [now left|].
      split; [left; exists "r/"; split; [|reflexivity];
              right; right; now left|].
      split; [reflexivity|].
      split; [repeat constructor|].
      split; [|reflexivity].
      intros [|x [|y [|z [|? ?]]]]; cbv; intros [=].
    - f_equal. apply Hname. now left.
    - exfalso. apply NoDup_cons in Hnn as [Hnot _]. apply Hnot.
      rewrite (Hname n) by now left.
      rewrite (Hname n') by (right; now left). now left. }
  subst hosts names. reflexivity.
Defined.

(** A disabled configuration, with one installed rule and one open tab
    that shows the site overlay. *)
Lemma updateAllRules_disabled_instance :
  normalizeBoolean
    (extensionEnabled (mkState ["example.com"] [] (Bool false) (Str " False ") []))
  = false
  /\ hasSiteOverlay exampleTab = true
  /\ openHttpDocument exampleParseUrl exampleTab
  /\ dynamicRules
       (updateAllRules exampleParseUrl
          (mkState ["example.com"] [] (Bool false) (Str " False ") [])
          (mkBrowser [createRedditBlockRule] [exampleTab])) = []
  /\ tabs
       (updateAllRules exampleParseUrl
          (mkState ["example.com"] [] (Bool false) (Str " False ") [])
          (mkBrowser [createRedditBlockRule] [exampleTab])) !! 0%nat
     = Some (removeSiteOverlay exampleTab)
  /\ hasSiteOverlay (removeSiteOverlay exampleTab) = false.
Proof.
  assert (Hopen : openHttpDocument exampleParseUrl exampleTab).
  { exists 7%Z, "https://example.com/page",
      (mkUrl "https://example.com/page" "example.com" "/page" "").
    repeat split; try reflexivity; discriminate. }
  destruct (updateAllRules_disabled exampleParseUrl
              (mkState ["example.com"] [] (Bool false) (Str " False ") [])
              (mkBrowser [createRedditBlockRule] [exampleTab]) eq_refl)
    as (H1 & _ & H3).
  destruct (H3 0%nat exampleTab eq_refl Hopen) as [H4 H5].
  split; [reflexivity|]. split; [vm_compute; reflexivity|].
  split; [exact Hopen|]. split; [exact H1|]. split; [exact H4 | exact H5].
Defined.

(** A handle entry against the handle of the channel. *)
Lemma isChannelBlocked_amended_instance :
  (forall e, Some e ∈ [Some (mkEntry TypeHandle "creator")] ->
             value e = toLowerCase (value e))
  /\ (isChannelBlocked (Some (mkVideoInfo "UCabcdefghijklmnopqrstuv" "Example"))
        [Some (mkEntry TypeHandle "creator")] "@Creator" = true
      <-> exists e, Some e ∈ [Some (mkEntry TypeHandle "creator")]
            /\ matchesEntry
                 (mkVideoInfo "UCabcdefghijklmnopqrstuv" "Example")
                 "@Creator" e).
Proof.
  assert (H : forall e, Some e ∈ [Some (mkEntry TypeHandle "creator")] ->
                        value e = toLowerCase (value e)).
  { intros e He. apply list_elem_of_singleton in He.
    injection He as ->. reflexivity. }
  split; [exact H|].
  exact (proj1 (proj2 (isChannelBlocked_amended
                         (mkVideoInfo "UCabcdefghijklmnopqrstuv" "Example")
                         [Some (mkEntry TypeHandle "creator")] "@Creator"))
           H).
Defined.

(** A list with a [null] entry and an entry of empty value. *)
Lemma isChannelBlocked_skips_instance :
  List.filter liveEntry [None; Some (mkEntry TypeName "")] = []
  /\ isChannelBlocked (Some (mkVideoInfo "" ""))
       [None; Some (mkEntry TypeName "")] "" = false.
Proof.
  split; [reflexivity|].
  apply (proj1 (proj2 (proj2 (proj2
           (isChannelBlocked_skips (Some (mkVideoInfo "" ""))
              [None; Some (mkEntry TypeName "")] ""))))).
  reflexivity.
Defined.

(** A check in a world without credential file. *)
Lemma handleYouTubeVideoCheck_short_circuits_instance :
  trim (default "" (Some " dQw4w9WgXcQ ")) <> ""
  /\ normalizeBoolean (extensionEnabled (storage exampleWorld)) = true
  /\ normalizedEntries exampleParseUrl exampleWorld <> []
  /\ fst (getYoutubeApiKeyFromEnv exampleWorld) = Ok ""
  /\ fst (handleYouTubeVideoCheck exampleParseUrl (Some " dQw4w9WgXcQ ")
            exampleWorld)
     = Ok (mkVerdict true missing_api_key None None)
  /\ lookups (snd (handleYouTubeVideoCheck exampleParseUrl
                     (Some " dQw4w9WgXcQ ") exampleWorld))
     = lookups exampleWorld.
Proof.
  assert (H1 : trim (default "" (Some " dQw4w9WgXcQ ")) <> "")
    by discriminate.
  assert (H3 : normalizedEntries exampleParseUrl exampleWorld <> [])
    by discriminate.
  split; [exact H1|]. split; [reflexivity|]. split; [exact H3|].
  split; [reflexivity|].
  destruct (proj1 (proj2 (proj2 (proj2
              (handleYouTubeVideoCheck_short_circuits exampleParseUrl
                 exampleWorld (Some " dQw4w9WgXcQ ")))))
              H1 eq_refl H3 eq_refl) as (Ha & Hb & _).
  split; [exact Ha | exact Hb].
Defined.

(** The feed /Hot, with a capital, on the site. *)
Lemma reddit_decision_instance :
  onReddit (redditPage "/Hot")
  /\ decisionOf
       (RedditContent.checkLocation true (redditPage "/Hot")
          (scriptWith ["funny"] true true))
     = showing "homepage:home".
Proof.
  assert (H : onReddit (redditPage "/Hot")) by reflexivity.
  split; [exact H|].
  destruct (reddit_decision (redditPage "/Hot")
              (scriptWith ["funny"] true true) H) as (_ & H2 & _).
  destruct (H2 eq_refl eq_refl) as [_ H3].
  destruct (H3 eq_refl) as [H4 _].
  apply H4. unfold feedPaths. apply elem_of_cons. right.
  apply elem_of_cons. now left.
Defined.


(** A channel link with a further segment gives the id of the channel,
    lower-cased; the link of a handle gives the handle and the link of a
    custom name the name. *)
Lemma normalizeYouTubeChannelEntry_spec_instance :
  isHttpLink "https://www.youtube.com/channel/UCabcdefghijklmnopqrstuv/videos"
  = true
  /\ channelToken exampleParseUrl
       "https://www.youtube.com/channel/UCabcdefghijklmnopqrstuv/videos"
     = "UCabcdefghijklmnopqrstuv"
  /\ type (classifyToken "UCabcdefghijklmnopqrstuv") = TypeId
  /\ value (classifyToken "UCabcdefghijklmnopqrstuv")
     = "ucabcdefghijklmnopqrstuv"
  /\ normalizeYouTubeChannelEntry exampleParseUrl
       "https://www.youtube.com/channel/UCabcdefghijklmnopqrstuv/videos"
     = Some (mkEntry TypeId "ucabcdefghijklmnopqrstuv")
  /\ normalizeYouTubeChannelEntry exampleParseUrl
       "https://www.youtube.com/@SomeHandle/videos"
     = Some (mkEntry TypeHandle "somehandle")
  /\ normalizeYouTubeChannelEntry exampleParseUrl
       "https://www.youtube.com/c/CustomName"
     = Some (mkEntry TypeName "customname").
Proof.
  pose proof (normalizeYouTubeChannelEntry_spec exampleParseUrl)
    as (_ & _ & Hsome & _ & Hlink & Hclass & _).
  split; [reflexivity|].
  assert (Htoken :
    channelToken exampleParseUrl
      "https://www.youtube.com/channel/UCabcdefghijklmnopqrstuv/videos"
    = "UCabcdefghijklmnopqrstuv").
  { apply (proj1 (Hlink
             "https://www.youtube.com/channel/UCabcdefghijklmnopqrstuv/videos"
             "UCabcdefghijklmnopqrstuv" "/videos"
             (mkUrl
                "https://www.youtube.com/channel/UCabcdefghijklmnopqrstuv/videos"
                "www.youtube.com" "/channel/UCabcdefghijklmnopqrstuv/videos" "")
             eq_refl eq_refl eq_refl (or_intror (ex_intro _ "videos" eq_refl))));
      [discriminate | reflexivity]. }
  destruct (Hclass "UCabcdefghijklmnopqrstuv") as (Hid & _ & _ & _ & Hval & _).
  assert (Htype : type (classifyToken "UCabcdefghijklmnopqrstuv") = TypeId).
  { apply Hid. exists "U"%char, "C"%char, "abcdefghijklmnopqrstuv".
    split; [reflexivity|]. split; [now right|]. split; [now right|].
    split; [reflexivity|].
    cbn [list_ascii_of_string].
    repeat (apply Forall_cons; split; [apply isIdChar_iff; reflexivity|]).
    constructor. }
  split; [exact Htoken|]. split; [exact Htype|].
  split; [apply Hval; rewrite Htype; discriminate|].
  split.
  { rewrite Hsome by discriminate.
    change (trim "https://www.youtube.com/channel/UCabcdefghijklmnopqrstuv/videos")
      with "https://www.youtube.com/channel/UCabcdefghijklmnopqrstuv/videos".
    rewrite Htoken. reflexivity. }
  split; reflexivity.
Defined.

(** Two acquisitions and two releases on a window with styles of its
    own: after one release the root element and the body still carry
    the locked styles and the five listeners, after the second the
    window is as it was. *)
Lemma scroll_lock_reference_counted_instance :
  ScrollLock.lockState exampleWindow = None
  /\ ScrollLock.documentElement
       (ScrollLock.unlockScroll
          (ScrollLock.lockScroll (ScrollLock.lockScroll exampleWindow)))
     = Some (ScrollLock.mkStyle "hidden" "none" "")
  /\ ScrollLock.body
       (ScrollLock.unlockScroll
          (ScrollLock.lockScroll (ScrollLock.lockScroll exampleWindow)))
     = Some (ScrollLock.mkStyle "hidden" "" "none")
  /\ ScrollLock.listeners
       (ScrollLock.unlockScroll
          (ScrollLock.lockScroll (ScrollLock.lockScroll exampleWindow)))
     = (∅ ∪ {[ ("wheel", false); ("touchmove", false);
               ("keydown", true); ("keypress", true); ("keyup", true) ]})
  /\ ("keydown", true)
     ∈ ScrollLock.listeners
         (ScrollLock.unlockScroll
            (ScrollLock.lockScroll (ScrollLock.lockScroll exampleWindow)))
  /\ (("keydown", true)
      ∉ ScrollLock.listeners
          (ScrollLock.unlockScroll
             (ScrollLock.unlockScroll
                (ScrollLock.lockScroll
                   (ScrollLock.lockScroll exampleWindow)))))
  /\ ScrollLock.unlockScroll
       (ScrollLock.unlockScroll
          (ScrollLock.lockScroll (ScrollLock.lockScroll exampleWindow)))
     = exampleWindow.
Proof.
  split; [reflexivity|].
  destruct (proj2 (proj2 (proj2 (proj2 (proj2 scroll_lock_reference_counted))))
              exampleWindow (ScrollLock.mkStyle "scroll" "" "")
              eq_refl eq_refl) as (_ & H2 & H3 & H4 & H5 & H6).
  { apply disjoint_empty_l. }
  split; [exact H2|]. split; [exact H3|]. split; [exact H4|].
  destruct (H5 ("keydown", true)) as (_ & Hin & Hout).
  { apply list_elem_of_In. cbn. tauto. }
  split; [exact Hin|]. split; [exact Hout | exact H6].
Defined.

End Instances.

(** ** Instances of the further properties *)

Section MoreInstances.
Import Js.

Lemma cleanPage_exampleWindow : cleanPage exampleWindow.
Proof.
  unfold cleanPage, exampleWindow. cbn.
  repeat split; try reflexivity; [eauto | apply disjoint_empty_l].
Qed.

Lemma href_exampleLocationOf (h : string) : href (exampleLocationOf h) = h.
Proof.
  unfold exampleLocationOf, exampleParseUrl.
  destruct (stripPrefixCI "https://" h) as [rest|]; [|reflexivity].
  destruct (truthy (takeUntil "/" rest)); reflexivity.
Qed.

(** Three hosts, two of them the same up to case and blanks. *)
Lemma compiledRules_ids_distinct_instance :
  (Z.of_nat
     (length
        (distinctHosts
           (Background.mkState ["x.com"; "X.com "; "y.org"] ["foo"]
              (Bool true) (Bool true) []))) <= 10000)%Z
  /\ NoDup
       (Background.id <$>
          Background.compiledRules
            (Background.mkState ["x.com"; "X.com "; "y.org"] ["foo"]
               (Bool true) (Bool true) [])).
Proof.
  assert (H : (Z.of_nat
                 (length
                    (distinctHosts
                       (Background.mkState ["x.com"; "X.com "; "y.org"] ["foo"]
                          (Bool true) (Bool true) []))) <= 10000)%Z)
    by (vm_compute; discriminate).
  split; [exact H|].
  exact (proj1 (compiledRules_ids_distinct _ H)).
Defined.

(** One open tab on a blocked host. *)
Lemma enforceOpenTabs_enabled_instance :
  [exampleTab] !! 0%nat = Some exampleTab
  /\ length
       (Background.enforceOpenTabs exampleParseUrl true ["example.com"]
          [exampleTab]) = 1%nat.
Proof.
  split; [reflexivity|].
  exact (proj1 (enforceOpenTabs_enabled exampleParseUrl ["example.com"]
                  [exampleTab] 0%nat exampleTab eq_refl)).
Defined.


(** The same check again, 199 seconds later. *)
Lemma recheck_within_ttl_is_free_instance :
  videoCacheInv exampleWorldWithKey
  /\ exists v,
       fst (Background.handleYouTubeVideoCheck exampleParseUrl
              (Some "dQw4w9WgXcQ") exampleWorldWithKey) = Background.Ok v
       /\ Background.handleYouTubeVideoCheck exampleParseUrl
            (Some "dQw4w9WgXcQ")
            (Background.setNow 200000
               (snd (Background.handleYouTubeVideoCheck exampleParseUrl
                       (Some "dQw4w9WgXcQ") exampleWorldWithKey)))
          = (Background.Ok v,
             Background.setNow 200000
               (snd (Background.handleYouTubeVideoCheck exampleParseUrl
                       (Some "dQw4w9WgXcQ") exampleWorldWithKey))).
Proof.
  assert (H1 : videoCacheInv exampleWorldWithKey).
  { split; [apply Nat.le_0_l | constructor]. }
  split; [exact H1|].
  destruct (recheck_within_ttl_is_free exampleParseUrl exampleWorldWithKey
              (Some "dQw4w9WgXcQ") "abc" 5%N (Some exampleSnippet) 200000%Z H1
              ltac:(vm_compute; discriminate) eq_refl
              ltac:(vm_compute; discriminate) eq_refl eq_refl
              ltac:(discriminate) I eq_refl eq_refl)
    as (v & Hv & _ & Hagain).
  exists v. split; [exact Hv | exact Hagain].
Defined.

(** A lookup that the service refuses with the status 403. *)
Lemma failed_lookups_are_not_cached_instance :
  noFresh Background.YOUTUBE_CACHE_TTL_MS (Background.now exampleFailingWorld)
    "dQw4w9WgXcQ" (Background.youtubeVideoCache exampleFailingWorld)
  /\ exists e w1,
       Background.fetchYouTubeVideoInfo "dQw4w9WgXcQ" "key" exampleFailingWorld
       = (Background.Throw e, w1)
       /\ Background.youtubeVideoCache w1 = [].
Proof.
  split; [exact I|].
  destruct (proj1 failed_lookups_are_not_cached exampleFailingWorld
              "dQw4w9WgXcQ" "key" I)
    as (e & w1 & H & _ & Hc & _).
  { intros item. discriminate. }
  exists e, w1. split; [exact H | exact Hc].
Defined.

(** A file with a comment, two assignments to the key and another
    assignment behind them. *)
Lemma parseEnvFile_last_assignment_instance :
  Forall singleLine ["# local credential"; "YOUTUBE_API_KEY=old"]
  /\ Forall singleLine ["OTHER = 1"; ""]
  /\ singleLine " 'abc' "
  /\ Forall (fun line => assignedKey line <> Some Background.ENV_YOUTUBE_KEY)
       ["OTHER = 1"; ""]
  /\ Background.mapGet Background.ENV_YOUTUBE_KEY
       (Background.parseEnvFile
          (join newline
             (["# local credential"; "YOUTUBE_API_KEY=old"]
              ++ ("YOUTUBE_API_KEY=" +:+ " 'abc' ") :: ["OTHER = 1"; ""])))
     = Some (unquote (trim " 'abc' ")).
Proof.
  assert (H1 : Forall singleLine ["# local credential"; "YOUTUBE_API_KEY=old"])
    by (repeat constructor).
  assert (H2 : Forall singleLine ["OTHER = 1"; ""]) by (repeat constructor).
  assert (H3 : singleLine " 'abc' ") by reflexivity.
  assert (H4 : Forall (fun line =>
                         assignedKey line <> Some Background.ENV_YOUTUBE_KEY)
                 ["OTHER = 1"; ""])
    by (repeat constructor; vm_compute; discriminate).
  repeat (split; [assumption|]).
  exact (parseEnvFile_last_assignment _ _ _ H1 H2 H3 H4).
Defined.

(** The reading of the credential in a world with a file that holds
    the key, and in a world without a file: the first keeps the parsed
    copy and answers again without a request, the second drops it and
    asks for the file again. *)
Lemma getYoutubeApiKeyFromEnv_memo_instance :
  (exists w1 : Background.World,
     Background.getYoutubeApiKeyFromEnv exampleWorldWithKey
     = (Background.Ok "abc", w1)
     /\ Background.requests w1 = [Background.EnvFileRequest]
     /\ Background.getYoutubeApiKeyFromEnv w1 = (Background.Ok "abc", w1))
  /\ (exists w1 : Background.World,
        Background.getYoutubeApiKeyFromEnv exampleWorld
        = (Background.Ok "", w1)
        /\ Background.envValuesPromise w1 = None
        /\ Background.requests (snd (Background.getYoutubeApiKeyFromEnv w1))
           = [Background.EnvFileRequest; Background.EnvFileRequest]).
Proof.
  split.
  - destruct (getYoutubeApiKeyFromEnv_memo exampleWorldWithKey)
      as (key & w1 & H & Hr & _ & _ & _ & _ & Hsome & _).
    destruct (Hsome "abc" eq_refl) as (-> & _ & Hagain); [discriminate|].
    exists w1. split; [exact H|]. split; [exact Hr | exact Hagain].
  - destruct (getYoutubeApiKeyFromEnv_memo exampleWorld)
      as (key & w1 & H & Hr & _ & _ & _ & _ & _ & Hnone).
    destruct (Hnone (or_introl eq_refl)) as (-> & Hp & Hreq).
    exists w1. split; [exact H|]. split; [exact Hp|].
    rewrite Hreq, Hr. reflexivity.
Defined.

(** Events of a page of the video site: a check, a refusal, the site
    overlay, a tick and the start of a navigation. *)
Lemma overlays_share_the_lock_instance :
  cleanPage exampleWindow
  /\ YouTubeContent.page
       (fold_left (handle exampleParseUrl exampleSearchParamsGet) exampleEvents
          (initialScript YouTubeContent.DEFAULT_STATE exampleWindow []))
     = pageWith
         (ScrollLock.overlays
            (YouTubeContent.page
               (fold_left (handle exampleParseUrl exampleSearchParamsGet)
                  exampleEvents
                  (initialScript YouTubeContent.DEFAULT_STATE exampleWindow [])))
            !! YouTubeContent.OVERLAY_ID)
         (ScrollLock.overlays
            (YouTubeContent.page
               (fold_left (handle exampleParseUrl exampleSearchParamsGet)
                  exampleEvents
                  (initialScript YouTubeContent.DEFAULT_STATE exampleWindow [])))
            !! Background.SITE_OVERLAY_ID)
         exampleWindow.
Proof.
  split; [exact cleanPage_exampleWindow|].
  exact (proj1 (overlays_share_the_lock exampleParseUrl exampleSearchParamsGet
                  YouTubeContent.DEFAULT_STATE exampleWindow [] exampleEvents
                  cleanPage_exampleWindow)).
Defined.

Lemma overlay_follows_reason_instance :
  cleanPage exampleWindow
  /\ YouTubeContent.checkToken
       (fold_left (handle exampleParseUrl exampleSearchParamsGet) exampleEvents
          (initialScript YouTubeContent.DEFAULT_STATE exampleWindow []))
     = length
         (YouTubeContent.outbox
            (fold_left (handle exampleParseUrl exampleSearchParamsGet)
               exampleEvents
               (initialScript YouTubeContent.DEFAULT_STATE exampleWindow []))).
Proof.
  split; [exact cleanPage_exampleWindow|].
  exact (proj1 (proj2 (overlay_follows_reason exampleParseUrl
                         exampleSearchParamsGet YouTubeContent.DEFAULT_STATE
                         exampleWindow [] exampleEvents
                         cleanPage_exampleWindow))).
Defined.

(** The refusal that answers the current check. *)
Lemma latest_answer_decides_instance :
  cleanPage exampleWindow
  /\ ScrollLock.overlays
       (YouTubeContent.page
          (handle exampleParseUrl exampleSearchParamsGet
             (fold_left (handle exampleParseUrl exampleSearchParamsGet)
                exampleEvents
                (initialScript YouTubeContent.DEFAULT_STATE exampleWindow []))
             (Answered
                (YouTubeContent.checkToken
                   (fold_left (handle exampleParseUrl exampleSearchParamsGet)
                      exampleEvents
                      (initialScript YouTubeContent.DEFAULT_STATE
                         exampleWindow [])))
                (Some exampleRefusal))))
       !! YouTubeContent.OVERLAY_ID
     = Some (videoMessage "Example").
Proof.
  split; [exact cleanPage_exampleWindow|].
  exact (proj1 (proj2 (latest_answer_decides exampleParseUrl
                         exampleSearchParamsGet YouTubeContent.DEFAULT_STATE
                         exampleWindow [] exampleEvents _
                         (Some exampleRefusal) cleanPage_exampleWindow)
                  eq_refl)).
Defined.

(** The home page of the video site after those events. *)
Lemma forced_check_asks_or_clears_instance :
  cleanPage exampleWindow
  /\ YouTubeContent.overlayReason
       (handle exampleParseUrl exampleSearchParamsGet
          (fold_left (handle exampleParseUrl exampleSearchParamsGet)
             exampleEvents
             (initialScript YouTubeContent.DEFAULT_STATE exampleWindow []))
          (NavigateFinish "https://www.youtube.com/")) = "".
Proof.
  split; [exact cleanPage_exampleWindow|].
  pose proof (forced_check_asks_or_clears exampleParseUrl
                exampleSearchParamsGet YouTubeContent.DEFAULT_STATE
                exampleWindow [] exampleEvents "https://www.youtube.com/"
                cleanPage_exampleWindow) as H.
  cbv zeta in H.
  change (YouTubeContent.getActiveVideoId exampleParseUrl
            exampleSearchParamsGet "https://www.youtube.com/")
    with (@None string) in H.
  exact (proj1 (proj2 H)).
Defined.

(** A first tick on a page that plays a video. *)
Lemma queueCheck_quiet_instance :
  YouTubeContent.outbox
    (snd (YouTubeContent.queueCheck exampleParseUrl exampleSearchParamsGet
            false "https://www.youtube.com/watch"
            (initialScript YouTubeContent.DEFAULT_STATE exampleWindow [])))
  <> YouTubeContent.outbox
       (initialScript YouTubeContent.DEFAULT_STATE exampleWindow [])
  /\ YouTubeContent.buildSignature "https://www.youtube.com/watch"
       (initialScript YouTubeContent.DEFAULT_STATE exampleWindow [])
     <> YouTubeContent.lastSignature
          (initialScript YouTubeContent.DEFAULT_STATE exampleWindow []).
Proof.
  assert (H : YouTubeContent.outbox
                (snd (YouTubeContent.queueCheck exampleParseUrl
                        exampleSearchParamsGet false
                        "https://www.youtube.com/watch"
                        (initialScript YouTubeContent.DEFAULT_STATE
                           exampleWindow [])))
              <> YouTubeContent.outbox
                   (initialScript YouTubeContent.DEFAULT_STATE exampleWindow []))
    by (vm_compute; discriminate).
  split; [exact H|].
  exact (proj2 (queueCheck_quiet exampleParseUrl exampleSearchParamsGet
                  false "" (initialScript YouTubeContent.DEFAULT_STATE
                              exampleWindow []))
           "https://www.youtube.com/watch"
           (initialScript YouTubeContent.DEFAULT_STATE exampleWindow []) H).
Defined.

(** A short with more path behind its identifier. *)
Lemma getActiveVideoId_spec_instance :
  exampleParseUrl "https://www.youtube.com/shorts/abc123/extra"
  = Some (mkUrl "https://www.youtube.com/shorts/abc123/extra"
            "www.youtube.com" "/shorts/abc123/extra" "")
  /\ YouTubeContent.getActiveVideoId exampleParseUrl exampleSearchParamsGet
       "https://www.youtube.com/shorts/abc123/extra"
     = Some (trim "abc123").
Proof.
  assert (H : exampleParseUrl "https://www.youtube.com/shorts/abc123/extra"
              = Some (mkUrl "https://www.youtube.com/shorts/abc123/extra"
                        "www.youtube.com" "/shorts/abc123/extra" ""))
    by reflexivity.
  split; [exact H|].
  apply (proj1 (proj2 (proj2 (proj1 (proj2
           (getActiveVideoId_spec exampleParseUrl exampleSearchParamsGet))
           _ _ H) eq_refl)) "abc123" "/extra").
  - discriminate.
  - reflexivity.
  - right. now exists "extra".
  - now left.
Defined.

(** The answer of the worker to the check of the example, on the page
    of the example. *)
Lemma refusal_reaches_the_page_instance :
  cleanPage exampleWindow
  /\ exists (response : Listeners.Response) (world' : Background.World),
       Listeners.onMessage exampleParseUrl
         (Some (Listeners.mkMessage "youtube-check-video"
                  (Some "dQw4w9WgXcQ")))
         exampleWorldWithKey
       = (Background.Ok (Some response), world').
Proof.
  split; [exact cleanPage_exampleWindow|].
  destruct (refusal_reaches_the_page exampleParseUrl exampleSearchParamsGet
              YouTubeContent.DEFAULT_STATE exampleWindow [] exampleEvents
              exampleWorldWithKey (Some "dQw4w9WgXcQ")
              cleanPage_exampleWindow) as (response & world' & H & _).
  now exists response, world'.
Defined.

(** Ticks and a change of the allow list on a page of a subreddit. *)
Lemma tick_shows_the_fresh_decision_instance :
  (forall h, href (exampleLocationOf h) = h)
  /\ decisionOf
       (RedditContent.checkLocation false
          (exampleLocationOf "https://www.reddit.com/r/funny")
          (fold_left (handleReddit exampleLocationOf)
             [TimerTick "https://www.reddit.com/r/funny";
              StorageEvent
                (RedditEvents.mkChanges (Some (Some ["funny"])) None None)
                "sync" "https://www.reddit.com/r/funny";
              TimerTick "https://www.reddit.com/r/pics"]
             (RedditEvents.init
                (Some (RedditEvents.mkStored (Some []) (Bool true) (Bool true)))
                (exampleLocationOf "https://www.reddit.com/"))))
     = decisionOf
         (RedditContent.checkLocation true
            (exampleLocationOf "https://www.reddit.com/r/funny")
            (fold_left (handleReddit exampleLocationOf)
               [TimerTick "https://www.reddit.com/r/funny";
                StorageEvent
                  (RedditEvents.mkChanges (Some (Some ["funny"])) None None)
                  "sync" "https://www.reddit.com/r/funny";
                TimerTick "https://www.reddit.com/r/pics"]
               (RedditEvents.init
                  (Some (RedditEvents.mkStored (Some []) (Bool true)
                           (Bool true)))
                  (exampleLocationOf "https://www.reddit.com/")))).
Proof.
  split; [exact href_exampleLocationOf|].
  exact (tick_shows_the_fresh_decision exampleLocationOf href_exampleLocationOf
           _ _ _ _).
Defined.

(** The allow list changes while the page of a subreddit is shown. *)
Lemma onStorageChanged_decides_afresh_instance :
  setMatchesList (scriptWith ["funny"] true true)
  /\ RedditContent.state
       (RedditEvents.onStorageChanged
          (RedditEvents.mkChanges (Some (Some ["pics"])) None None) "sync"
          (redditPage "/r/funny") (scriptWith ["funny"] true true))
     = RedditContent.mkState ["pics"] true true.
Proof.
  assert (H : setMatchesList (scriptWith ["funny"] true true)) by reflexivity.
  split; [exact H|].
  exact (proj1 (proj2 (onStorageChanged_decides_afresh
                         (RedditEvents.mkChanges (Some (Some ["pics"])) None
                            None)
                         "sync" (redditPage "/r/funny")
                         (scriptWith ["funny"] true true) H) eq_refl)).
Defined.

(** A post of an allowed subreddit, stored with its prefix and a
    capital. *)
Lemma allow_list_agrees_with_rules_instance :
  onReddit (redditPage "/r/funny/comments")
  /\ RedditContent.extractSubreddit (currentPath (redditPage "/r/funny/comments"))
     = Some "funny"
  /\ (decisionOf
        (RedditContent.checkLocation true (redditPage "/r/funny/comments")
           (scriptWith ["r/Funny/"] true true)) = clear
      <-> exists i,
            allowRule i "funny"
            ∈ Background.compiledRules
                (Background.mkState [] ["r/Funny/"] (Bool true) (Bool true) [])).
Proof.
  assert (H1 : onReddit (redditPage "/r/funny/comments")) by reflexivity.
  assert (H2 : RedditContent.extractSubreddit
                 (currentPath (redditPage "/r/funny/comments")) = Some "funny")
    by reflexivity.
  split; [exact H1|]. split; [exact H2|].
  apply (proj2 (allow_list_agrees_with_rules
                  (Background.mkState [] ["r/Funny/"] (Bool true) (Bool true) [])
                  (redditPage "/r/funny/comments") "funny"
                  eq_refl H1 H2 ltac:(discriminate))).
Defined.

End MoreInstances.

